(** * The manifest installer of the Istio operator (pkg/manifest/installer.go)

    A shallow embedding of the installer: the object orderer, the object
    partitioner, the readiness predicates, the two polling waiters, the
    per-component apply engine, the render-to-directory walk and the
    dependency gates of the concurrent fan-out, followed by the properties
    established about them.

    Conventions.  Go [string] is [string]; Go [int] and [int32] are [Z] (no
    arithmetic is performed on them, only comparisons); a Go [map] is a
    [gmap]; a Go [error] is [option error] with [None] for [nil]; a pointer
    that may be [nil] is an [option]. *)

From Stdlib Require Import ZArith Ascii String List Permutation.
From stdpp Require Import gmap strings list fin_maps.

Local Open Scope string_scope.
Local Open Scope list_scope.
Local Open Scope Z_scope.

(* ===================================================================== *)
(** * Part I: definitions *)
(* ===================================================================== *)

(** ** Errors *)

(** A Go [error] value is identified with its message. *)
Definition error := string.

(** ** Component names (package [name]) *)

Module name.

(** [type ComponentName string] *)
Definition ComponentName := string.

(** Modelled from the spec: the component-name constants of package
    [name], which is not part of the sources at hand.  The spec names
    "Base" and "Pilot"; the other values follow the same convention.  The
    development only relies on these names being pairwise distinct. *)
Definition IstioBaseComponentName : ComponentName := "Base".
Definition PilotComponentName : ComponentName := "Pilot".
Definition PolicyComponentName : ComponentName := "Policy".
Definition TelemetryComponentName : ComponentName := "Telemetry".
Definition GalleyComponentName : ComponentName := "Galley".
Definition CitadelComponentName : ComponentName := "Citadel".
Definition NodeAgentComponentName : ComponentName := "NodeAgent".
Definition CertManagerComponentName : ComponentName := "CertManager".
Definition SidecarInjectorComponentName : ComponentName := "Injector".
Definition IngressComponentName : ComponentName := "IngressGateway".
Definition EgressComponentName : ComponentName := "EgressGateway".
Definition CNIComponentName : ComponentName := "Cni".
Definition PrometheusOperatorComponentName : ComponentName := "PrometheusOperator".
Definition PrometheusComponentName : ComponentName := "Prometheus".
Definition GrafanaComponentName : ComponentName := "Grafana".
Definition KialiComponentName : ComponentName := "Kiali".
Definition TracingComponentName : ComponentName := "Tracing".

(** Modelled from the spec: [name.OperatorAPINamespace], the prefix of the
    three label keys. *)
Definition OperatorAPINamespace : string := "operator.istio.io".

End name.

(** ** Resource objects (package [object]) *)

(** The fields of [object.K8sObject] that the installer reads or writes. *)
Record K8sObject := mkK8sObject {
  Group : string;
  Kind : string;
  Name : string;
  Namespace : string;
  Labels : gmap string string
}.

#[export] Instance K8sObject_eq_dec : EqDecision K8sObject.
Proof. solve_decision. Defined.

(** ** The object orderer *)

(** [defaultObjectOrder] returns the scoring closure; the closure is the
    function below.  The [switch] on [gk] is a chain of string comparisons,
    tried in the order of the source. *)
Definition defaultObjectOrder (o : K8sObject) : Z :=
  let gk := Group o +:+ "/" +:+ Kind o in
  if String.eqb gk "apiextensions.k8s.io/CustomResourceDefinition" then -1000
  else if String.eqb gk "/ServiceAccount"
          || String.eqb gk "rbac.authorization.k8s.io/ClusterRole" then 1
  else if String.eqb gk "rbac.authorization.k8s.io/ClusterRoleBinding" then 2
  else if String.eqb gk "/ConfigMap" || String.eqb gk "/Secrets" then 100
  else if String.eqb gk "extensions/Deployment"
          || String.eqb gk "app/Deployment" then 1000
  else if String.eqb gk "autoscaling/HorizontalPodAutoscaler" then 1001
  else if String.eqb gk "/Service" then 10000
  else 1000.

(** ** The object partitioner *)

Definition cRDKindObjects (objects : list K8sObject) : list K8sObject :=
  filter (fun o => Kind o = "CustomResourceDefinition") objects.

Definition nsKindObjects (objects : list K8sObject) : list K8sObject :=
  filter (fun o => Kind o = "Namespace") objects.

(** [objectsNotInLists] keeps the objects that occur in none of [lists].
    The source keys its filter map by pointer; the lists it is called with
    are sub-lists of [objects] selected by a field of the object, so an
    object is behind a pointer of the filter map exactly when an equal
    object is in one of the lists. *)
Definition objectsNotInLists (objects : list K8sObject)
    (lists : list (list K8sObject)) : list K8sObject :=
  let filterMap := concat lists in
  filter (fun o => o ∉ filterMap) objects.

(** ** Live objects read by the readiness waiter (k8s.io/api) *)

(** [v1.ServiceType] is a string type. *)
Definition ServiceTypeClusterIP : string := "ClusterIP".
Definition ServiceTypeNodePort : string := "NodePort".
Definition ServiceTypeLoadBalancer : string := "LoadBalancer".
Definition ServiceTypeExternalName : string := "ExternalName".
Definition ClusterIPNone : string := "None".

Record Service := mkService {
  svcNamespace : string;
  svcName : string;
  svcType : string;                    (* Spec.Type *)
  svcClusterIP : string;               (* Spec.ClusterIP *)
  svcIngress : option (list string)    (* Status.LoadBalancer.Ingress; [None] is the nil slice *)
}.

Record PodCondition := mkPodCondition {
  pcType : string;
  pcStatus : string
}.

Record Pod := mkPod {
  podNamespace : string;
  podName : string;
  podConditions : list PodCondition
}.

Record NamespaceObj := mkNamespaceObj {
  nsName : string;
  nsPhase : string
}.

Record ReplicaSet := mkReplicaSet {
  rsNamespace : string;
  rsName : string;
  rsReadyReplicas : Z;                              (* Status.ReadyReplicas *)
  rsSelector : option (gmap string string)          (* Spec.Selector, a pointer *)
}.

Record Deployment := mkDeployment {
  depNamespace : string;
  depName : string;
  depReplicas : option Z                            (* Spec.Replicas, a *int32 *)
}.

(** [deployment] pairs a deployment with its new replica set.  Both fields
    are pointers in the source; the only place that builds the struct
    (the Deployment case of the readiness waiter) does so after checking
    that neither is nil, so the model stores the pointees. *)
Record deployment := mkdeployment {
  replicaSets : ReplicaSet;
  deployment_ : Deployment
}.

Definition NamespaceActive : string := "Active".
Definition PodReady : string := "Ready".
Definition ConditionTrue : string := "True".
Definition ConditionFalse : string := "False".

(** ** Readiness predicates *)

Definition isNamespaceReady (namespace : NamespaceObj) : bool :=
  String.eqb (nsPhase namespace) NamespaceActive.

Definition isPodReady (pod : Pod) : bool :=
  existsb (fun condition =>
             String.eqb (pcType condition) PodReady
             && String.eqb (pcStatus condition) ConditionTrue)
          (podConditions pod).

Definition namespacesReady (namespaces : list NamespaceObj) : bool * list string :=
  let notReady :=
    flat_map (fun namespace =>
                if isNamespaceReady namespace then []
                else ["Namespace/" +:+ nsName namespace]) namespaces in
  (bool_decide (length notReady = 0%nat), notReady).

Definition podsReady (pods : list Pod) : bool * list string :=
  let notReady :=
    flat_map (fun pod =>
                if isPodReady pod then []
                else ["Pod/" +:+ podNamespace pod +:+ "/" +:+ podName pod]) pods in
  (bool_decide (length notReady = 0%nat), notReady).

(** One iteration of the loop of [deploymentsReady]: [None] is the run-time
    panic of dereferencing a nil [Spec.Replicas]. *)
Definition deploymentNotReady (v : deployment) : option (list string) :=
  match depReplicas (deployment_ v) with
  | None => None
  | Some replicas =>
      if rsReadyReplicas (replicaSets v) <? replicas
      then Some ["Deployment/" +:+ depNamespace (deployment_ v) +:+ "/"
                   +:+ depName (deployment_ v)]
      else Some []
  end.

Fixpoint deploymentsNotReady (deployments : list deployment) : option (list string) :=
  match deployments with
  | [] => Some []
  | v :: rest =>
      match deploymentNotReady v with
      | None => None
      | Some l =>
          match deploymentsNotReady rest with
          | None => None
          | Some l' => Some (l ++ l')
          end
      end
  end.

Definition deploymentsReady (deployments : list deployment)
    : option (bool * list string) :=
  match deploymentsNotReady deployments with
  | None => None
  | Some notReady => Some (bool_decide (length notReady = 0%nat), notReady)
  end.

(** The body of the loop of [servicesReady] for one service. *)
Definition serviceNotReady (s : Service) : list string :=
  if String.eqb (svcType s) ServiceTypeExternalName then []
  else if negb (String.eqb (svcClusterIP s) ClusterIPNone)
          && String.eqb (svcClusterIP s) ""
  then ["Service/" +:+ svcNamespace s +:+ "/" +:+ svcName s]
  else if String.eqb (svcType s) ServiceTypeLoadBalancer
          && bool_decide (svcIngress s = None)
  then ["Service/" +:+ svcNamespace s +:+ "/" +:+ svcName s]
  else [].

Definition servicesReady (svc : list Service) : bool * list string :=
  let notReady := flat_map serviceNotReady svc in
  (bool_decide (length notReady = 0%nat), notReady).

Definition joinStringSlices (s : list (list string)) : list string :=
  concat s.

(** ** Install options, outcomes, call and log records *)

(** [time.Duration] is an [int64] count of nanoseconds. *)
Definition Duration := Z.
Definition Millisecond : Duration := 1000000.
Definition Second : Duration := 1000 * Millisecond.

Definition cRDPollInterval : Duration := 500 * Millisecond.
Definition cRDPollTimeout : Duration := 60 * Second.
Definition operatorReconcileStr : string := "Reconcile".
Definition operatorLabelStr : string := name.OperatorAPINamespace +:+ "/managed".
Definition istioComponentLabelStr : string := name.OperatorAPINamespace +:+ "/component".
Definition istioVersionLabelStr : string := name.OperatorAPINamespace +:+ "/version".

Record InstallOptions := mkInstallOptions {
  DryRun : bool;
  Verbose : bool;
  Wait : bool;
  WaitTimeout : Duration;
  Kubeconfig : string;
  Context_ : string
}.

Record ComponentApplyOutput := mkComponentApplyOutput {
  Stdout : string;
  Stderr : string;
  Err : option error;
  Manifest : string
}.

(** The resolved cluster connection ([*rest.Config]): an opaque handle and
    the three fields [defaultRestConfig] sets. *)
Record RestConfig := mkRestConfig {
  cfgHandle : string;
  APIPath : string;
  GroupVersion : string;
  NegotiatedSerializer : string
}.

(** An invocation of the apply executor (package [kubectlcmd]). *)
Inductive Call :=
| CallGetAll (kubeconfig context namespace output : string) (extraArgs : list string)
| CallDelete (dryRun verbose : bool) (kubeconfig context namespace manifest : string)
    (extraArgs : list string)
| CallApply (dryRun verbose : bool) (kubeconfig context namespace manifest : string)
    (extraArgs : list string)
| CallGetCRD (crdName : string).

(** A log line: the level, the format string and its arguments, as passed
    to [log.Infof], [log.Warnf] and [log.Errorf]. *)
Inductive LogEntry :=
| LogInfo (format : string) (args : list string)
| LogWarn (format : string) (args : list string)
| LogError (format : string) (args : list string).

(** ** Values decoded from YAML *)

(** What [yaml.Unmarshal] stores in an [interface{}]. *)
#[warnings="-register-all"] Inductive YAML :=
| YNull
| YBool (b : bool)
| YNum (z : Z)
| YStr (s : string)
| YSeq (items : list YAML)
| YMap (fields : list (string * YAML)).

(** ** Custom resource definitions *)

Definition Established : string := "Established".
Definition NamesAccepted : string := "NamesAccepted".

Record CRDCondition := mkCRDCondition {
  condType : string;
  condStatus : string;
  condReason : string
}.

Record CustomResourceDefinition := mkCRD {
  crdConditions : list CRDCondition    (* Status.Conditions *)
}.

(** Controllers whose pods the readiness waiter lists.  A
    ReplicationController carries its selector as a map; DaemonSet,
    StatefulSet and ReplicaSet carry a pointer to a label selector. *)
Record ReplicationController := mkRC {
  rcNamespace : string;
  rcSelector : gmap string string
}.

Record Workload := mkWorkload {
  wlNamespace : string;
  wlSelector : option (gmap string string)   (* Spec.Selector; [None] is nil *)
}.

(** ** The collaborators *)

(** The installer delegates to the apply executor, the manifest parser and
    serializers, the YAML decoder, the cluster API client and the
    connection resolver.  None of them is part of the sources at hand; they
    are taken as parameters.  [W] is the state of the outside world (the
    cluster, the local configuration, the clock); an operation that talks
    to the world takes the world and returns its answer with the next
    world. *)
Class Collaborators (W : Type) := {
  (* package kubectlcmd *)
  kubectl_GetAll : string -> string -> string -> string -> list string ->
                   W -> (string * string * option error) * W;
  kubectl_Delete : bool -> bool -> string -> string -> string -> string -> list string ->
                   W -> (string * string * option error) * W;
  kubectl_Apply : bool -> bool -> string -> string -> string -> string -> list string ->
                  W -> (string * string * option error) * W;
  (* package object *)
  ParseK8sObjectsFromYAMLManifest : string -> list K8sObject + error;
  JSONManifest : list K8sObject -> string + error;
  YAMLManifest : list K8sObject -> string * option error;
  (* github.com/ghodss/yaml, decoding into a map[string]interface{} *)
  yaml_Unmarshal : string -> gmap string YAML + error;
  (* client constructors *)
  apiextensionsclient_NewForConfig : RestConfig -> option error;
  kubernetes_NewForConfig : RestConfig -> option error;
  (* cluster API reads *)
  GetCRD : string -> W -> (CustomResourceDefinition + error) * W;
  GetNamespace : string -> W -> (NamespaceObj + error) * W;
  GetPod : string -> string -> W -> (Pod + error) * W;
  GetReplicationController : string -> string -> W -> (ReplicationController + error) * W;
  ListPods : string -> gmap string string -> W -> (list Pod * option error) * W;
  GetDeployment : string -> string -> W -> (Deployment + error) * W;
  GetAllReplicaSets : Deployment -> W -> (option ReplicaSet * option error) * W;
  GetDaemonSet : string -> string -> W -> (Workload + error) * W;
  GetStatefulSet : string -> string -> W -> (Workload + error) * W;
  GetReplicaSet : string -> string -> W -> (Workload + error) * W;
  GetService : string -> string -> W -> (Service + error) * W;
  (* connection resolver: os.Stat (size of the file) and clientcmd *)
  os_Stat : string -> W -> (Z + error) * W;
  clientcmd_ClientConfig : string -> string -> W -> (RestConfig + error) * W;
  (* k8s.io/apimachinery wait.Poll: passing of time, and how many times a
     poll with the given interval and timeout evaluates its condition
     before it gives up *)
  sleep : Duration -> W -> W;
  pollAttempts : Duration -> Duration -> nat;
  (* time.Duration.String *)
  Duration_String : Duration -> string
}.

(** ** The installer monad *)

(** The state threaded through the installer: the world, the process-wide
    connection handle [k8sRESTConfig], and the record of executor calls and
    log lines (latest first). *)
Record State (W : Type) := mkState {
  world : W;
  k8sRESTConfig : option RestConfig;
  calls : list Call;
  logs : list LogEntry
}.
Arguments mkState {W}.
Arguments world {W}.
Arguments k8sRESTConfig {W}.
Arguments calls {W}.
Arguments logs {W}.

(** A computation returns a value or panics (a nil dereference). *)
Inductive Outcome (W A : Type) :=
| Ret (a : A) (s : State W)
| Panic (s : State W).
Arguments Ret {W A}.
Arguments Panic {W A}.

Definition M (W A : Type) := State W -> Outcome W A.

Definition ret {W A} (a : A) : M W A := fun s => Ret a s.

Definition bind {W A B} (m : M W A) (k : A -> M W B) : M W B :=
  fun s => match m s with
           | Ret a s' => k a s'
           | Panic s' => Panic s'
           end.

Definition panic {W A} : M W A := fun s => Panic s.

#[export] Instance M_ret {W} : MRet (M W) := fun A a => ret a.
#[export] Instance M_bind {W} : MBind (M W) := fun A B k m => bind m k.

(** Calling a collaborator that talks to the world. *)
Definition ask {W A} (f : W -> A * W) : M W A :=
  fun s => let '(a, w) := f (world s) in
           Ret a (mkState w (k8sRESTConfig s) (calls s) (logs s)).

Definition tell {W} (f : W -> W) : M W unit :=
  fun s => Ret tt (mkState (f (world s)) (k8sRESTConfig s) (calls s) (logs s)).

Definition record {W} (c : Call) : M W unit :=
  fun s => Ret tt (mkState (world s) (k8sRESTConfig s) (c :: calls s) (logs s)).

Definition log {W} (l : LogEntry) : M W unit :=
  fun s => Ret tt (mkState (world s) (k8sRESTConfig s) (calls s) (l :: logs s)).

Definition getRESTConfig {W} : M W (option RestConfig) :=
  fun s => Ret (k8sRESTConfig s) s.

Definition setRESTConfig {W} (c : option RestConfig) : M W unit :=
  fun s => Ret tt (mkState (world s) c (calls s) (logs s)).

(** [wait.Poll(interval, timeout, condition)]: sleep, evaluate the
    condition; an error ends the poll with that error, [true] ends it with
    success, and when the attempts are used up the poll ends with
    [ErrWaitTimeout].  [acc] is the state the condition closure keeps
    between evaluations. *)
Definition ErrWaitTimeout : error := "timed out waiting for the condition".

Fixpoint pollLoop {W} `{!Collaborators W} {S : Type} (n : nat) (interval : Duration)
    (condition : S -> M W (bool * option error * S)) (acc : S)
    : M W (option error * S) :=
  match n with
  | O => ret (Some ErrWaitTimeout, acc)
  | Datatypes.S k =>
      tell (sleep interval) ;;
      '(done, err, acc') ← condition acc;
      match err with
      | Some e => ret (Some e, acc')
      | None => if (done : bool) then ret (None, acc')
                else pollLoop k interval condition acc'
      end
  end.

Definition Poll {W} `{!Collaborators W} {S : Type} (interval timeout : Duration)
    (condition : S -> M W (bool * option error * S)) (acc : S)
    : M W (option error * S) :=
  pollLoop (pollAttempts interval timeout) interval condition acc.

(** The line feed, as in the Go literal with a backslash and an n. *)
Definition nl : string := String "010"%char "".

(** [logAndPrint] formats its arguments, logs the line at info level and
    prints it; the record keeps the format and the arguments. *)
Definition logAndPrint {W} (format : string) (args : list string) : M W unit :=
  log (LogInfo format args).

Section Installer.
Context {W : Type} `{!Collaborators W}.

(** ** The CRD establishment waiter *)

(** The inner loop over [crd.Status.Conditions]; [true] is the
    [continue descriptor] taken at an [Established] condition with value
    true, [false] is falling out of the loop. *)
Fixpoint scanConditions (crdName : string) (conds : list CRDCondition) : M W bool :=
  match conds with
  | [] => mret false
  | cond :: rest =>
      if String.eqb (condType cond) Established then
        if String.eqb (condStatus cond) ConditionTrue then
          log (LogInfo "established CRD %q" [crdName]) ;;
          mret true
        else scanConditions crdName rest
      else if String.eqb (condType cond) NamesAccepted then
        (if String.eqb (condStatus cond) ConditionFalse
         then log (LogWarn "name conflict: %v" [condReason cond])
         else mret tt) ;;
        scanConditions crdName rest
      else scanConditions crdName rest
  end.

(** The condition closure handed to [wait.Poll]: the outer loop over
    [crdNames]. *)
Fixpoint crdCondition (crdNames : list string) : M W (bool * option error) :=
  match crdNames with
  | [] => mret (true, None)
  | crdName :: rest =>
      record (CallGetCRD crdName) ;;
      r ← ask (GetCRD crdName);
      match r with
      | inr errGet => mret (false, Some errGet)
      | inl crd =>
          established ← scanConditions crdName (crdConditions crd);
          if (established : bool) then crdCondition rest
          else
            log (LogInfo "missing status condition for %q" [crdName]) ;;
            mret (false, None)
      end
  end.

Definition waitForCRDs (objects : list K8sObject) (dryRun : bool) : M W (option error) :=
  if dryRun then
    log (LogInfo "Not waiting for CRDs in dry run mode." []) ;;
    mret None
  else
    log (LogInfo "Waiting for CRDs to be applied." []) ;;
    cfg ← getRESTConfig;
    match cfg with
    | None => panic     (* NewForConfig copies the configuration it points to *)
    | Some config =>
        match apiextensionsclient_NewForConfig config with
        | Some err => mret (Some ("k8s client error: " +:+ err))
        | None =>
            let crdNames := map Name (cRDKindObjects objects) in
            '(errPoll, _) ← Poll cRDPollInterval cRDPollTimeout
                              (fun _ : unit =>
                                 '(done, err) ← crdCondition crdNames;
                                 mret (done, err, tt)) tt;
            match errPoll with
            | Some e =>
                log (LogError "failed to verify CRD creation; %s" [e]) ;;
                mret (Some ("failed to verify CRD creation: " +:+ e))
            | None =>
                log (LogInfo "Finished applying CRDs." []) ;;
                mret None
            end
        end
    end.

(** ** The resource readiness waiter *)

Definition getPods (namespace : string) (selector : gmap string string)
    : M W (list Pod * option error) :=
  ask (ListPods namespace selector).

(** The four slices a poll fills while it goes through the objects. *)
Record Gathered := mkGathered {
  pods : list Pod;
  services : list Service;
  deployments : list deployment;
  namespaces : list NamespaceObj
}.

Definition addPods (g : Gathered) (l : list Pod) : Gathered :=
  mkGathered (pods g ++ l) (services g) (deployments g) (namespaces g).

(** Listing the pods of a controller and appending them; [inr e] is the
    early [return false, e] of the condition closure. *)
Definition gatherPods (g : Gathered) (namespace : string)
    (selector : gmap string string) : M W (Gathered + option error) :=
  '(list, err) ← getPods namespace selector;
  match err with
  | Some e => mret (inr (Some e))
  | None => mret (inl (addPods g list))
  end.

Definition gatherWorkload (g : Gathered) (r : Workload + error)
    : M W (Gathered + option error) :=
  match r with
  | inr e => mret (inr (Some e))
  | inl wl =>
      match wlSelector wl with
      | None => panic    (* Spec.Selector.MatchLabels through a nil selector *)
      | Some matchLabels => gatherPods g (wlNamespace wl) matchLabels
      end
  end.

(** One iteration of the loop over [objects]: the [switch] on the kind. *)
Definition gatherOne (o : K8sObject) (g : Gathered) : M W (Gathered + option error) :=
  let kind := Kind o in
  if String.eqb kind "Namespace" then
    r ← ask (GetNamespace (Name o));
    match r with
    | inr e => mret (inr (Some e))
    | inl namespace =>
        mret (inl (mkGathered (pods g) (services g) (deployments g)
                     (namespaces g ++ [namespace])))
    end
  else if String.eqb kind "Pod" then
    r ← ask (GetPod (Namespace o) (Name o));
    match r with
    | inr e => mret (inr (Some e))
    | inl pod => mret (inl (addPods g [pod]))
    end
  else if String.eqb kind "ReplicationController" then
    r ← ask (GetReplicationController (Namespace o) (Name o));
    match r with
    | inr e => mret (inr (Some e))
    | inl rc => gatherPods g (rcNamespace rc) (rcSelector rc)
    end
  else if String.eqb kind "Deployment" then
    r ← ask (GetDeployment (Namespace o) (Name o));
    match r with
    | inr e => mret (inr (Some e))
    | inl currentDeployment =>
        '(newReplicaSet, err) ← ask (GetAllReplicaSets currentDeployment);
        match err, newReplicaSet with
        | Some e, _ => mret (inr (Some e))
        | None, None => mret (inr None)
        | None, Some rs =>
            mret (inl (mkGathered (pods g) (services g)
                         (deployments g ++ [mkdeployment rs currentDeployment])
                         (namespaces g)))
        end
    end
  else if String.eqb kind "DaemonSet" then
    r ← ask (GetDaemonSet (Namespace o) (Name o)); gatherWorkload g r
  else if String.eqb kind "StatefulSet" then
    r ← ask (GetStatefulSet (Namespace o) (Name o)); gatherWorkload g r
  else if String.eqb kind "ReplicaSet" then
    r ← ask (GetReplicaSet (Namespace o) (Name o)); gatherWorkload g r
  else if String.eqb kind "Service" then
    r ← ask (GetService (Namespace o) (Name o));
    match r with
    | inr e => mret (inr (Some e))
    | inl svc =>
        mret (inl (mkGathered (pods g) (services g ++ [svc]) (deployments g)
                     (namespaces g)))
    end
  else mret (inl g).

Fixpoint gatherAll (objects : list K8sObject) (g : Gathered)
    : M W (Gathered + option error) :=
  match objects with
  | [] => mret (inl g)
  | o :: rest =>
      r ← gatherOne o g;
      match r with
      | inr e => mret (inr e)
      | inl g' => gatherAll rest g'
      end
  end.

(** The condition closure of [waitForResources]; [notReady] is the
    variable the closure shares with the enclosing function. *)
Definition resourcesCondition (objects : list K8sObject) (notReady : list string)
    : M W (bool * option error * list string) :=
  r ← gatherAll objects (mkGathered [] [] [] []);
  match r with
  | inr e => mret (false, e, notReady)
  | inl g =>
      match deploymentsReady (deployments g) with
      | None => panic
      | Some (dr, dnr) =>
          let '(nsr, nnr) := namespacesReady (namespaces g) in
          let '(pr, pnr) := podsReady (pods g) in
          let '(sr, snr) := servicesReady (services g) in
          let isReady := dr && nsr && pr && sr in
          (if isReady then mret tt
           else logAndPrint "  Waiting for resources to become ready..." []) ;;
          mret (isReady, None, joinStringSlices [nnr; dnr; pnr; snr])
      end
  end.

Definition waitForResources (objects : list K8sObject) (opts : InstallOptions)
    : M W (option error) :=
  if DryRun opts then
    logAndPrint "Not waiting for resources ready in dry run mode." [] ;;
    mret None
  else
    cfg ← getRESTConfig;
    match cfg with
    | None => panic
    | Some config =>
        match kubernetes_NewForConfig config with
        | Some err => mret (Some ("k8s client error: " +:+ err))
        | None =>
            '(errPoll, notReady) ← Poll (2 * Second) (WaitTimeout opts)
                                     (resourcesCondition objects) [];
            match errPoll with
            | Some e =>
                mret (Some ("resources not ready after "
                              +:+ Duration_String (WaitTimeout opts) +:+ ": " +:+ e
                              +:+ nl +:+ String.concat nl notReady))
            | None => mret None
            end
        end
    end.

End Installer.


(** ** Labelling and sorting (package [object]) *)

(** Modelled from the spec: [K8sObject.AddLabels] of package [object], which
    is not part of the sources at hand ("stamp every object with three
    labels").  The given labels are written over the object's labels. *)
Definition AddLabels (labels : gmap string string) (o : K8sObject) : K8sObject :=
  mkK8sObject (Group o) (Kind o) (Name o) (Namespace o) (labels ∪ Labels o).

(** Modelled from the spec: [K8sObjects.Sort] of package [object], which is
    not part of the sources at hand ("Sort is stable with this key only;
    objects of equal priority retain their original relative order"). *)
Fixpoint insertByScore (score : K8sObject -> Z) (o : K8sObject) (l : list K8sObject)
    : list K8sObject :=
  match l with
  | [] => [o]
  | x :: rest => if score o <=? score x then o :: x :: rest
                 else x :: insertByScore score o rest
  end.

Definition Sort (score : K8sObject -> Z) (objects : list K8sObject) : list K8sObject :=
  foldr (insertByScore score) [] objects.

Section ApplyEngine.
Context {W : Type} `{!Collaborators W}.

(** ** The output of [kubectl get] *)

Definition GetKubectlGetItems (stdoutGet : string) : list YAML + error :=
  match yaml_Unmarshal stdoutGet with
  | inr err => inr err
  | inl yamlGet =>
      match yamlGet !! "kind" with
      | Some (YStr "List") =>
          match yamlGet !! "items" with
          | None => inr "`kubectl get` returned a yaml without 'items' in the root"
          | Some (YSeq items) => inl items
          | Some _ => inr "`kubectl get` returned a yaml incorrecnt type 'items' in the root"
          end
      | _ => inr "`kubectl get` returned a yaml whose kind is not List"
      end
  end.

Definition buildComponentApplyOutput (stdout stderr : string)
    (objects : list K8sObject) (err : option error) : ComponentApplyOutput :=
  let '(manifest, _) := YAMLManifest objects in
  mkComponentApplyOutput stdout stderr err manifest.

(** The three executor operations, with the invocation put on record. *)
Definition GetAll (kubeconfig context namespace output : string)
    (extraArgs : list string) : M W (string * string * option error) :=
  record (CallGetAll kubeconfig context namespace output extraArgs) ;;
  ask (kubectl_GetAll kubeconfig context namespace output extraArgs).

Definition Delete (dryRun verbose : bool) (kubeconfig context namespace manifest : string)
    (extraArgs : list string) : M W (string * string * option error) :=
  record (CallDelete dryRun verbose kubeconfig context namespace manifest extraArgs) ;;
  ask (kubectl_Delete dryRun verbose kubeconfig context namespace manifest extraArgs).

Definition Apply (dryRun verbose : bool) (kubeconfig context namespace manifest : string)
    (extraArgs : list string) : M W (string * string * option error) :=
  record (CallApply dryRun verbose kubeconfig context namespace manifest extraArgs) ;;
  ask (kubectl_Apply dryRun verbose kubeconfig context namespace manifest extraArgs).

(** ** The component apply engine *)

(** The namespace remembered by the labelling loop: that of the last object
    that has one. *)
Definition lastNamespace (objects : list K8sObject) : string :=
  foldl (fun namespace o => if String.eqb (Namespace o) "" then namespace
                            else Namespace o) "" objects.

Definition stamp (componentName : name.ComponentName) (version : string)
    (o : K8sObject) : K8sObject :=
  AddLabels {[ istioVersionLabelStr := version ]}
    (AddLabels {[ operatorLabelStr := operatorReconcileStr ]}
       (AddLabels {[ istioComponentLabelStr := componentName ]} o)).

(** [version] is the result of [version.String()]. *)
Definition applyManifest (componentName : name.ComponentName) (manifestStr : string)
    (version : string) (opts : InstallOptions)
    : M W (ComponentApplyOutput * list K8sObject) :=
  let stdout := "" in
  let stderr := "" in
  let appliedObjects : list K8sObject := [] in
  match ParseK8sObjectsFromYAMLManifest manifestStr with
  | inr err =>
      mret (buildComponentApplyOutput stdout stderr appliedObjects (Some err),
            appliedObjects)
  | inl objects =>
  let componentLabel := istioComponentLabelStr +:+ "=" +:+ componentName in
  if bool_decide (length objects = 0%nat) then
    (* Delete all resources for a disabled component *)
    let extraArgsGet := ["--all-namespaces"; "--selector"; componentLabel] in
    '(stdoutGet, stderrGet, err) ←
      GetAll (Kubeconfig opts) (Context_ opts) "" "yaml" extraArgsGet;
    match err with
    | Some e =>
        let stdout := stdout +:+ nl +:+ stdoutGet in
        let stderr := stderr +:+ nl +:+ stderrGet in
        mret (buildComponentApplyOutput stdout stderr appliedObjects (Some e),
              appliedObjects)
    | None =>
    match GetKubectlGetItems stdoutGet with
    | inr e =>
        mret (buildComponentApplyOutput stdout stderr appliedObjects (Some e),
              appliedObjects)
    | inl items =>
    if bool_decide (length items = 0%nat) then
      mret (buildComponentApplyOutput stdout stderr appliedObjects None,
            appliedObjects)
    else
    logAndPrint "- Pruning objects for disabled component %s..." [componentName] ;;
    match ParseK8sObjectsFromYAMLManifest stdoutGet with
    | inr e =>
        mret (buildComponentApplyOutput stdout stderr appliedObjects (Some e),
              appliedObjects)
    | inl delObjects =>
    let extraArgsDel := ["--selector"; componentLabel] in
    '(stdoutDel, stderrDel, err) ←
      Delete (DryRun opts) (Verbose opts) (Kubeconfig opts) (Context_ opts) ""
        stdoutGet extraArgsDel;
    let stdout := stdout +:+ nl +:+ stdoutDel in
    let stderr := stderr +:+ nl +:+ stderrDel in
    match err with
    | Some e =>
        logAndPrint "✘ Finished pruning objects for disabled component %s."
          [componentName] ;;
        mret (buildComponentApplyOutput stdout stderr appliedObjects (Some e),
              appliedObjects)
    | None =>
        let appliedObjects := appliedObjects ++ delObjects in
        logAndPrint "✔ Finished pruning objects for disabled component %s."
          [componentName] ;;
        mret (buildComponentApplyOutput stdout stderr appliedObjects None,
              appliedObjects)
    end end end end
  else
    let objects := map (stamp componentName version) objects in
    let namespace := lastNamespace objects in
    let objects := Sort defaultObjectOrder objects in
    let extraArgs :=
      if bool_decide (componentName ≠ name.IstioBaseComponentName)
      then ["--force"] ++ ["--prune"; "--selector"; componentLabel]
      else ["--force"] in
    logAndPrint "- Applying manifest for component %s..." [componentName] ;;
    let nsObjects := nsKindObjects objects in
    (* the namespace step; [inr] is an early return of the function *)
    r ← (if (0 <? length nsObjects)%nat then
           match JSONManifest nsObjects with
           | inr e =>
               mret (inr (buildComponentApplyOutput stdout stderr appliedObjects (Some e),
                          appliedObjects))
           | inl mns =>
               '(stdoutNs, stderrNs, err) ←
                 Apply (DryRun opts) (Verbose opts) (Kubeconfig opts) (Context_ opts)
                   namespace mns extraArgs;
               let stdout := stdout +:+ nl +:+ stdoutNs in
               let stderr := stderr +:+ nl +:+ stderrNs in
               match err with
               | Some e =>
                   mret (inr (buildComponentApplyOutput stdout stderr appliedObjects
                                (Some e), appliedObjects))
               | None =>
                   err ← waitForResources nsObjects opts;
                   match err with
                   | Some e =>
                       mret (inr (buildComponentApplyOutput stdout stderr
                                    appliedObjects (Some e), appliedObjects))
                   | None => mret (inl (stdout, stderr))
                   end
               end
           end
         else mret (inl (stdout, stderr)));
    match r with
    | inr result => mret result
    | inl (stdout, stderr) =>
    let appliedObjects := appliedObjects ++ nsObjects in
    let crdObjects := cRDKindObjects objects in
    (* the CRD step *)
    r ← (if (0 <? length crdObjects)%nat then
           match JSONManifest crdObjects with
           | inr e =>
               mret (inr (buildComponentApplyOutput stdout stderr appliedObjects (Some e),
                          appliedObjects))
           | inl mcrd =>
               '(stdoutCRD, stderrCRD, err) ←
                 Apply (DryRun opts) (Verbose opts) (Kubeconfig opts) (Context_ opts)
                   namespace mcrd extraArgs;
               let stdout := stdout +:+ nl +:+ stdoutCRD in
               let stderr := stderr +:+ nl +:+ stderrCRD in
               match err with
               | Some e =>
                   mret (inr (buildComponentApplyOutput stdout stderr appliedObjects
                                (Some e), appliedObjects))
               | None =>
                   (* Not all Istio components are robust to not yet created CRDs. *)
                   err ← waitForCRDs objects (DryRun opts);
                   match err with
                   | Some e =>
                       mret (inr (buildComponentApplyOutput stdout stderr
                                    appliedObjects (Some e), appliedObjects))
                   | None => mret (inl (stdout, stderr))
                   end
               end
           end
         else mret (inl (stdout, stderr)));
    match r with
    | inr result => mret result
    | inl (stdout, stderr) =>
    let appliedObjects := appliedObjects ++ crdObjects in
    (* the remainder *)
    let nonNsCrdObjects := objectsNotInLists objects [nsObjects; crdObjects] in
    match JSONManifest nonNsCrdObjects with
    | inr e =>
        mret (buildComponentApplyOutput stdout stderr appliedObjects (Some e),
              appliedObjects)
    | inl m =>
        '(stdoutNonNsCrd, stderrNonNsCrd, err) ←
          Apply (DryRun opts) (Verbose opts) (Kubeconfig opts) (Context_ opts)
            namespace m extraArgs;
        let stdout := stdout +:+ nl +:+ stdoutNonNsCrd in
        let stderr := stderr +:+ nl +:+ stderrNonNsCrd in
        let appliedObjects := appliedObjects ++ nonNsCrdObjects in
        let mark := match err with Some _ => "✘" | None => "✔" end in
        logAndPrint "%s Finished applying manifest for component %s."
          [mark; componentName] ;;
        mret (buildComponentApplyOutput stdout stderr appliedObjects err,
              appliedObjects)
    end end end
  end.

(** ** The connection resolver *)

Definition BuildClientConfig (kubeconfig context : string) : M W (RestConfig + error) :=
  kubeconfig ←
    (if negb (String.eqb kubeconfig "") then
       r ← ask (os_Stat kubeconfig);
       match r with
       | inr _ => mret ""
       | inl size => if size =? 0 then mret "" else mret kubeconfig
       end
     else mret kubeconfig);
  ask (clientcmd_ClientConfig kubeconfig context).

Definition defaultRestConfig (kubeconfig configContext : string)
    : M W (RestConfig + error) :=
  r ← BuildClientConfig kubeconfig configContext;
  match r with
  | inr err => mret (inr err)
  | inl config =>
      mret (inl (mkRestConfig (cfgHandle config) "/api" "v1"
                   "WithoutConversionCodecFactory"))
  end.

Definition initK8SRestClient (kubeconfig context : string) : M W (option error) :=
  cfg ← getRESTConfig;
  match cfg with
  | Some _ => mret None
  | None =>
      r ← defaultRestConfig kubeconfig context;
      match r with
      | inr err => mret (Some err)   (* the assignment stores a nil configuration *)
      | inl config => setRESTConfig (Some config) ;; mret None
      end
  end.

End ApplyEngine.


(** ** The dependency declaration and the install tree *)

(** [componentNameToListMap]: a map from a parent to its children, kept as
    the list of its entries (the order of the entries plays no role). *)
Definition componentDependencies : list (name.ComponentName * list name.ComponentName) :=
  [ (name.IstioBaseComponentName,
     [ name.PilotComponentName;
       name.PolicyComponentName;
       name.TelemetryComponentName;
       name.GalleyComponentName;
       name.CitadelComponentName;
       name.NodeAgentComponentName;
       name.CertManagerComponentName;
       name.SidecarInjectorComponentName;
       name.IngressComponentName;
       name.EgressComponentName;
       name.CNIComponentName;
       name.PrometheusOperatorComponentName;
       name.PrometheusComponentName;
       name.GrafanaComponentName;
       name.KialiComponentName;
       name.TracingComponentName ]) ].

(** [children[componentName]]: the entry of the map, or the nil slice. *)
Fixpoint childrenOf (children : list (name.ComponentName * list name.ComponentName))
    (componentName : name.ComponentName) : list name.ComponentName :=
  match children with
  | [] => []
  | (p, cs) :: rest => if String.eqb p componentName then cs
                       else childrenOf rest componentName
  end.

(** [componentTree] is a [map[ComponentName]interface{}]; a value is either
    a [componentTree] again or something else.  The entries are kept as a
    list; [range] may visit them in any order. *)
#[warnings="-register-all"] Inductive treeValue :=
| SubTree (entries : list (name.ComponentName * treeValue))
| NotATree.

Definition componentTree := list (name.ComponentName * treeValue).

(** [tree[k] = v] on the list of entries. *)
Fixpoint treeInsert (k : name.ComponentName) (v : treeValue) (tree : componentTree)
    : componentTree :=
  match tree with
  | [] => [(k, v)]
  | (k', v') :: rest => if String.eqb k' k then (k, v) :: rest
                        else (k', v') :: treeInsert k v rest
  end.

(** [insertChildrenRecursive] recurses along the declaration; [fuel] bounds
    the depth of the recursion (a declaration with a cycle would make the
    source recurse for ever). *)
Fixpoint insertChildrenRecursive (fuel : nat) (componentName : name.ComponentName)
    (tree : componentTree)
    (children : list (name.ComponentName * list name.ComponentName)) : componentTree :=
  match fuel with
  | O => tree
  | S fuel' =>
      treeInsert componentName
        (SubTree (foldl (fun sub child =>
                           insertChildrenRecursive fuel' child sub children)
                        [] (childrenOf children componentName)))
        tree
  end.

(** [buildInstallTree], run by [init]: the declaration has depth two. *)
Definition installTree : componentTree :=
  insertChildrenRecursive 3 name.IstioBaseComponentName [] componentDependencies.

(** ** Rendering to a directory *)

(** A path is the list of its elements.  [filepath.Join(dir, name)] appends
    an element; this is what [Join] does for the component names, which are
    plain words. *)
Definition path := list string.

Definition Join (dir : path) (elem : string) : path := dir ++ [elem].

Definition pathString (p : path) : string := String.concat "/" p.

(** The part of the file system that rendering touches: the directories and
    the regular files with their contents. *)
Record FS := mkFS {
  dirs : gset path;
  files : gmap path string
}.

(** The proper and improper prefixes of a path, the path itself first. *)
Fixpoint prefixes (p : path) : list path :=
  match p with
  | [] => [[]]
  | x :: rest => (map (cons x) (prefixes rest)) ++ [[]]
  end.

(** [os.MkdirAll]: fails when an element of the path is a regular file,
    creates the missing directories otherwise. *)
Definition MkdirAll (p : path) (fs : FS) : option error * FS :=
  if bool_decide (Exists (fun q => is_Some (files fs !! q)) (prefixes p))
  then (Some ("mkdir " +:+ pathString p +:+ ": not a directory"), fs)
  else (None, mkFS (dirs fs ∪ list_to_set (prefixes p)) (files fs)).

(** The directory a path lies in. *)
Definition parentDir (p : path) : path := removelast p.

(** [ioutil.WriteFile]: fails on a directory and in a directory that does
    not exist (the root always exists); creates or overwrites the file
    otherwise. *)
Definition WriteFile (p : path) (data : string) (fs : FS) : option error * FS :=
  if bool_decide (p ∈ dirs fs)
  then (Some ("open " +:+ pathString p +:+ ": is a directory"), fs)
  else if bool_decide (parentDir p ≠ [] ∧ parentDir p ∉ dirs fs)
  then (Some ("open " +:+ pathString p +:+ ": no such file or directory"), fs)
  else (None, mkFS (dirs fs) (<[p := data]> (files fs))).

(** [manifests[k]]: the zero value for an absent key. *)
Definition manifestOf (manifests : gmap name.ComponentName string)
    (k : name.ComponentName) : string :=
  default "" (manifests !! k).

(** [renderRecursive]: the loop over the entries of the tree, in the order
    the list gives them.  The log lines are left out.  [outputDir] is
    spelled in the error message of a failed [MkdirAll], as in the
    source.  The recursion is on the tree: [renderEntries] is the function
    applied to the entries behind a value that is a tree. *)
Fixpoint renderEntries (manifests : gmap name.ComponentName string)
    (dryRun verbose : bool) (tree : treeValue) (outputDir : path) (fs : FS)
    {struct tree} : option error * FS :=
  match tree with
  | NotATree => (None, fs)
  | SubTree installTree =>
      (fix range (entries : componentTree) (fs : FS) {struct entries}
         : option error * FS :=
         match entries with
         | [] => (None, fs)
         | (k, v) :: rest =>
             let componentName := k in
             let ym := manifestOf manifests k in
             if String.eqb ym "" then range rest fs
             else
               let dirName := Join outputDir componentName in
               match (if negb dryRun then MkdirAll dirName fs else (None, fs)) with
               | (Some err, fs1) =>
                   (Some ("could not create directory " +:+ pathString outputDir
                            +:+ "; " +:+ err), fs1)
               | (None, fs1) =>
                   let fname := Join dirName (componentName +:+ ".yaml") in
                   match (if negb dryRun then WriteFile fname ym fs1
                          else (None, fs1)) with
                   | (Some err, fs2) =>
                       (Some ("could not write manifest config; " +:+ err), fs2)
                   | (None, fs2) =>
                       match v with
                       | NotATree => (None, fs2)     (* Leaf *)
                       | SubTree _ =>
                           match renderEntries manifests dryRun verbose v dirName fs2
                           with
                           | (Some err, fs3) => (Some err, fs3)
                           | (None, fs3) => range rest fs3
                           end
                       end
                   end
               end
         end) installTree fs
  end.

Definition renderRecursive (manifests : gmap name.ComponentName string)
    (installTree : componentTree) (outputDir : path) (dryRun verbose : bool)
    (fs : FS) : option error * FS :=
  renderEntries manifests dryRun verbose (SubTree installTree) outputDir fs.

Definition RenderToDir (manifests : gmap name.ComponentName string)
    (outputDir : path) (dryRun verbose : bool) (fs : FS) : option error * FS :=
  renderRecursive manifests installTree outputDir dryRun verbose fs.

(** ** The dependency gates and the fan-out *)

(** [dependencyWaitCh], as [init] builds it: a channel of capacity one for
    every component that is a child in the declaration.  A gate is the
    number of signals its channel holds. *)
Definition gatedComponents : list name.ComponentName :=
  concat (map snd componentDependencies).

Definition dependencyWaitCh : gmap name.ComponentName nat :=
  list_to_map (map (fun child => (child, 0%nat)) gatedComponents).

(** Where the task of a component stands in the body of its goroutine:
    before the receive on its gate, inside [applyManifest], in the loop
    that signals the children (with the children still to signal), or
    after [wg.Done]. *)
Inductive Task :=
| Waiting
| Applying
| Signalling (rest : list name.ComponentName)
| Finished.

#[export] Instance Task_eq_dec : EqDecision Task.
Proof. solve_decision. Defined.

(** What an observer of the tasks sees, in the order it happens. *)
Inductive Event :=
| EvBegin (c : name.ComponentName)                        (* the apply of [c] begins *)
| EvEnd (c : name.ComponentName) (err : option error)     (* [applyManifest] returned *)
| EvSignal (parent child : name.ComponentName)            (* a send on the child's gate *)
| EvDone (c : name.ComponentName).                        (* [wg.Done] *)

#[export] Instance Event_eq_dec : EqDecision Event.
Proof. solve_decision. Defined.

(** The state of a run of [applyRecursive]: the tasks, the gates, the two
    variables guarded by the mutex, the installer state, and the events so
    far (latest first). *)
Record Run (W : Type) := mkRun {
  tasks : gmap name.ComponentName Task;
  gates : gmap name.ComponentName nat;
  out : gmap name.ComponentName ComponentApplyOutput;
  allAppliedObjects : list K8sObject;
  state : State W;
  trace : list Event
}.
Arguments mkRun {W}.
Arguments tasks {W}.
Arguments gates {W}.
Arguments out {W}.
Arguments allAppliedObjects {W}.
Arguments state {W}.
Arguments trace {W}.

Section FanOut.
Context {W : Type} `{!Collaborators W}.

(** The state in which [applyRecursive] has launched one goroutine for each
    entry of [manifests], in a process whose gates are as [init] left
    them. *)
Definition launch (manifests : gmap name.ComponentName string) (s : State W) : Run W :=
  mkRun ((fun _ => Waiting) <$> manifests) dependencyWaitCh ∅ [] s [].

(** The gates are variables of the process, and nothing resets them: a run
    of [applyRecursive] starts from the gates as the runs before it have
    left them.  This is the state in which the goroutines have been
    launched over gates [g]. *)
Definition launchFrom (g : gmap name.ComponentName nat)
    (manifests : gmap name.ComponentName string) (s : State W) : Run W :=
  mkRun ((fun _ => Waiting) <$> manifests) g ∅ [] s [].

(** The next step of the goroutine of [c]; [None] when there is no such
    goroutine, when it has finished, when it is blocked on a channel, or
    when the process has crashed under it.  The call of [applyManifest] is
    taken as one step. *)
Definition step (manifests : gmap name.ComponentName string) (version : string)
    (opts : InstallOptions) (c : name.ComponentName) (r : Run W) : option (Run W) :=
  match tasks r !! c with
  | None => None
  | Some Finished => None
  | Some Waiting =>
      match gates r !! c with
      | None =>                                   (* no gate: proceed *)
          Some (mkRun (<[c := Applying]> (tasks r)) (gates r) (out r)
                  (allAppliedObjects r) (state r) (EvBegin c :: trace r))
      | Some O => None                            (* the receive blocks *)
      | Some (S n) =>
          Some (mkRun (<[c := Applying]> (tasks r)) (<[c := n]> (gates r)) (out r)
                  (allAppliedObjects r) (state r) (EvBegin c :: trace r))
      end
  | Some Applying =>
      match applyManifest c (manifestOf manifests c) version opts (state r) with
      | Panic _ => None
      | Ret (applyOut, appliedObjects) s' =>
          Some (mkRun (<[c := Signalling (childrenOf componentDependencies c)]> (tasks r))
                  (gates r) (<[c := applyOut]> (out r))
                  (allAppliedObjects r ++ appliedObjects) s'
                  (EvEnd c (Err applyOut) :: trace r))
      end
  | Some (Signalling []) =>
      Some (mkRun (<[c := Finished]> (tasks r)) (gates r) (out r)
              (allAppliedObjects r) (state r) (EvDone c :: trace r))
  | Some (Signalling (ch :: rest)) =>
      match gates r !! ch with
      | Some O =>
          Some (mkRun (<[c := Signalling rest]> (tasks r)) (<[ch := 1%nat]> (gates r))
                  (out r) (allAppliedObjects r) (state r) (EvSignal c ch :: trace r))
      | Some (S _) => None                        (* the buffer is full: the send blocks *)
      | None => None                              (* a send on a nil channel blocks *)
      end
  end.

(** A schedule names, step after step, the goroutine that moves. *)
Fixpoint runSchedule (manifests : gmap name.ComponentName string) (version : string)
    (opts : InstallOptions) (schedule : list name.ComponentName) (r : Run W)
    : option (Run W) :=
  match schedule with
  | [] => Some r
  | c :: rest =>
      match step manifests version opts c r with
      | None => None
      | Some r' => runSchedule manifests version opts rest r'
      end
  end.

(** [wg.Wait] returns once every goroutine has called [wg.Done]. *)
Definition allFinished (r : Run W) : Prop :=
  map_Forall (fun _ t => t = Finished) (tasks r).

(** [applyRecursive] under a schedule of its goroutines, in a process
    whose gates are [g]: [None] when the schedule cannot be followed or
    leaves [wg.Wait] blocked; otherwise the gates as the goroutines leave
    them to the process, and the outcome of the function. *)
Definition applyRecursive (manifests : gmap name.ComponentName string)
    (version : string) (opts : InstallOptions) (schedule : list name.ComponentName)
    (g : gmap name.ComponentName nat) (s : State W)
    : option (gmap name.ComponentName nat
              * Outcome W (gmap name.ComponentName ComponentApplyOutput * option error)) :=
  match runSchedule manifests version opts schedule (launchFrom g manifests s) with
  | None => None
  | Some r =>
      if bool_decide (allFinished r) then
        Some (gates r,
              if Wait opts then
                (err ← waitForResources (allAppliedObjects r) opts;
                 mret (out r, err)) (state r)
              else Ret (out r, None) (state r))
      else None
  end.

(** [ApplyAll] in a process whose gates are [g]: the map of outcomes is
    [None] for the nil map.  The log lines that list the components are
    left out. *)
Definition ApplyAll (manifests : gmap name.ComponentName string) (version : string)
    (opts : InstallOptions) (schedule : list name.ComponentName)
    (g : gmap name.ComponentName nat) (s : State W)
    : option (gmap name.ComponentName nat
              * Outcome W (option (gmap name.ComponentName ComponentApplyOutput)
                           * option error)) :=
  match initK8SRestClient (Kubeconfig opts) (Context_ opts) s with
  | Panic s' => Some (g, Panic s')
  | Ret (Some err) s' => Some (g, Ret (None, Some err) s')
  | Ret None s' =>
      match applyRecursive manifests version opts schedule g s' with
      | None => None
      | Some (g', Panic s'') => Some (g', Panic s'')
      | Some (g', Ret (o, err) s'') => Some (g', Ret (Some o, err) s'')
      end
  end.

End FanOut.

(** ** Scripted collaborators *)

(** A small closed world for running the installer on concrete inputs: the
    answers of the collaborators are read off a script, the world itself
    counts the calls of [sleep]. *)
Record Script := mkScript {
  scParse : string -> list K8sObject + error;
  scJSON : list K8sObject -> string + error;
  scUnmarshal : string -> gmap string YAML + error;
  scGetAll : string * string * option error;
  scDelete : string * string * option error;
  scApply : string -> string * string * option error;
  scCRD : string -> nat -> CustomResourceDefinition + error;
  scNamespace : string -> NamespaceObj + error;
  scDeployment : string -> string -> Deployment + error;
  scReplicaSets : Deployment -> option ReplicaSet * option error;
  scService : string -> string -> Service + error;
  scClientConfig : RestConfig + error;
  scAttempts : nat
}.

Definition scripted (sc : Script) : Collaborators nat := {|
  kubectl_GetAll := fun _ _ _ _ _ w => (scGetAll sc, w);
  kubectl_Delete := fun _ _ _ _ _ _ _ w => (scDelete sc, w);
  kubectl_Apply := fun _ _ _ _ _ manifest _ w => (scApply sc manifest, w);
  ParseK8sObjectsFromYAMLManifest := scParse sc;
  JSONManifest := scJSON sc;
  YAMLManifest := fun objects => (String.concat "," (map Name objects), None);
  yaml_Unmarshal := scUnmarshal sc;
  apiextensionsclient_NewForConfig := fun _ => None;
  kubernetes_NewForConfig := fun _ => None;
  GetCRD := fun crdName w => (scCRD sc crdName w, w);
  GetNamespace := fun n w => (scNamespace sc n, w);
  GetPod := fun _ _ w => (inr "not found", w);
  GetReplicationController := fun _ _ w => (inr "not found", w);
  ListPods := fun _ _ w => (([] : list Pod, None), w);
  GetDeployment := fun ns n w => (scDeployment sc ns n, w);
  GetAllReplicaSets := fun d w => (scReplicaSets sc d, w);
  GetDaemonSet := fun _ _ w => (inr "not found", w);
  GetStatefulSet := fun _ _ w => (inr "not found", w);
  GetReplicaSet := fun _ _ w => (inr "not found", w);
  GetService := fun ns n w => (scService sc ns n, w);
  os_Stat := fun _ w => (inl 1, w);
  clientcmd_ClientConfig := fun _ _ w => (scClientConfig sc, w);
  sleep := fun _ w => S w;
  pollAttempts := fun _ _ => scAttempts sc;
  Duration_String := fun _ => "1m0s"
|}.

(** The manifests of the examples, by the text that stands for them: the
    empty manifest, one ConfigMap, a Namespace with a ConfigMap, and the
    listing of one live object; any other text does not parse. *)
Definition aConfigMap : K8sObject := mkK8sObject "" "ConfigMap" "mesh" "istio-system" ∅.
Definition aNamespace : K8sObject := mkK8sObject "" "Namespace" "istio-system" "" ∅.
Definition aLiveObject : K8sObject :=
  mkK8sObject "" "ConfigMap" "stale" "istio-system"
    {[ istioComponentLabelStr := name.PilotComponentName ]}.

Definition parseExample (m : string) : list K8sObject + error :=
  if String.eqb m "" then inl []
  else if String.eqb m "cm" then inl [aConfigMap]
  else if String.eqb m "ns+cm" then inl [aNamespace; aConfigMap]
  else if String.eqb m "live" then inl [aLiveObject]
  else inr "error parsing manifest".

Definition emptyList : gmap string YAML :=
  {[ "kind" := YStr "List"; "items" := YSeq [] ]}.

Definition listOfOne : gmap string YAML :=
  {[ "kind" := YStr "List"; "items" := YSeq [YMap [("kind", YStr "ConfigMap")]] ]}.

(** A healthy cluster: nothing is live under any label, and every call of
    the executor succeeds. *)
Definition healthy : Script := {|
  scParse := parseExample;
  scJSON := fun objects => inl (String.concat "," (map Name objects));
  scUnmarshal := fun _ => inl emptyList;
  scGetAll := ("", "", None);
  scDelete := ("", "", None);
  scApply := fun _ => ("applied", "", None);
  scCRD := fun _ _ => inl (mkCRD [mkCRDCondition Established ConditionTrue ""]);
  scNamespace := fun n => inl (mkNamespaceObj n NamespaceActive);
  scDeployment := fun _ _ => inr "not found";
  scReplicaSets := fun _ => (None, None);
  scService := fun _ _ => inr "not found";
  scClientConfig := inl (mkRestConfig "cluster" "" "" "");
  scAttempts := 3
|}.

Definition defaultOptions : InstallOptions :=
  mkInstallOptions false false false (60 * Second) "" "".

Definition freshState : State nat := mkState 0%nat None [] [].

Definition connectedState : State nat :=
  mkState 0%nat (Some (mkRestConfig "cluster" "/api" "v1" "WithoutConversionCodecFactory"))
    [] [].


(** ** The vocabulary of the properties *)

(** Whether a string ends with a given suffix. *)
Fixpoint endsWith (suffix s : string) : bool :=
  String.eqb s suffix
  || match s with
     | EmptyString => false
     | String _ rest => endsWith suffix rest
     end.

(** The reading of the spec: only a ClusterIP-type service waits for its
    cluster IP, only a LoadBalancer-type service for its ingress. *)
Definition specServiceReady (s : Service) : bool :=
  if String.eqb (svcType s) ServiceTypeExternalName then true
  else if String.eqb (svcType s) ServiceTypeClusterIP && String.eqb (svcClusterIP s) ""
  then false
  else if String.eqb (svcType s) ServiceTypeLoadBalancer
          && bool_decide (svcIngress s = None)
  then false
  else true.

(** The spec's notion of an established CRD: its status carries an
    Established condition with value true. *)
Definition establishedIn (conds : list CRDCondition) : bool :=
  existsb (fun cond => String.eqb (condType cond) Established
                       && String.eqb (condStatus cond) ConditionTrue) conds.

(** The verdict of one poll, given the answers of the API to the reads of
    the CRDs, in the order of the names. *)
Fixpoint crdVerdict (answers : list (CustomResourceDefinition + error))
    : bool * option error :=
  match answers with
  | [] => (true, None)
  | inr errGet :: _ => (false, Some errGet)
  | inl crd :: rest => if establishedIn (crdConditions crd) then crdVerdict rest
                       else (false, None)
  end.

Section Answers.
Context {W : Type} `{!Collaborators W}.

(** The answers the API gives when it is asked for the CRDs one after the
    other, starting in world [w]. *)
Fixpoint answersOf (crdNames : list string) (w : W)
    : list (CustomResourceDefinition + error) :=
  match crdNames with
  | [] => []
  | crdName :: rest => let '(a, w') := GetCRD crdName w in a :: answersOf rest w'
  end.

End Answers.

(** The entries of the install tree: the base component, with the declared
    children below it, none of which has children of its own. *)
Definition declaredLeaves : componentTree :=
  map (fun c => (c, SubTree [])) (childrenOf componentDependencies name.IstioBaseComponentName).

(** The file a component is written to, below the directory of its level. *)
Definition target (dir : path) (c : name.ComponentName) : path :=
  Join (Join dir c) (c +:+ ".yaml").

(** The declaration has one parent, the base component. *)
Definition baseChildren : list name.ComponentName :=
  childrenOf componentDependencies name.IstioBaseComponentName.

(** The children a parent has signalled, read off the events, in the order
    of the signals. *)
Fixpoint signalsOf (p : name.ComponentName) (trace : list Event)
    : list name.ComponentName :=
  match trace with
  | [] => []
  | EvSignal p' ch :: earlier =>
      if decide (p' = p) then signalsOf p earlier ++ [ch] else signalsOf p earlier
  | _ :: earlier => signalsOf p earlier
  end.

(** Every apply begins after the apply of the parent has returned: at the
    moment the apply of a component begins, the end of the apply of each
    of its declared parents is among the earlier events. *)
Fixpoint beginsAfterParentEnd (trace : list Event) : Prop :=
  match trace with
  | [] => True
  | e :: earlier =>
      (forall c p, e = EvBegin c -> c ∈ childrenOf componentDependencies p ->
                   exists err, EvEnd p err ∈ earlier)
      /\ beginsAfterParentEnd earlier
  end.


(** Every component of the map that has a declared parent comes with that
    parent. *)
Definition parentsPresent (manifests : gmap name.ComponentName string) : Prop :=
  forall p c, c ∈ childrenOf componentDependencies p ->
              is_Some (manifests !! c) -> is_Some (manifests !! p).

(** The polls of the readiness waiter give up: [wait.Poll] gives up after
    a number of attempts when its time-out is not zero (with a time-out of
    zero it polls until its condition holds or fails), and the readiness
    waiter polls with the time-out of the options, except in a dry run,
    where it does not poll at all. *)
Definition pollsGiveUp (opts : InstallOptions) : Prop :=
  DryRun opts = true \/ WaitTimeout opts <> 0.

(** The steps a goroutine has before it: the receive, the apply, a signal
    for every child, and [wg.Done]. *)
Definition stepsLeft (c : name.ComponentName) (t : Task) : nat :=
  match t with
  | Waiting => length (childrenOf componentDependencies c) + 3
  | Applying => length (childrenOf componentDependencies c) + 2
  | Signalling rest => length rest + 1
  | Finished => 0
  end.

Definition stepsLeftOf {W} (r : Run W) : nat :=
  sum_list_with (fun ct => stepsLeft ct.1 ct.2) (map_to_list (tasks r)).

(** Whether a child has taken the signal off its gate, and whether the
    base component has put it there. *)
Definition received (t : gmap name.ComponentName Task) (ch : name.ComponentName) : nat :=
  match t !! ch with
  | Some Waiting | None => 0
  | Some _ => 1
  end.

Definition sentTo (t : gmap name.ComponentName Task) (ch : name.ComponentName) : nat :=
  match t !! name.IstioBaseComponentName with
  | Some (Signalling rest) => if decide (ch ∈ rest) then 0 else 1
  | Some Finished => 1
  | _ => 0
  end.

Definition applied (t : gmap name.ComponentName Task) (c : name.ComponentName) : Prop :=
  t !! c = Some Finished \/ exists rest, t !! c = Some (Signalling rest).

Section RunInvariant.
Context {W : Type} `{!Collaborators W}.
Variable manifests : gmap name.ComponentName string.
Variable version : string.
Variable opts : InstallOptions.

(** What holds in every state of a run. *)
Record Invariant (r : Run W) : Prop := mkInvariant {
  inv_dom : dom (tasks r) = dom manifests;
  inv_gates : forall c, gates r !! c = None <-> c ∉ baseChildren;
  inv_tokens : forall ch n, gates r !! ch = Some n ->
                            (n + received (tasks r) ch = sentTo (tasks r) ch)%nat;
  inv_signals : forall p,
      match tasks r !! p with
      | Some (Signalling rest) =>
          signalsOf p (trace r) ++ rest = childrenOf componentDependencies p
      | Some Finished => signalsOf p (trace r) = childrenOf componentDependencies p
      | _ => signalsOf p (trace r) = []
      end;
  inv_ended : forall c, applied (tasks r) c -> exists err, EvEnd c err ∈ trace r;
  inv_out : forall c, is_Some (out r !! c) <-> applied (tasks r) c;
  inv_order : beginsAfterParentEnd (trace r)
}.

(** The five ways in which a goroutine takes a step. *)
Inductive StepCase (c : name.ComponentName) (r : Run W) : Run W -> Prop :=
| CaseReceive n :
    tasks r !! c = Some Waiting -> gates r !! c = Some (S n) ->
    StepCase c r (mkRun (<[c := Applying]> (tasks r)) (<[c := n]> (gates r)) (out r)
                    (allAppliedObjects r) (state r) (EvBegin c :: trace r))
| CaseProceed :
    tasks r !! c = Some Waiting -> gates r !! c = None ->
    StepCase c r (mkRun (<[c := Applying]> (tasks r)) (gates r) (out r)
                    (allAppliedObjects r) (state r) (EvBegin c :: trace r))
| CaseApply applyOut appliedObjects s' :
    tasks r !! c = Some Applying ->
    applyManifest c (manifestOf manifests c) version opts (state r)
    = Ret (applyOut, appliedObjects) s' ->
    StepCase c r (mkRun (<[c := Signalling (childrenOf componentDependencies c)]> (tasks r))
                    (gates r) (<[c := applyOut]> (out r))
                    (allAppliedObjects r ++ appliedObjects) s'
                    (EvEnd c (Err applyOut) :: trace r))
| CaseSignal ch rest :
    tasks r !! c = Some (Signalling (ch :: rest)) -> gates r !! ch = Some 0%nat ->
    StepCase c r (mkRun (<[c := Signalling rest]> (tasks r)) (<[ch := 1%nat]> (gates r))
                    (out r) (allAppliedObjects r) (state r) (EvSignal c ch :: trace r))
| CaseDone :
    tasks r !! c = Some (Signalling []) ->
    StepCase c r (mkRun (<[c := Finished]> (tasks r)) (gates r) (out r)
                    (allAppliedObjects r) (state r) (EvDone c :: trace r)).

End RunInvariant.

(** A computation is steady when, started with the connection in place, it
    returns (it does not panic), leaves the connection in place, and
    returns a value with property [Q]. *)
Definition steady {W A} (config : RestConfig) (Q : A -> Prop) (m : M W A) : Prop :=
  forall s, k8sRESTConfig s = Some config ->
            exists a s', m s = Ret a s' /\ k8sRESTConfig s' = Some config /\ Q a.

Definition any {A} : A -> Prop := fun _ => True.

(** ** Sample inputs *)


(** A cluster whose API refuses to show its CRDs. *)
Definition unreadableCRDs : Script := {|
  scParse := scParse healthy;
  scJSON := scJSON healthy;
  scUnmarshal := scUnmarshal healthy;
  scGetAll := scGetAll healthy;
  scDelete := scDelete healthy;
  scApply := scApply healthy;
  scCRD := fun _ _ => inr "forbidden";
  scNamespace := scNamespace healthy;
  scDeployment := scDeployment healthy;
  scReplicaSets := scReplicaSets healthy;
  scService := scService healthy;
  scClientConfig := scClientConfig healthy;
  scAttempts := scAttempts healthy
|}.

(** A cluster with one stale object of the Pilot component whose listing
    does not parse into objects. *)
Definition garbledListing : Script := {|
  scParse := scParse healthy;
  scJSON := scJSON healthy;
  scUnmarshal := fun _ => inl listOfOne;
  scGetAll := ("garbled", "", None);
  scDelete := scDelete healthy;
  scApply := scApply healthy;
  scCRD := scCRD healthy;
  scNamespace := scNamespace healthy;
  scDeployment := scDeployment healthy;
  scReplicaSets := scReplicaSets healthy;
  scService := scService healthy;
  scClientConfig := scClientConfig healthy;
  scAttempts := scAttempts healthy
|}.

(** The same cluster with a listing that parses. *)
Definition staleObject : Script := {|
  scParse := scParse healthy;
  scJSON := scJSON healthy;
  scUnmarshal := fun _ => inl listOfOne;
  scGetAll := ("live", "", None);
  scDelete := ("configmap stale deleted", "", None);
  scApply := scApply healthy;
  scCRD := scCRD healthy;
  scNamespace := scNamespace healthy;
  scDeployment := scDeployment healthy;
  scReplicaSets := scReplicaSets healthy;
  scService := scService healthy;
  scClientConfig := scClientConfig healthy;
  scAttempts := scAttempts healthy
|}.

(** A cluster that refuses every apply. *)
Definition refusedApply : Script := {|
  scParse := scParse healthy;
  scJSON := scJSON healthy;
  scUnmarshal := scUnmarshal healthy;
  scGetAll := scGetAll healthy;
  scDelete := scDelete healthy;
  scApply := fun _ => ("", "error: the server refused the request", Some "exit status 1");
  scCRD := scCRD healthy;
  scNamespace := scNamespace healthy;
  scDeployment := scDeployment healthy;
  scReplicaSets := scReplicaSets healthy;
  scService := scService healthy;
  scClientConfig := scClientConfig healthy;
  scAttempts := scAttempts healthy
|}.

Definition emptyFS : FS := mkFS ∅ ∅.

Definition twoManifests : gmap name.ComponentName string :=
  {[ name.IstioBaseComponentName := "base-manifest";
     name.PilotComponentName := "pilot-manifest" ]}.

(** A run in which the apply of the base component is refused and the
    Pilot component is disabled: the base component signals its children
    all the same, and Pilot proceeds after it. *)
Definition baseAndPilot : gmap name.ComponentName string :=
  {[ name.IstioBaseComponentName := "cm"; name.PilotComponentName := "" ]}.

Definition baseThenPilot : list name.ComponentName :=
  [name.IstioBaseComponentName; name.IstioBaseComponentName]
  ++ repeat name.IstioBaseComponentName 16
  ++ [name.IstioBaseComponentName;
      name.PilotComponentName; name.PilotComponentName; name.PilotComponentName].

(** ** Further vocabulary: readiness *)

(** A pod counts as ready when its status carries a condition of type
    Ready with status True. *)
Definition hasReadyCondition (pod : Pod) : Prop :=
  Exists (fun condition => pcType condition = PodReady /\ pcStatus condition = ConditionTrue)
         (podConditions pod).

#[export] Instance hasReadyCondition_dec (pod : Pod) : Decision (hasReadyCondition pod).
Proof. unfold hasReadyCondition. apply _. Defined.

(** ** Further vocabulary: the kinds the readiness waiter looks at *)

(** The kinds listed in the [switch] of the readiness waiter. *)
Definition watchedKinds : list string :=
  ["Namespace"; "Pod"; "ReplicationController"; "Deployment";
   "DaemonSet"; "StatefulSet"; "ReplicaSet"; "Service"].

(** ** Further vocabulary: the invocations a computation issues *)

(** The state in which a computation ends, whether it returns or panics. *)
Definition stateOf {W A} (o : Outcome W A) : State W :=
  match o with
  | Ret _ s => s
  | Panic s => s
  end.

(** A computation issues only invocations with property [P]: whatever the
    state it starts in, the record of invocations grows by invocations that
    have the property, and what was on record stays. *)
Definition issues {W A} (P : Call -> Prop) (m : M W A) : Prop :=
  forall s, exists new, calls (stateOf (m s)) = new ++ calls s /\ Forall P new.

(** The invocations a component with objects may cause: applies with the
    options of the installation, in the namespace of the component, forced,
    and pruning by the label of the component unless the component is the
    base component; and reads of CRDs.  No listing and no delete. *)
Definition enabledCall (componentName : name.ComponentName) (opts : InstallOptions)
    (namespace : string) (c : Call) : Prop :=
  match c with
  | CallApply dryRun verbose kubeconfig context ns _ extraArgs =>
      dryRun = DryRun opts /\ verbose = Verbose opts
      /\ kubeconfig = Kubeconfig opts /\ context = Context_ opts
      /\ ns = namespace
      /\ extraArgs
         = if decide (componentName = name.IstioBaseComponentName)
           then ["--force"]
           else ["--force"; "--prune"; "--selector";
                 istioComponentLabelStr +:+ "=" +:+ componentName]
  | CallGetCRD _ => True
  | CallGetAll _ _ _ _ _ => False
  | CallDelete _ _ _ _ _ _ _ => False
  end.

(** The manifests that have been applied, read off the record of
    invocations, in the order of the applies. *)
Fixpoint appliesOf (l : list Call) : list string :=
  match l with
  | [] => []
  | CallApply _ _ _ _ _ manifest _ :: earlier => appliesOf earlier ++ [manifest]
  | _ :: earlier => appliesOf earlier
  end.

(** ** Further vocabulary: steps that run until one fails *)

Section Steps.
Context {W : Type} `{!Collaborators W}.

(** Steps of an apply, run in their order until one fails.  A step is a
    list of objects with the wait that follows their apply: the objects
    are serialized, the text is handed to the executor, and the wait is
    run.  The step fails when the objects cannot be serialized (nothing is
    handed to the executor then), when the executor refuses the text, or
    when the wait fails; the steps after a step that fails are not run.
    The result is the list of the texts handed to the executor, in the
    order of the applies, and the error of the step that failed. *)
Fixpoint applyUntilFailure (opts : InstallOptions) (namespace : string)
    (extraArgs : list string) (steps : list (list K8sObject * M W (option error)))
    : M W (list string * option error) :=
  match steps with
  | [] => mret ([], None)
  | (objects, waiter) :: later =>
      match JSONManifest objects with
      | inr e => mret ([], Some e)
      | inl m =>
          '(_, _, err) ← Apply (DryRun opts) (Verbose opts) (Kubeconfig opts)
                           (Context_ opts) namespace m extraArgs;
          match err with
          | Some e => mret ([m], Some e)
          | None =>
              err ← waiter;
              match err with
              | Some e => mret ([m], Some e)
              | None =>
                  '(issued, err) ← applyUntilFailure opts namespace extraArgs later;
                  mret (m :: issued, err)
              end
          end
      end
  end.

End Steps.

(** ** Further vocabulary: a later run in the same process *)

(** The base component has not come past the signal for [ch]. *)
Definition beforeSignal (ch : name.ComponentName) (t : option Task) : Prop :=
  match t with
  | Some Waiting | Some Applying => True
  | Some (Signalling rest) => ch ∈ rest
  | Some Finished | None => False
  end.

(** ** Further vocabulary: what rendering does to the file system *)

(** From [fs] to [fs'] directories have only been added, and a file that
    is not as it was is the file <c>/<c>.yaml of a component that has a
    manifest, and holds that manifest. *)
Definition rendered (manifests : gmap name.ComponentName string) (fs fs' : FS) : Prop :=
  dirs fs ⊆ dirs fs'
  /\ forall p, files fs' !! p = files fs !! p
               \/ exists dir c, p = dir ++ [c; c +:+ ".yaml"]
                                /\ manifestOf manifests c <> ""
                                /\ files fs' !! p = Some (manifestOf manifests c).

(** ** The printed install tree *)

(** [tree[k]], with [None] for an absent key. *)
Fixpoint treeLookup (k : name.ComponentName) (tree : componentTree) : option treeValue :=
  match tree with
  | [] => None
  | (k', v) :: rest => if String.eqb k' k then Some v else treeLookup k rest
  end.

(** [buildInstallTreeString] writes the line of the component to the
    string builder [sb] and goes on with the keys of the tree that the
    install tree holds for the component; the install tree (a variable of
    the package) is looked up at its top level.  The entries are visited in
    the order of the list.  [fuel] bounds the depth of the recursion;
    [None] is a recursion that has not come to its end within the bound. *)
Fixpoint buildInstallTreeString (fuel : nat) (installTree : componentTree)
    (componentName : name.ComponentName) (prefix : string) (sb : string)
    : option string :=
  match fuel with
  | O => None
  | S fuel' =>
      let sb := sb +:+ (prefix +:+ componentName +:+ nl) in
      match treeLookup componentName installTree with
      | Some (SubTree entries) =>
          foldl (fun acc kv =>
                   match acc with
                   | None => None
                   | Some sb =>
                       buildInstallTreeString fuel' installTree kv.1 (prefix +:+ "  ") sb
                   end)
                (Some sb) entries
      | _ => Some sb
      end
  end.

Definition installTreeString (fuel : nat) (installTree : componentTree) : option string :=
  buildInstallTreeString fuel installTree name.IstioBaseComponentName "" "".

(** ** Further vocabulary: group and kind *)

(** Whether a string is free of slashes. *)
Fixpoint noSlash (s : string) : bool :=
  match s with
  | EmptyString => true
  | String a rest => negb (Ascii.eqb a "/") && noSlash rest
  end.

(** ** Further sample inputs *)

(** The answers of a cluster with workloads: the reads of DaemonSets,
    StatefulSets and ReplicaSets, the listing of pods, and the look at the
    kubeconfig file; the other answers come from a script. *)
Record Workloads := mkWorkloads {
  wkWorkload : string -> string -> Workload + error;
  wkPods : string -> gmap string string -> list Pod * option error;
  wkStat : string -> Z + error
}.

Definition scriptedWith (sc : Script) (wk : Workloads) : Collaborators nat := {|
  kubectl_GetAll := fun _ _ _ _ _ w => (scGetAll sc, w);
  kubectl_Delete := fun _ _ _ _ _ _ _ w => (scDelete sc, w);
  kubectl_Apply := fun _ _ _ _ _ manifest _ w => (scApply sc manifest, w);
  ParseK8sObjectsFromYAMLManifest := scParse sc;
  JSONManifest := scJSON sc;
  YAMLManifest := fun objects => (String.concat "," (map Name objects), None);
  yaml_Unmarshal := scUnmarshal sc;
  apiextensionsclient_NewForConfig := fun _ => None;
  kubernetes_NewForConfig := fun _ => None;
  GetCRD := fun crdName w => (scCRD sc crdName w, w);
  GetNamespace := fun n w => (scNamespace sc n, w);
  GetPod := fun _ _ w => (inr "not found", w);
  GetReplicationController := fun _ _ w => (inr "not found", w);
  ListPods := fun ns selector w => (wkPods wk ns selector, w);
  GetDeployment := fun ns n w => (scDeployment sc ns n, w);
  GetAllReplicaSets := fun d w => (scReplicaSets sc d, w);
  GetDaemonSet := fun ns n w => (wkWorkload wk ns n, w);
  GetStatefulSet := fun ns n w => (wkWorkload wk ns n, w);
  GetReplicaSet := fun ns n w => (wkWorkload wk ns n, w);
  GetService := fun ns n w => (scService sc ns n, w);
  os_Stat := fun p w => (wkStat wk p, w);
  clientcmd_ClientConfig := fun _ _ w => (scClientConfig sc, w);
  sleep := fun _ w => S w;
  pollAttempts := fun _ _ => scAttempts sc;
  Duration_String := fun _ => "1m0s"
|}.

Definition aReadyPod : Pod :=
  mkPod "kube-system" "istio-cni-node-x7k2p" [mkPodCondition PodReady ConditionTrue].

Definition aPendingPod : Pod :=
  mkPod "kube-system" "istio-cni-node-9fq4z" [mkPodCondition "PodScheduled" ConditionTrue].

(** A daemon set with two pods, one of them not ready yet; no kubeconfig
    file. *)
Definition cniNodes : Workloads := {|
  wkWorkload := fun ns _ => inl (mkWorkload ns (Some {[ "k8s-app" := "istio-cni-node" ]}));
  wkPods := fun _ _ => ([aReadyPod; aPendingPod], None);
  wkStat := fun _ => inr "no such file or directory"
|}.

(** A live workload without a selector. *)
Definition withoutSelector : Workloads := {|
  wkWorkload := fun ns _ => inl (mkWorkload ns None);
  wkPods := wkPods cniNodes;
  wkStat := wkStat cniNodes
|}.

Definition aDaemonSet : K8sObject :=
  mkK8sObject "apps" "DaemonSet" "istio-cni-node" "kube-system" ∅.

Definition aCRD : K8sObject :=
  mkK8sObject "apiextensions.k8s.io" "CustomResourceDefinition"
    "gateways.networking.istio.io" "" ∅.

Definition aDeployment : K8sObject :=
  mkK8sObject "apps" "Deployment" "istio-pilot" "istio-system" ∅.

(** A cluster whose namespaces are being deleted. *)
Definition terminating : Script := {|
  scParse := scParse healthy;
  scJSON := scJSON healthy;
  scUnmarshal := scUnmarshal healthy;
  scGetAll := scGetAll healthy;
  scDelete := scDelete healthy;
  scApply := scApply healthy;
  scCRD := scCRD healthy;
  scNamespace := fun n => inl (mkNamespaceObj n "Terminating");
  scDeployment := scDeployment healthy;
  scReplicaSets := scReplicaSets healthy;
  scService := scService healthy;
  scClientConfig := scClientConfig healthy;
  scAttempts := scAttempts healthy
|}.

(** A cluster whose CRDs never get a condition. *)
Definition neverEstablished : Script := {|
  scParse := scParse healthy;
  scJSON := scJSON healthy;
  scUnmarshal := scUnmarshal healthy;
  scGetAll := scGetAll healthy;
  scDelete := scDelete healthy;
  scApply := scApply healthy;
  scCRD := fun _ _ => inl (mkCRD []);
  scNamespace := scNamespace healthy;
  scDeployment := scDeployment healthy;
  scReplicaSets := scReplicaSets healthy;
  scService := scService healthy;
  scClientConfig := scClientConfig healthy;
  scAttempts := scAttempts healthy
|}.

(** A cluster with a deployment whose new replica set does not exist
    yet. *)
Definition noReplicaSetYet : Script := {|
  scParse := scParse healthy;
  scJSON := scJSON healthy;
  scUnmarshal := scUnmarshal healthy;
  scGetAll := scGetAll healthy;
  scDelete := scDelete healthy;
  scApply := scApply healthy;
  scCRD := scCRD healthy;
  scNamespace := scNamespace healthy;
  scDeployment := fun ns n => inl (mkDeployment ns n (Some 1));
  scReplicaSets := fun _ => (None, None);
  scService := scService healthy;
  scClientConfig := scClientConfig healthy;
  scAttempts := scAttempts healthy
|}.

(** A process without any configuration of a cluster. *)
Definition unconfigured : Script := {|
  scParse := scParse healthy;
  scJSON := scJSON healthy;
  scUnmarshal := scUnmarshal healthy;
  scGetAll := scGetAll healthy;
  scDelete := scDelete healthy;
  scApply := scApply healthy;
  scCRD := scCRD healthy;
  scNamespace := scNamespace healthy;
  scDeployment := scDeployment healthy;
  scReplicaSets := scReplicaSets healthy;
  scService := scService healthy;
  scClientConfig := inr "invalid configuration: no configuration has been provided";
  scAttempts := scAttempts healthy
|}.

(** A map with the base component alone, and the schedule of its
    goroutine: the receive, the apply, sixteen signals, and the end. *)
Definition baseAlone : gmap name.ComponentName string :=
  {[ name.IstioBaseComponentName := "cm" ]}.

Definition baseToTheEnd : list name.ComponentName :=
  repeat name.IstioBaseComponentName 19.

(** A map without the base component. *)
Definition pilotAlone : gmap name.ComponentName string :=
  {[ name.PilotComponentName := "pilot-manifest" ]}.

(** A file system with a regular file where the directory of the base
    component is to be. *)
Definition fileInTheWay : FS :=
  mkFS ∅ {[ ["out"; name.IstioBaseComponentName] := "not a directory" ]}.

(** The run of the base component alone, at its end; and the next run in
    the same process, two steps on. *)
Definition afterBaseAlone : Run nat :=
  default (launch baseAlone connectedState)
    (@runSchedule nat (scripted healthy) baseAlone "1.4.0" defaultOptions baseToTheEnd
       (launch baseAlone connectedState)).

Definition intoTheNextRun : Run nat :=
  default (launch baseAlone connectedState)
    (@runSchedule nat (scripted healthy) baseAlone "1.4.0" defaultOptions
       [name.IstioBaseComponentName; name.IstioBaseComponentName]
       (launchFrom (gates afterBaseAlone) baseAlone connectedState)).

(** ** Further vocabulary: reads that fail, computations that return *)

Section FirstRead.
Context {W : Type} `{!Collaborators W}.

(** The first read that a poll makes for an object of a kind the waiter
    looks at fails in world [w] with error [e], and leaves world [w1]. *)
Definition firstReadFails (o : K8sObject) (w : W) (e : error) (w1 : W) : Prop :=
  (Kind o = "Namespace" /\ GetNamespace (Name o) w = (inr e, w1))
  \/ (Kind o = "Pod" /\ GetPod (Namespace o) (Name o) w = (inr e, w1))
  \/ (Kind o = "ReplicationController"
      /\ GetReplicationController (Namespace o) (Name o) w = (inr e, w1))
  \/ (Kind o = "Deployment" /\ GetDeployment (Namespace o) (Name o) w = (inr e, w1))
  \/ (Kind o = "DaemonSet" /\ GetDaemonSet (Namespace o) (Name o) w = (inr e, w1))
  \/ (Kind o = "StatefulSet" /\ GetStatefulSet (Namespace o) (Name o) w = (inr e, w1))
  \/ (Kind o = "ReplicaSet" /\ GetReplicaSet (Namespace o) (Name o) w = (inr e, w1))
  \/ (Kind o = "Service" /\ GetService (Namespace o) (Name o) w = (inr e, w1)).

End FirstRead.

(** A computation returns: it does not panic, whatever the state it starts
    in, connected or not. *)
Definition returns {W A} (m : M W A) : Prop :=
  forall s, exists a s', m s = Ret a s'.

Definition aPod : K8sObject := mkK8sObject "" "Pod" "istio-pilot-6c5f" "istio-system" ∅.

Definition dryRunOptions : InstallOptions :=
  mkInstallOptions true false false (60 * Second) "" "".

(* ===================================================================== *)
(** * Part II: properties *)
(* ===================================================================== *)

(** ** The object orderer *)

(** The priorities of the group/kind pairs the [switch] lists. *)
Lemma defaultObjectOrder_listed (n ns : string) (l : gmap string string) :
  defaultObjectOrder (mkK8sObject "apiextensions.k8s.io" "CustomResourceDefinition" n ns l) = -1000
  /\ defaultObjectOrder (mkK8sObject "" "ServiceAccount" n ns l) = 1
  /\ defaultObjectOrder (mkK8sObject "rbac.authorization.k8s.io" "ClusterRole" n ns l) = 1
  /\ defaultObjectOrder (mkK8sObject "rbac.authorization.k8s.io" "ClusterRoleBinding" n ns l) = 2
  /\ defaultObjectOrder (mkK8sObject "" "ConfigMap" n ns l) = 100
  /\ defaultObjectOrder (mkK8sObject "extensions" "Deployment" n ns l) = 1000
  /\ defaultObjectOrder (mkK8sObject "app" "Deployment" n ns l) = 1000
  /\ defaultObjectOrder (mkK8sObject "apps" "Deployment" n ns l) = 1000
  /\ defaultObjectOrder (mkK8sObject "autoscaling" "HorizontalPodAutoscaler" n ns l) = 1001
  /\ defaultObjectOrder (mkK8sObject "" "Service" n ns l) = 10000.
Proof. repeat split; reflexivity. Qed.

Lemma endsWith_append (g suffix : string) : endsWith suffix (g +:+ suffix) = true.
Proof.
  induction g as [|a g IH]; simpl.
  - destruct suffix; simpl; [done|]. by rewrite Ascii.eqb_refl, String.eqb_refl.
  - rewrite IH. apply orb_true_r.
Qed.

(** A Deployment is scored 1000 in every API group: in the two groups the
    [switch] lists, and by the default branch in all others. *)
Lemma defaultObjectOrder_Deployment (o : K8sObject) :
  Kind o = "Deployment" -> defaultObjectOrder o = 1000.
Proof.
  intros Hk. unfold defaultObjectOrder. rewrite Hk.
  pose proof (endsWith_append (Group o) "/Deployment") as Hends.
  change (Group o +:+ "/" +:+ "Deployment") with (Group o +:+ "/Deployment").
  repeat match goal with
         | |- context [String.eqb ?gk ?lit] =>
             destruct (String.eqb_spec gk lit) as [Heq|_];
             [ try (rewrite Heq in Hends; vm_compute in Hends; discriminate Hends) | ]
         end; reflexivity.
Qed.

(** C1 (the code departs from the claim): a Secret, which lives in the core
    API group, is scored 1000 like an unrecognised kind and not 100 like a
    ConfigMap, because the case label of the [switch] is spelled "/Secrets"
    while the kind of the object is "Secret"; only an object whose kind is
    the plural "Secrets" would be scored 100. *)
Theorem defaultObjectOrder_Secret (n ns : string) (l : gmap string string) :
  defaultObjectOrder (mkK8sObject "" "Secret" n ns l) = 1000
  /\ defaultObjectOrder (mkK8sObject "" "Secret" n ns l)
     <> defaultObjectOrder (mkK8sObject "" "ConfigMap" n ns l)
  /\ defaultObjectOrder (mkK8sObject "" "Secrets" n ns l) = 100.
Proof. repeat split; try reflexivity. intros H; discriminate H. Qed.

(** ** The readiness predicates *)

Lemma length_zero_nil {A} (l : list A) : bool_decide (length l = 0%nat) = true <-> l = [].
Proof.
  rewrite bool_decide_eq_true. destruct l; simpl; split; intros H; try done.
Qed.

Lemma flat_map_nil {A B} (f : A -> list B) (l : list A) :
  flat_map f l = [] <-> Forall (fun x => f x = []) l.
Proof.
  induction l as [|x l IH]; simpl.
  - split; intros; [constructor | reflexivity].
  - split.
    + intros H. apply app_eq_nil in H as [H1 H2]. constructor; [done | by apply IH].
    + intros H. inversion H; subst. rewrite (proj2 IH); [|done].
      by rewrite H2.
Qed.

(** What the service loop decides for one service, spelled out. *)
Lemma serviceNotReady_spec (s : Service) :
  serviceNotReady s = [] <->
  (svcType s = ServiceTypeExternalName
   \/ (svcClusterIP s <> ""
       /\ ~ (svcType s = ServiceTypeLoadBalancer /\ svcIngress s = None))).
Proof.
  unfold serviceNotReady.
  destruct (String.eqb_spec (svcType s) ServiceTypeExternalName) as [He|He].
  { split; auto. }
  destruct (String.eqb_spec (svcClusterIP s) "") as [Hip|Hip].
  - rewrite Hip. simpl. split; [discriminate|].
    intros [?|[? _]]; congruence.
  - rewrite andb_false_r.
    destruct (String.eqb_spec (svcType s) ServiceTypeLoadBalancer) as [Hlb|Hlb].
    + simpl. case_bool_decide as Hin.
      * split; [discriminate|]. intros [?|[_ Hn]]; [congruence|]. exfalso. by apply Hn.
      * split; [|done]. intros _. right. split; [done|]. intros [_ ?]. done.
    + simpl. split; [|done]. intros _. right. split; [done|]. intros [? _]. done.
Qed.


(** C5, as stated, fails: a NodePort-type service without a cluster IP is
    neither of the two not-ready cases of the claim, so the claim has it
    ready, and the waiter reports it not ready. *)
Lemma servicesReady_NodePort_without_ip :
  specServiceReady (mkService "istio-system" "web" ServiceTypeNodePort "" None) = true
  /\ servicesReady [mkService "istio-system" "web" ServiceTypeNodePort "" None]
     = (false, ["Service/istio-system/web"]).
Proof. split; reflexivity. Qed.

(** C5, amended: an ExternalName-type service is always ready; any other
    service is not ready when its cluster IP is the empty string, whatever
    its type, or when it is a LoadBalancer-type service whose ingress list
    is nil; every other service is ready.  The waiter reports readiness
    exactly when every service is ready, and lists the others by
    namespace and name. *)
Theorem servicesReady_spec (svc : list Service) :
  (fst (servicesReady svc) = true <->
   Forall (fun s => svcType s = ServiceTypeExternalName
                    \/ (svcClusterIP s <> ""
                        /\ ~ (svcType s = ServiceTypeLoadBalancer
                              /\ svcIngress s = None))) svc)
  /\ snd (servicesReady svc)
     = flat_map (fun s =>
                   if bool_decide (svcType s = ServiceTypeExternalName
                                   \/ (svcClusterIP s <> ""
                                       /\ ~ (svcType s = ServiceTypeLoadBalancer
                                             /\ svcIngress s = None)))
                   then []
                   else ["Service/" +:+ svcNamespace s +:+ "/" +:+ svcName s]) svc.
Proof.
  split.
  - unfold servicesReady. simpl. rewrite length_zero_nil, flat_map_nil.
    apply Forall_iff. intros s. apply serviceNotReady_spec.
  - unfold servicesReady. simpl. induction svc as [|s svc IH]; [done|].
    simpl. rewrite IH. f_equal.
    case_bool_decide as H.
    + by apply serviceNotReady_spec.
    + unfold serviceNotReady.
      destruct (String.eqb_spec (svcType s) ServiceTypeExternalName) as [He|He].
      { exfalso. apply H. by left. }
      destruct (String.eqb_spec (svcClusterIP s) "") as [Hip|Hip]; [by rewrite Hip|].
      rewrite andb_false_r.
      destruct (String.eqb_spec (svcType s) ServiceTypeLoadBalancer) as [Hlb|Hlb];
        simpl.
      * case_bool_decide as Hin; [done|]. exfalso. apply H. right. split; [done|].
        intros [_ ?]. done.
      * exfalso. apply H. right. split; [done|]. intros [? _]. done.
Qed.

(** The deployment loop panics exactly when it meets a deployment without a
    desired replica count. *)
Lemma deploymentsNotReady_None (ds : list deployment) :
  deploymentsNotReady ds = None <->
  Exists (fun v => depReplicas (deployment_ v) = None) ds.
Proof.
  induction ds as [|v ds IH]; simpl.
  - split; [discriminate | intros H; inversion H].
  - unfold deploymentNotReady.
    destruct (depReplicas (deployment_ v)) as [replicas|] eqn:Hr.
    + destruct (rsReadyReplicas (replicaSets v) <? replicas);
        (destruct (deploymentsNotReady ds) eqn:Hd;
         [ split; [discriminate|];
           intros H; inversion H; subst; [congruence|];
           match goal with H' : Exists _ ds |- _ => apply IH in H'; discriminate H' end
         | split; [intros _|done]; apply Exists_cons_tl; by apply IH ]).
    + split; [intros _|done]. by apply Exists_cons_hd.
Qed.

(** C10: the deployment check dereferences the desired replica count of
    every deployment it is given.  It returns a result exactly when every
    examined deployment has the count set, and panics as soon as one of
    them has none. *)
Theorem deploymentsReady_total_iff_replicas_set (ds : list deployment) :
  (is_Some (deploymentsReady ds) <->
   Forall (fun v => is_Some (depReplicas (deployment_ v))) ds)
  /\ (deploymentsReady ds = None <->
      Exists (fun v => depReplicas (deployment_ v) = None) ds).
Proof.
  assert (Hnone : deploymentsReady ds = None <->
                  Exists (fun v => depReplicas (deployment_ v) = None) ds).
  { rewrite <- deploymentsNotReady_None. unfold deploymentsReady.
    destruct (deploymentsNotReady ds); split; congruence. }
  split; [|exact Hnone].
  rewrite <- not_eq_None_Some, Hnone, <- Forall_Exists_neg.
  apply Forall_iff. intros v. rewrite <- not_eq_None_Some. done.
Qed.

(** ** Reasoning about the installer monad *)

Lemma bind_Ret {W A B} (m : M W A) (k : A -> M W B) (s s' : State W) (a : A) :
  m s = Ret a s' -> (m ≫= k) s = k a s'.
Proof. intros H. unfold mbind, M_bind, bind. by rewrite H. Qed.

Lemma bind_Panic {W A B} (m : M W A) (k : A -> M W B) (s s' : State W) :
  m s = Panic s' -> (m ≫= k) s = Panic s'.
Proof. intros H. unfold mbind, M_bind, bind. by rewrite H. Qed.

Ltac munfold :=
  unfold mbind, M_bind, mret, M_ret, bind, ret, ask, tell, record, log, logAndPrint,
    getRESTConfig, setRESTConfig, panic in *.

(** ** The deployment check inside the readiness waiter *)

Section DeploymentReadiness.
Context {W : Type} `{!Collaborators W}.


(** X17: as long as no new replica set can be resolved for a deployment,
    the poll ends without a verdict on the other objects: the resources
    are not ready yet, and the list of the resources that are not ready
    stays what it was. *)
Lemma deployment_without_new_replica_set
    (o : K8sObject) (d : Deployment) (rest : list K8sObject)
    (notReady : list string) (s : State W) (w1 w2 : W) :
  Kind o = "Deployment" ->
  GetDeployment (Namespace o) (Name o) (world s) = (inl d, w1) ->
  GetAllReplicaSets d w1 = ((None, None), w2) ->
  resourcesCondition (o :: rest) notReady s
  = Ret (false, None, notReady) (mkState w2 (k8sRESTConfig s) (calls s) (logs s)).
Proof.
  intros Hk Hd Hrs.
  unfold resourcesCondition. simpl. unfold gatherOne. rewrite Hk. simpl.
  munfold. rewrite Hd. simpl. by rewrite Hrs.
Qed.

(** The panic of the deployment check is the panic of the poll: a live
    deployment without a desired replica count, once its new replica set
    has been resolved, brings the waiter down. *)
Lemma resourcesCondition_panics_without_replicas
    (o : K8sObject) (d : Deployment) (rs : ReplicaSet)
    (notReady : list string) (s : State W) (w1 w2 : W) :
  Kind o = "Deployment" ->
  GetDeployment (Namespace o) (Name o) (world s) = (inl d, w1) ->
  GetAllReplicaSets d w1 = ((Some rs, None), w2) ->
  depReplicas d = None ->
  resourcesCondition [o] notReady s
  = Panic (mkState w2 (k8sRESTConfig s) (calls s) (logs s)).
Proof.
  intros Hk Hd Hrs Hr.
  unfold resourcesCondition, gatherAll, gatherOne. rewrite Hk. simpl.
  munfold. rewrite Hd. simpl. rewrite Hrs. simpl.
  unfold deploymentsReady, deploymentsNotReady, deploymentNotReady. simpl.
  by rewrite Hr.
Qed.

End DeploymentReadiness.



(** ** The CRD establishment waiter *)


Section CRDWaiter.
Context {W : Type} `{!Collaborators W}.


Lemma waitForCRDs_dry_run (objects : list K8sObject) (s : State W) :
  waitForCRDs objects true s
  = Ret None (mkState (world s) (k8sRESTConfig s) (calls s)
                (LogInfo "Not waiting for CRDs in dry run mode." [] :: logs s)).
Proof. reflexivity. Qed.

(** The scan of the conditions of one CRD: its verdict is [establishedIn],
    it talks to nobody, and it warns about every NamesAccepted condition
    with value false that it meets before an Established condition with
    value true. *)
Lemma scanConditions_spec (crdName : string) (conds : list CRDCondition) (s : State W) :
  exists s',
    scanConditions (W:=W) crdName conds s = Ret (establishedIn conds) s'
    /\ world s' = world s /\ k8sRESTConfig s' = k8sRESTConfig s
    /\ calls s' = calls s
    /\ (forall l, l ∈ logs s -> l ∈ logs s')
    /\ (forall pre cond post,
          conds = pre ++ cond :: post ->
          establishedIn pre = false ->
          condType cond = NamesAccepted ->
          condStatus cond = ConditionFalse ->
          LogWarn "name conflict: %v" [condReason cond] ∈ logs s').
Proof.
  revert s. induction conds as [|c conds IH]; intros s.
  - exists s. repeat split; try done. intros [|??] ?? Hc; discriminate Hc.
  - simpl.
    destruct (String.eqb (condType c) Established) eqn:Ht.
    + destruct (String.eqb (condStatus c) ConditionTrue) eqn:Hs; simpl.
      * eexists. munfold. simpl. repeat split; try done.
        { intros l Hl. simpl. by apply list_elem_of_further. }
        intros [|p pre] cond post Hc Hpre Hty Hst.
        -- simpl in Hc. injection Hc as -> _.
           rewrite Hty in Ht. discriminate Ht.
        -- simpl in Hc. injection Hc as -> _. simpl in Hpre.
           rewrite Ht, Hs in Hpre. discriminate Hpre.
      * destruct (IH s) as (s' & Hscan & Hw & Hcfg & Hcalls & Hmono & Hwarn).
        exists s'. repeat split; try done.
        intros [|p pre] cond post Hc Hpre Hty Hst.
        -- simpl in Hc. injection Hc as -> _.
           rewrite Hty in Ht. discriminate Ht.
        -- simpl in Hc. injection Hc as -> ->. simpl in Hpre.
           apply orb_false_iff in Hpre as [_ Hpre]. by eapply Hwarn.
    + simpl. destruct (String.eqb (condType c) NamesAccepted) eqn:Hn.
      * destruct (String.eqb (condStatus c) ConditionFalse) eqn:Hs.
        -- destruct (IH (mkState (world s) (k8sRESTConfig s) (calls s)
                           (LogWarn "name conflict: %v" [condReason c] :: logs s)))
             as (s' & Hscan & Hw & Hcfg & Hcalls & Hmono & Hwarn).
           exists s'. munfold. simpl. repeat split; try done.
           { intros l Hl. apply Hmono. simpl. by apply list_elem_of_further. }
           intros [|p pre] cond post Hc Hpre Hty Hst.
           ++ simpl in Hc. injection Hc as -> _. apply Hmono. simpl.
              apply list_elem_of_here.
           ++ simpl in Hc. injection Hc as -> ->. simpl in Hpre.
              apply orb_false_iff in Hpre as [_ Hpre]. by eapply Hwarn.
        -- destruct (IH s) as (s' & Hscan & Hw & Hcfg & Hcalls & Hmono & Hwarn).
           exists s'. munfold. simpl. repeat split; try done.
           intros [|p pre] cond post Hc Hpre Hty Hst.
           ++ simpl in Hc. injection Hc as -> _.
              apply String.eqb_eq in Hst. congruence.
           ++ simpl in Hc. injection Hc as -> ->. simpl in Hpre.
              apply orb_false_iff in Hpre as [_ Hpre]. by eapply Hwarn.
      * destruct (IH s) as (s' & Hscan & Hw & Hcfg & Hcalls & Hmono & Hwarn).
        exists s'. repeat split; try done.
        intros [|p pre] cond post Hc Hpre Hty Hst.
        -- simpl in Hc. injection Hc as -> _.
           rewrite Hty in Hn. discriminate Hn.
        -- simpl in Hc. injection Hc as -> ->. simpl in Hpre.
           apply orb_false_iff in Hpre as [_ Hpre]. by eapply Hwarn.
Qed.

(** One poll reads the CRDs in order and stops at the first that cannot be
    read or is not established: it reads each CRD at most once. *)
Lemma crdCondition_spec (crdNames : list string) (s : State W) :
  exists s' k,
    crdCondition crdNames s = Ret (crdVerdict (answersOf crdNames (world s))) s'
    /\ k8sRESTConfig s' = k8sRESTConfig s
    /\ (k <= length crdNames)%nat
    /\ calls s' = reverse (CallGetCRD <$> take k crdNames) ++ calls s.
Proof.
  revert s. induction crdNames as [|crdName rest IH]; intros s.
  - exists s, 0%nat. done.
  - simpl. munfold. simpl.
    destruct (GetCRD crdName (world s)) as [[crd|errGet] w'] eqn:Hget; simpl.
    + set (s1 := mkState w' (k8sRESTConfig s) (CallGetCRD crdName :: calls s) (logs s)).
      destruct (scanConditions_spec crdName (crdConditions crd) s1)
        as (s2 & Hscan & Hw & Hcfg & Hcalls & _).
      rewrite Hscan.
      destruct (establishedIn (crdConditions crd)).
      * destruct (IH s2) as (s3 & k & Hrest & Hcfg3 & Hk & Hcalls3).
        rewrite Hw in Hrest.
        exists s3, (S k). split; [done|]. split; [by rewrite Hcfg3, Hcfg|].
        split; [simpl; lia|].
        rewrite Hcalls3, Hcalls. simpl. rewrite reverse_cons, <- app_assoc. done.
      * exists (mkState (world s2) (k8sRESTConfig s2) (calls s2)
                  (LogInfo "missing status condition for %q" [crdName] :: logs s2)),
               1%nat.
        split; [reflexivity|]. simpl. split; [done|]. split; [lia|].
        by rewrite Hcalls.
    + eexists _, 1%nat. split; [reflexivity|]. simpl. split; [done|].
      split; [lia|done].
Qed.

(** An error of the condition ends the poll on the spot, with that very
    error: nothing is evaluated after it. *)
Lemma pollLoop_error {S : Type} (n : nat) (interval : Duration)
    (condition : S -> M W (bool * option error * S)) (acc acc' : S)
    (s s' : State W) (done : bool) (e : error) :
  condition acc (mkState (sleep interval (world s)) (k8sRESTConfig s) (calls s) (logs s))
  = Ret (done, Some e, acc') s' ->
  pollLoop (Datatypes.S n) interval condition acc s = Ret (Some e, acc') s'.
Proof. intros H. simpl. munfold. simpl. by rewrite H. Qed.

(** C4, amended: under dry-run the waiter returns success at once, without
    a poll; on each poll a CRD counts as established exactly when its
    status carries an Established condition with value true; a
    NamesAccepted condition with value false that is met before such an
    Established condition is logged as a warning, and no NamesAccepted
    condition changes the verdict; and an API error while reading a CRD
    ends the poll loop on the spot with that error, whatever attempts are
    left, and the waiter with the error that wraps it, no CRD having been
    read a second time. *)
Theorem waitForCRDs_spec :
  (* dry run *)
  (forall objects s,
     waitForCRDs objects true s
     = Ret None (mkState (world s) (k8sRESTConfig s) (calls s)
                   (LogInfo "Not waiting for CRDs in dry run mode." [] :: logs s)))
  (* the verdict on one CRD, and the warnings *)
  /\ (forall crdName conds s,
        exists s',
          scanConditions (W:=W) crdName conds s = Ret (establishedIn conds) s'
          /\ calls s' = calls s
          /\ (forall pre cond post,
                conds = pre ++ cond :: post ->
                establishedIn pre = false ->
                condType cond = NamesAccepted ->
                condStatus cond = ConditionFalse ->
                LogWarn "name conflict: %v" [condReason cond] ∈ logs s'))
  (* the verdict of one poll *)
  /\ (forall crdNames s,
        exists s',
          crdCondition crdNames s = Ret (crdVerdict (answersOf crdNames (world s))) s')
  (* an error of the condition ends the poll loop, whatever attempts are left *)
  /\ (forall (n : nat) crdNames s s' done errGet,
        crdCondition crdNames
          (mkState (sleep cRDPollInterval (world s)) (k8sRESTConfig s) (calls s) (logs s))
        = Ret (done, Some errGet) s' ->
        pollLoop (Datatypes.S n) cRDPollInterval
          (fun _ : unit => '(done, err) ← crdCondition crdNames; mret (done, err, tt)) tt s
        = Ret (Some errGet, tt) s')
  (* an API error ends the wait: no CRD is read a second time *)
  /\ (forall objects s config n errGet,
        k8sRESTConfig s = Some config ->
        apiextensionsclient_NewForConfig config = None ->
        pollAttempts cRDPollInterval cRDPollTimeout = Datatypes.S n ->
        crdVerdict (answersOf (map Name (cRDKindObjects objects))
                      (sleep cRDPollInterval (world s))) = (false, Some errGet) ->
        exists s' k,
          waitForCRDs objects false s
          = Ret (Some ("failed to verify CRD creation: " +:+ errGet)) s'
          /\ (k <= length (cRDKindObjects objects))%nat
          /\ calls s'
             = reverse (CallGetCRD <$> take k (map Name (cRDKindObjects objects)))
               ++ calls s).
Proof.
  split; [exact waitForCRDs_dry_run|].
  split.
  { intros crdName conds s.
    destruct (scanConditions_spec crdName conds s) as (s' & H1 & _ & _ & H2 & _ & H3).
    by exists s'. }
  split.
  { intros crdNames s. destruct (crdCondition_spec crdNames s) as (s' & k & H1 & _).
    by exists s'. }
  split.
  { intros n crdNames s s' done errGet Hcond.
    apply (pollLoop_error n cRDPollInterval _ tt tt s s' done errGet).
    munfold. by rewrite Hcond. }
  intros objects s config n errGet Hcfg Hcs Hn Hv.
  unfold waitForCRDs. munfold. simpl. rewrite Hcfg, Hcs. unfold Poll. rewrite Hn.
  set (s0 := mkState (world s) (Some config) (calls s)
               (LogInfo "Waiting for CRDs to be applied." [] :: logs s)).
  set (cond := fun _ : unit => _).
  destruct (crdCondition_spec (map Name (cRDKindObjects objects))
              (mkState (sleep cRDPollInterval (world s0)) (k8sRESTConfig s0)
                 (calls s0) (logs s0))) as (s1 & k & H1 & _ & Hk & Hcalls).
  simpl in H1. rewrite Hv in H1.
  rewrite (pollLoop_error n cRDPollInterval cond tt tt s0 s1 false errGet).
  - eexists _, k. split; [reflexivity|]. simpl. split; [|exact Hcalls].
    by rewrite length_map in Hk.
  - subst cond s0. simpl in *. munfold. by rewrite H1.
Qed.

(** A poll whose condition never holds and never fails uses up its
    attempts and ends with the timeout error. *)
Lemma pollLoop_timeout {S : Type} (n : nat) (interval : Duration)
    (condition : S -> M W (bool * option error * S)) (acc : S) (s : State W) :
  (forall acc s, exists acc' s', condition acc s = Ret (false, None, acc') s') ->
  exists acc' s', pollLoop n interval condition acc s = Ret (Some ErrWaitTimeout, acc') s'.
Proof.
  intros Hc. revert acc s. induction n as [|n IH]; intros acc s; simpl.
  - by eexists _, _.
  - munfold. simpl.
    destruct (Hc acc (mkState (sleep interval (world s)) (k8sRESTConfig s)
                        (calls s) (logs s))) as (acc1 & s1 & Hcond).
    rewrite Hcond. apply IH.
Qed.

(** X19: when, however long the waiter looks, some CRD is not established,
    the waiter does not return success: it returns the timeout error. *)
Lemma waitForCRDs_timeout (objects : list K8sObject) (s : State W) (config : RestConfig) :
  k8sRESTConfig s = Some config ->
  apiextensionsclient_NewForConfig config = None ->
  (forall w, crdVerdict (answersOf (map Name (cRDKindObjects objects)) w) = (false, None)) ->
  exists s',
    waitForCRDs objects false s
    = Ret (Some ("failed to verify CRD creation: " +:+ ErrWaitTimeout)) s'.
Proof.
  intros Hcfg Hcs Hnever.
  unfold waitForCRDs. munfold. simpl. rewrite Hcfg, Hcs. unfold Poll.
  set (s0 := mkState (world s) (Some config) (calls s)
               (LogInfo "Waiting for CRDs to be applied." [] :: logs s)).
  set (cond := fun _ : unit => _).
  destruct (pollLoop_timeout (pollAttempts cRDPollInterval cRDPollTimeout)
              cRDPollInterval cond tt s0) as (acc' & s1 & Hpoll).
  - intros acc s2. subst cond. munfold.
    destruct (crdCondition_spec (map Name (cRDKindObjects objects)) s2)
      as (s3 & k & H1 & _).
    rewrite H1, Hnever. by eexists _, _.
  - rewrite Hpoll. eexists. reflexivity.
Qed.

End CRDWaiter.

(** C4, as stated, fails: a NamesAccepted condition with value false that
    stands after an Established condition with value true is never looked
    at, so no warning is logged for it. *)
Lemma name_conflict_after_established_not_logged :
  scanConditions (W:=nat) "gateways.networking.istio.io"
    [mkCRDCondition Established ConditionTrue "InitialNamesAccepted";
     mkCRDCondition NamesAccepted ConditionFalse "ListKindConflict"] connectedState
  = Ret true
      (mkState 0%nat (k8sRESTConfig connectedState) []
         [LogInfo "established CRD %q" ["gateways.networking.istio.io"]])
  /\ LogWarn "name conflict: %v" ["ListKindConflict"]
     ∉ [LogInfo "established CRD %q" ["gateways.networking.istio.io"]].
Proof.
  split; [reflexivity|]. intros H. apply list_elem_of_singleton in H. discriminate H.
Qed.


Lemma waitForCRDs_unreadable :
  exists s' k,
    @waitForCRDs nat (scripted unreadableCRDs)
      [mkK8sObject "apiextensions.k8s.io" "CustomResourceDefinition"
         "gateways.networking.istio.io" "" ∅] false connectedState
    = Ret (Some "failed to verify CRD creation: forbidden") s'
    /\ (k <= 1)%nat
    /\ calls s' = reverse (CallGetCRD <$> take k ["gateways.networking.istio.io"]) ++ [].
Proof.
  apply (proj2 (proj2 (proj2 (proj2 (@waitForCRDs_spec nat (scripted unreadableCRDs)))))
           [mkK8sObject "apiextensions.k8s.io" "CustomResourceDefinition"
              "gateways.networking.istio.io" "" ∅]
           connectedState
           (mkRestConfig "cluster" "/api" "v1" "WithoutConversionCodecFactory")
           2%nat "forbidden"); reflexivity.
Defined.

(** ** The component apply engine: a disabled component *)

Section Pruning.
Context {W : Type} `{!Collaborators W}.

(** C6, amended: for a component whose parsed object set is empty, the
    apply lists the live objects by the component's label.  When the
    listing has no item, the apply returns a success outcome with empty
    stdout and stderr and no applied object, after the one listing call.
    When the listing has an item and parses into objects, the apply
    issues exactly one delete invocation, scoped to the component's label
    selector.  An error of the listing, of reading its items, of parsing
    it or of the delete is recorded in the error field of the outcome. *)
Theorem applyManifest_disabled
    (componentName : name.ComponentName) (manifestStr version : string)
    (opts : InstallOptions) (s : State W)
    (stdoutGet stderrGet : string) (errGet : option error) (w1 : W) :
  let label := istioComponentLabelStr +:+ "=" +:+ componentName in
  let getCall := CallGetAll (Kubeconfig opts) (Context_ opts) "" "yaml"
                   ["--all-namespaces"; "--selector"; label] in
  let listed := mkState w1 (k8sRESTConfig s) (getCall :: calls s) (logs s) in
  ParseK8sObjectsFromYAMLManifest manifestStr = inl [] ->
  kubectl_GetAll (Kubeconfig opts) (Context_ opts) "" "yaml"
    ["--all-namespaces"; "--selector"; label] (world s)
  = ((stdoutGet, stderrGet, errGet), w1) ->
  (* the listing fails *)
  (forall e, errGet = Some e ->
     applyManifest componentName manifestStr version opts s
     = Ret (buildComponentApplyOutput (nl +:+ stdoutGet) (nl +:+ stderrGet) [] (Some e),
            []) listed)
  (* the items of the listing cannot be read *)
  /\ (forall e, errGet = None -> GetKubectlGetItems stdoutGet = inr e ->
        applyManifest componentName manifestStr version opts s
        = Ret (buildComponentApplyOutput "" "" [] (Some e), []) listed)
  (* nothing is live *)
  /\ (errGet = None -> GetKubectlGetItems stdoutGet = inl [] ->
        applyManifest componentName manifestStr version opts s
        = Ret (buildComponentApplyOutput "" "" [] None, []) listed)
  (* something is live *)
  /\ (forall items, errGet = None -> GetKubectlGetItems stdoutGet = inl items ->
        items <> [] ->
        (forall e, ParseK8sObjectsFromYAMLManifest stdoutGet = inr e ->
           exists s',
             applyManifest componentName manifestStr version opts s
             = Ret (buildComponentApplyOutput "" "" [] (Some e), []) s'
             /\ calls s' = getCall :: calls s)
        /\ (forall delObjects stdoutDel stderrDel errDel w2,
              ParseK8sObjectsFromYAMLManifest stdoutGet = inl delObjects ->
              kubectl_Delete (DryRun opts) (Verbose opts) (Kubeconfig opts)
                (Context_ opts) "" stdoutGet ["--selector"; label] w1
              = ((stdoutDel, stderrDel, errDel), w2) ->
              let applied := match errDel with Some _ => [] | None => delObjects end in
              exists s',
                applyManifest componentName manifestStr version opts s
                = Ret (buildComponentApplyOutput (nl +:+ stdoutDel) (nl +:+ stderrDel)
                         applied errDel, applied) s'
                /\ world s' = w2
                /\ calls s'
                   = CallDelete (DryRun opts) (Verbose opts) (Kubeconfig opts)
                       (Context_ opts) "" stdoutGet ["--selector"; label]
                     :: getCall :: calls s)).
Proof.
  intros label getCall listed Hparse Hget.
  unfold applyManifest. rewrite Hparse. simpl.
  unfold GetAll. munfold. simpl. fold label. rewrite Hget. simpl.
  split; [|split; [|split]].
  - intros e ->. reflexivity.
  - intros e -> Hitems. rewrite Hitems. reflexivity.
  - intros -> Hitems. rewrite Hitems. reflexivity.
  - intros items -> Hitems Hne. rewrite Hitems.
    destruct items as [|i items]; [done|]. simpl. split.
    + intros e Hp. rewrite Hp. eexists. split; reflexivity.
    + intros delObjects stdoutDel stderrDel errDel w2 Hp Hdel.
      rewrite Hp. unfold Delete. munfold. simpl. rewrite Hdel. simpl.
      destruct errDel as [e|]; simpl; eexists; repeat split; reflexivity.
Qed.

End Pruning.



(** C6, as stated, fails: the listing finds one live object, its text does
    not parse into objects, and the apply returns without a delete
    invocation (the listing is the only call of the executor). *)
Lemma applyManifest_disabled_garbled_listing :
  @GetKubectlGetItems nat (scripted garbledListing) "garbled"
  = inl [YMap [("kind", YStr "ConfigMap")]]
  /\ @applyManifest nat (scripted garbledListing) name.PilotComponentName ""
       "1.4.0" defaultOptions connectedState
     = Ret (mkComponentApplyOutput "" "" (Some "error parsing manifest") "", [])
         (mkState 0%nat (k8sRESTConfig connectedState)
            [CallGetAll "" "" "" "yaml"
               ["--all-namespaces"; "--selector"; "operator.istio.io/component=Pilot"]]
            [LogInfo "- Pruning objects for disabled component %s..." ["Pilot"]]).
Proof. split; reflexivity. Qed.

Lemma applyManifest_disabled_stale_object :
  exists s',
    @applyManifest nat (scripted staleObject) name.PilotComponentName ""
      "1.4.0" defaultOptions connectedState
    = Ret (@buildComponentApplyOutput nat (scripted staleObject)
             (nl +:+ "configmap stale deleted") (nl +:+ "") [aLiveObject] None,
           [aLiveObject]) s'
    /\ world s' = 0%nat
    /\ calls s'
       = [CallDelete false false "" "" "" "live"
            ["--selector"; "operator.istio.io/component=Pilot"];
          CallGetAll "" "" "" "yaml"
            ["--all-namespaces"; "--selector"; "operator.istio.io/component=Pilot"]].
Proof.
  destruct (@applyManifest_disabled nat (scripted staleObject) name.PilotComponentName
              "" "1.4.0" defaultOptions connectedState "live" "" None 0%nat
              eq_refl eq_refl) as (_ & _ & _ & Hlive).
  destruct (Hlive [YMap [("kind", YStr "ConfigMap")]] eq_refl eq_refl
              ltac:(discriminate)) as [_ Hdelete].
  exact (Hdelete [aLiveObject] "configmap stale deleted" "" None 0%nat eq_refl eq_refl).
Defined.

(** ** The component apply engine: a failing step *)


Section FailingRemainder.
Context {W : Type} `{!Collaborators W}.

(** For a component without namespaces and CRDs, a failed apply of the
    remainder returns all the objects of the component as applied, next to
    the error. *)
Lemma applyManifest_remainder_error
    (componentName : name.ComponentName) (manifestStr version : string)
    (opts : InstallOptions) (s : State W) (objects : list K8sObject)
    (m stdoutApply stderrApply : string) (e : error) (w1 : W) :
  let labelled := Sort defaultObjectOrder (map (stamp componentName version) objects) in
  let extraArgs :=
    if bool_decide (componentName <> name.IstioBaseComponentName)
    then ["--force"; "--prune"; "--selector";
          istioComponentLabelStr +:+ "=" +:+ componentName]
    else ["--force"] in
  ParseK8sObjectsFromYAMLManifest manifestStr = inl objects ->
  objects <> [] ->
  nsKindObjects labelled = [] ->
  cRDKindObjects labelled = [] ->
  JSONManifest (objectsNotInLists labelled [[]; []]) = inl m ->
  kubectl_Apply (DryRun opts) (Verbose opts) (Kubeconfig opts) (Context_ opts)
    (lastNamespace (map (stamp componentName version) objects)) m extraArgs (world s)
  = ((stdoutApply, stderrApply, Some e), w1) ->
  exists s',
    applyManifest componentName manifestStr version opts s
    = Ret (buildComponentApplyOutput (nl +:+ stdoutApply) (nl +:+ stderrApply)
             (objectsNotInLists labelled [[]; []]) (Some e),
           objectsNotInLists labelled [[]; []]) s'.
Proof.
  intros labelled extraArgs Hparse Hne Hns Hcrd Hjson Happly.
  unfold applyManifest. rewrite Hparse.
  destruct objects as [|o objects]; [done|].
  rewrite bool_decide_eq_false_2 by done.
  fold labelled. rewrite Hns, Hcrd. cbn [length Nat.ltb Nat.leb].
  munfold. cbn [app]. rewrite Hjson.
  unfold Apply. munfold. cbn [world]. fold extraArgs.
  change (["--force"] ++ ["--prune"; "--selector";
                          istioComponentLabelStr +:+ "=" +:+ componentName])
    with ["--force"; "--prune"; "--selector";
          istioComponentLabelStr +:+ "=" +:+ componentName].
  fold extraArgs. rewrite Happly. eexists. reflexivity.
Qed.

End FailingRemainder.

(** When the apply of the namespaces fails, no later step runs and no
    object counts as applied. *)
Lemma applyManifest_refused_namespace_apply :
  @applyManifest nat (scripted refusedApply) name.PilotComponentName "ns+cm"
    "1.4.0" defaultOptions connectedState
  = Ret (mkComponentApplyOutput nl (nl +:+ "error: the server refused the request")
           (Some "exit status 1") "", [])
      (mkState 0%nat (k8sRESTConfig connectedState)
         [CallApply false false "" "" "istio-system" "istio-system"
            ["--force"; "--prune"; "--selector"; "operator.istio.io/component=Pilot"]]
         [LogInfo "- Applying manifest for component %s..." ["Pilot"]]).
Proof. vm_compute. reflexivity. Qed.

(** C8 (the code departs from the claim): when the apply of the remainder
    fails, the error is recorded in the outcome, yet the objects of the
    failed step are returned as applied (and their manifest is reported as
    the manifest that was applied): the step appends them before it looks
    at the error, unlike the namespace step, the CRD step and the pruning
    of a disabled component. *)
Theorem applyManifest_refused_remainder_apply :
  @applyManifest nat (scripted refusedApply) name.PilotComponentName "cm"
    "1.4.0" defaultOptions connectedState
  = Ret (mkComponentApplyOutput nl (nl +:+ "error: the server refused the request")
           (Some "exit status 1") "mesh",
         [stamp name.PilotComponentName "1.4.0" aConfigMap])
      (mkState 0%nat (k8sRESTConfig connectedState)
         [CallApply false false "" "" "istio-system" "mesh"
            ["--force"; "--prune"; "--selector"; "operator.istio.io/component=Pilot"]]
         [LogInfo "%s Finished applying manifest for component %s." ["✘"; "Pilot"];
          LogInfo "- Applying manifest for component %s..." ["Pilot"]]).
Proof. vm_compute. reflexivity. Qed.

(** ** Rendering to a directory *)



Lemma installTree_shape :
  installTree = [(name.IstioBaseComponentName, SubTree declaredLeaves)].
Proof. reflexivity. Qed.

(** The tree does not depend on the bound of the recursion that builds it. *)
Lemma installTree_fuel (n : nat) :
  insertChildrenRecursive (3 + n) name.IstioBaseComponentName [] componentDependencies
  = installTree.
Proof. reflexivity. Qed.

Lemma renderRecursive_nil manifests outputDir dryRun verbose fs :
  renderRecursive manifests [] outputDir dryRun verbose fs = (None, fs).
Proof. reflexivity. Qed.

Lemma renderRecursive_cons manifests k v rest outputDir dryRun verbose fs :
  renderRecursive manifests ((k, v) :: rest) outputDir dryRun verbose fs
  = if String.eqb (manifestOf manifests k) ""
    then renderRecursive manifests rest outputDir dryRun verbose fs
    else
      match (if negb dryRun then MkdirAll (Join outputDir k) fs else (None, fs)) with
      | (Some err, fs1) =>
          (Some ("could not create directory " +:+ pathString outputDir
                   +:+ "; " +:+ err), fs1)
      | (None, fs1) =>
          match (if negb dryRun
                 then WriteFile (Join (Join outputDir k) (k +:+ ".yaml"))
                        (manifestOf manifests k) fs1
                 else (None, fs1)) with
          | (Some err, fs2) => (Some ("could not write manifest config; " +:+ err), fs2)
          | (None, fs2) =>
              match v with
              | NotATree => (None, fs2)
              | SubTree kt =>
                  match renderRecursive manifests kt (Join outputDir k) dryRun verbose fs2
                  with
                  | (Some err, fs3) => (Some err, fs3)
                  | (None, fs3) =>
                      renderRecursive manifests rest outputDir dryRun verbose fs3
                  end
              end
          end
      end.
Proof.
  unfold renderRecursive. simpl.
  destruct (String.eqb (manifestOf manifests k) ""); [reflexivity|].
  destruct (if negb dryRun then MkdirAll (Join outputDir k) fs else (None, fs))
    as [[e1|] fs1]; [reflexivity|].
  destruct (if negb dryRun
            then WriteFile (Join (Join outputDir k) (k +:+ ".yaml"))
                   (manifestOf manifests k) fs1
            else (None, fs1)) as [[e2|] fs2]; [reflexivity|].
  destruct v; reflexivity.
Qed.

#[local] Arguments renderRecursive : simpl never.

Lemma MkdirAll_ok p fs fs' :
  MkdirAll p fs = (None, fs') -> files fs' = files fs /\ p ∈ dirs fs' /\ dirs fs ⊆ dirs fs'.
Proof.
  unfold MkdirAll. case_bool_decide; [discriminate|].
  intros [= <-]. simpl. split; [done|]. split; [|set_solver].
  apply elem_of_union_r, elem_of_list_to_set.
  destruct p; simpl; [set_solver|].
  apply elem_of_app. left. apply list_elem_of_fmap_2.
  clear. induction p as [|x p IH]; simpl; [set_solver|].
  apply elem_of_app. left. by apply list_elem_of_fmap_2.
Qed.

Lemma WriteFile_ok p data fs fs' :
  WriteFile p data fs = (None, fs') ->
  files fs' = <[p := data]> (files fs) /\ dirs fs' = dirs fs.
Proof.
  unfold WriteFile. repeat case_bool_decide; try discriminate.
  intros [= <-]. done.
Qed.


Lemma target_inj dir c c' : target dir c = target dir c' -> c = c'.
Proof.
  unfold target, Join. rewrite <- !app_assoc. intros H.
  apply app_inv_head in H. simpl in H. by injection H.
Qed.

(** A dry run leaves the file system alone, on every level without
    children below it. *)
Lemma renderRecursive_dry_leaves manifests leaves outputDir verbose fs :
  Forall (fun kv => kv.2 = SubTree []) leaves ->
  renderRecursive manifests leaves outputDir true verbose fs = (None, fs).
Proof.
  induction 1 as [|[k v] leaves Hv _ IH]; [reflexivity|].
  simpl in Hv. subst v. rewrite renderRecursive_cons. simpl.
  rewrite ?renderRecursive_nil.
  destruct (String.eqb (manifestOf manifests k) ""); exact IH.
Qed.

(** A real run over a level without children below it writes the manifest
    of every component that has one, and touches no other file. *)
Lemma renderRecursive_leaves manifests leaves outputDir verbose fs fs' :
  Forall (fun kv => kv.2 = SubTree []) leaves ->
  renderRecursive manifests leaves outputDir false verbose fs = (None, fs') ->
  (forall c, c ∈ leaves.*1 -> manifestOf manifests c <> "" ->
     files fs' !! target outputDir c = Some (manifestOf manifests c)
     /\ Join outputDir c ∈ dirs fs')
  /\ (forall p, (forall c, c ∈ leaves.*1 -> p <> target outputDir c) ->
        files fs' !! p = files fs !! p)
  /\ dirs fs ⊆ dirs fs'.
Proof.
  intros Hleaves. revert fs.
  induction Hleaves as [|[k v] leaves Hv _ IH]; intros fs.
  { rewrite renderRecursive_nil. intros [= <-]. split; [|done].
    intros c Hc. by apply elem_of_nil in Hc. }
  simpl in Hv. subst v. rewrite renderRecursive_cons. simpl.
  destruct (String.eqb_spec (manifestOf manifests k) "") as [Hempty|Hfull].
  { intros Hrest. destruct (IH _ Hrest) as (HA & HB & HD). split; [|split; [|done]].
    - intros c Hc Hne. apply elem_of_cons in Hc as [->|Hc]; [done|]. by apply HA.
    - intros p Hp. apply HB. intros c Hc. apply Hp. by apply list_elem_of_further. }
  destruct (MkdirAll (Join outputDir k) fs) as [[e1|] fs1] eqn:Hmk; [discriminate|].
  destruct (WriteFile (Join (Join outputDir k) (k +:+ ".yaml"))
              (manifestOf manifests k) fs1) as [[e2|] fs2] eqn:Hwr; [discriminate|].
  rewrite ?renderRecursive_nil. intros Hrest.
  apply MkdirAll_ok in Hmk as (Hf1 & Hd1 & Hs1).
  apply WriteFile_ok in Hwr as (Hf2 & Hd2).
  destruct (IH _ Hrest) as (HA & HB & HD).
  split; [|split].
  - intros c Hc Hne. apply elem_of_cons in Hc as [->|Hc]; [|by apply HA].
    destruct (decide (k ∈ leaves.*1)) as [Hin|Hnotin]; [by apply HA|].
    split.
    + rewrite HB.
      * rewrite Hf2. apply lookup_insert_eq.
      * intros c Hc Heq. apply target_inj in Heq. by subst c.
    + apply HD. by rewrite Hd2.
  - intros p Hp. rewrite HB.
    + rewrite Hf2, lookup_insert_ne, Hf1; [done|].
      intros Heq. eapply Hp; [apply list_elem_of_here|]. by rewrite <- Heq.
    + intros c Hc. apply Hp. by apply list_elem_of_further.
  - rewrite <- HD, Hd2. done.
Qed.

(** C3, amended: whatever the order in which the walk visits the children
    of the base component, a dry run creates no directory and no file; and
    a real run in which no directory creation and no file write fails
    writes the manifest of the base component, when it is not empty, to
    outputDir/Base/Base.yaml, and then the manifest of every child
    component that has a non-empty one to outputDir/Base/<child>/<child>.yaml,
    below the directory of the base component, creating the directories. *)
Theorem renderRecursive_install_tree
    (manifests : gmap name.ComponentName string) (outputDir : path) (verbose : bool)
    (fs : FS) (leaves : componentTree) :
  Permutation leaves declaredLeaves ->
  let base := name.IstioBaseComponentName in
  let tree := [(base, SubTree leaves)] in
  renderRecursive manifests tree outputDir true verbose fs = (None, fs)
  /\ (forall fs',
        renderRecursive manifests tree outputDir false verbose fs = (None, fs') ->
        manifestOf manifests base <> "" ->
        files fs' !! (outputDir ++ [base; base +:+ ".yaml"])
        = Some (manifestOf manifests base)
        /\ outputDir ++ [base] ∈ dirs fs'
        /\ (forall c,
              c ∈ childrenOf componentDependencies base ->
              manifestOf manifests c <> "" ->
              files fs' !! (outputDir ++ [base; c; c +:+ ".yaml"])
              = Some (manifestOf manifests c)
              /\ outputDir ++ [base; c] ∈ dirs fs')).
Proof.
  intros Hperm base tree.
  assert (Hleaves : Forall (fun kv => kv.2 = SubTree []) leaves).
  { rewrite Hperm. unfold declaredLeaves. apply Forall_fmap, Forall_true. done. }
  assert (Hkeys : forall c, c ∈ childrenOf componentDependencies base <-> c ∈ leaves.*1).
  { intros c. rewrite Hperm.
    by replace (declaredLeaves.*1) with (childrenOf componentDependencies base). }
  split.
  - unfold tree. rewrite renderRecursive_cons. simpl.
    rewrite (renderRecursive_dry_leaves manifests leaves) by done.
    rewrite ?renderRecursive_nil. by case_match.
  - intros fs'. unfold tree. rewrite renderRecursive_cons. cbn [negb].
    destruct (String.eqb_spec (manifestOf manifests base) "") as [Hempty|_]; [done|].
    destruct (MkdirAll (Join outputDir base) fs) as [[e1|] fs1] eqn:Hmk; [discriminate|].
    destruct (WriteFile (Join (Join outputDir base) (base +:+ ".yaml"))
                (manifestOf manifests base) fs1) as [[e2|] fs2] eqn:Hwr; [discriminate|].
    destruct (renderRecursive manifests leaves (Join outputDir base) false verbose fs2)
      as [[e3|] fs3] eqn:Hin; [discriminate|].
    rewrite ?renderRecursive_nil. intros [= <-] _.
    apply MkdirAll_ok in Hmk as (Hf1 & Hd1 & Hs1).
    apply WriteFile_ok in Hwr as (Hf2 & Hd2).
    destruct (renderRecursive_leaves _ _ _ _ _ _ Hleaves Hin) as (HA & HB & HD).
    split; [|split].
    + rewrite HB.
      * rewrite Hf2. unfold Join. rewrite <- app_assoc. simpl. apply lookup_insert_eq.
      * intros c _ Heq. apply (f_equal length) in Heq.
        unfold target, Join in Heq. rewrite !length_app in Heq. simpl in Heq. lia.
    + apply HD. rewrite Hd2. exact Hd1.
    + intros c Hc Hne. apply Hkeys in Hc. destruct (HA c Hc Hne) as [Hfile Hdir].
      split.
      * rewrite <- Hfile. f_equal. unfold target, Join. by rewrite <- !app_assoc.
      * unfold Join in Hdir. by rewrite <- app_assoc in Hdir.
Qed.

(** C3, as stated, fails: the manifest of the Pilot component is not
    written to out/Pilot/Pilot.yaml but below the directory of the base
    component, to out/Base/Pilot/Pilot.yaml. *)
Lemma RenderToDir_child_below_base :
  fst (RenderToDir twoManifests ["out"] false false emptyFS) = None
  /\ files (snd (RenderToDir twoManifests ["out"] false false emptyFS))
       !! ["out"; "Pilot"; "Pilot.yaml"] = None
  /\ files (snd (RenderToDir twoManifests ["out"] false false emptyFS))
       !! ["out"; "Base"; "Pilot"; "Pilot.yaml"] = Some "pilot-manifest".
Proof. vm_compute. repeat split; reflexivity. Qed.

Lemma RenderToDir_two_manifests :
  RenderToDir twoManifests ["out"] true false emptyFS = (None, emptyFS)
  /\ files (snd (RenderToDir twoManifests ["out"] false false emptyFS))
       !! ["out"; "Base"; "Base.yaml"] = Some "base-manifest"
  /\ files (snd (RenderToDir twoManifests ["out"] false false emptyFS))
       !! ["out"; "Base"; "Pilot"; "Pilot.yaml"] = Some "pilot-manifest"
  /\ ["out"; "Base"; "Pilot"] ∈ dirs (snd (RenderToDir twoManifests ["out"] false false emptyFS)).
Proof.
  destruct (renderRecursive_install_tree twoManifests ["out"] false emptyFS declaredLeaves
              (Permutation_refl _)) as [Hdry Hreal].
  split; [exact Hdry|].
  destruct (Hreal (snd (RenderToDir twoManifests ["out"] false false emptyFS)))
    as (Hbase & _ & Hchildren).
  - vm_compute. reflexivity.
  - vm_compute. discriminate.
  - split; [exact Hbase|].
    destruct (Hchildren "Pilot") as [Hfile Hdir].
    + simpl. apply list_elem_of_here.
    + vm_compute. discriminate.
    + split; [exact Hfile | exact Hdir].
Defined.

(** ** The dependency gates *)


Lemma childrenOf_declaration (p : name.ComponentName) :
  childrenOf componentDependencies p
  = if String.eqb name.IstioBaseComponentName p then baseChildren else [].
Proof. reflexivity. Qed.

Lemma child_of_base (p ch : name.ComponentName) :
  ch ∈ childrenOf componentDependencies p ->
  p = name.IstioBaseComponentName /\ ch ∈ baseChildren.
Proof.
  rewrite childrenOf_declaration.
  destruct (String.eqb_spec name.IstioBaseComponentName p) as [<-|_]; [done|].
  intros H. by apply elem_of_nil in H.
Qed.

Lemma baseChildren_NoDup : NoDup baseChildren.
Proof. apply (bool_decide_unpack _). vm_compute. exact I. Qed.

Lemma base_not_gated : name.IstioBaseComponentName ∉ baseChildren.
Proof. apply (bool_decide_unpack _). vm_compute. exact I. Qed.

Lemma gate_keys (l : list name.ComponentName) :
  (map (fun child => (child, 0%nat)) l).*1 = l.
Proof. induction l as [|x l IH]; [done|]. cbn. f_equal. exact IH. Qed.

Lemma dependencyWaitCh_lookup (c : name.ComponentName) :
  dependencyWaitCh !! c = if decide (c ∈ baseChildren) then Some 0%nat else None.
Proof.
  unfold dependencyWaitCh. change gatedComponents with baseChildren.
  case_decide as Hin.
  - apply elem_of_list_to_map_1.
    + rewrite gate_keys. apply baseChildren_NoDup.
    + apply list_elem_of_In.
      apply (in_map (fun child : name.ComponentName => (child, 0%nat))).
      by apply list_elem_of_In.
  - apply not_elem_of_list_to_map_1. by rewrite gate_keys.
Qed.


Section Gates.
Context {W : Type} `{!Collaborators W}.
Variable manifests : gmap name.ComponentName string.
Variable version : string.
Variable opts : InstallOptions.

Abbreviation base := name.IstioBaseComponentName.



Lemma launch_Invariant (s : State W) : Invariant manifests (launch manifests s).
Proof.
  split; simpl.
  - apply dom_fmap_L.
  - intros c. rewrite dependencyWaitCh_lookup. case_decide; split; done.
  - intros ch n. rewrite dependencyWaitCh_lookup. case_decide; [|done].
    intros [= <-]. unfold received, sentTo. simpl. rewrite !lookup_fmap.
    destruct (manifests !! ch), (manifests !! base); done.
  - intros p. rewrite lookup_fmap. destruct (manifests !! p); done.
  - intros c [H|[rest H]]; simpl in H; rewrite lookup_fmap in H;
      destruct (manifests !! c); discriminate H.
  - intros c. rewrite lookup_empty. split; [by intros [? ?]|].
    intros [H|[rest H]]; simpl in H; rewrite lookup_fmap in H;
      destruct (manifests !! c); discriminate H.
  - exact I.
Qed.


Lemma step_cases (c : name.ComponentName) (r r' : Run W) :
  step manifests version opts c r = Some r' <-> StepCase manifests version opts c r r'.
Proof.
  unfold step. split.
  - destruct (tasks r !! c) as [[| |[|ch rest]|]|] eqn:Ht; try discriminate.
    + destruct (gates r !! c) as [[|n]|] eqn:Hg; try discriminate;
        intros [= <-]; by econstructor.
    + destruct (applyManifest c (manifestOf manifests c) version opts (state r))
        as [[applyOut appliedObjects] s'|] eqn:Ha; try discriminate.
      intros [= <-]. by econstructor.
    + intros [= <-]. by econstructor.
    + destruct (gates r !! ch) as [[|n]|] eqn:Hg; try discriminate.
      intros [= <-]. by econstructor.
  - intros [n Ht Hg|Ht Hg|applyOut appliedObjects s' Ht Ha|ch rest Ht Hg|Ht];
      rewrite Ht, ?Hg, ?Ha; reflexivity.
Qed.

Lemma received_insert t c x ch :
  received (<[c := x]> t) ch
  = if decide (c = ch) then match x with Waiting => 0%nat | _ => 1%nat end
    else received t ch.
Proof.
  unfold received. rewrite lookup_insert. case_decide; [|done]. by destruct x.
Qed.

Lemma sentTo_insert t c x ch :
  sentTo (<[c := x]> t) ch
  = if decide (c = base)
    then match x with
         | Signalling rest => if decide (ch ∈ rest) then 0%nat else 1%nat
         | Finished => 1%nat
         | _ => 0%nat
         end
    else sentTo t ch.
Proof. unfold sentTo. rewrite lookup_insert. by case_decide. Qed.

Lemma applied_insert t c x c0 :
  applied (<[c := x]> t) c0
  <-> if decide (c = c0) then x = Finished \/ (exists rest, x = Signalling rest)
      else applied t c0.
Proof.
  unfold applied. rewrite lookup_insert. case_decide; [|done].
  split; (intros [Hx|[rest Hx]]; [left|right; exists rest]); congruence.
Qed.

(** Only the base component has children to signal, and it signals each of
    them once. *)
Lemma signalling_head (r : Run W) c ch rest :
  Invariant manifests r -> tasks r !! c = Some (Signalling (ch :: rest)) ->
  c = base /\ ch ∈ baseChildren /\ ch ∉ rest.
Proof.
  intros HI Ht. pose proof (inv_signals manifests r HI c) as Hs. rewrite Ht in Hs.
  assert (Hin : ch ∈ childrenOf componentDependencies c).
  { rewrite <- Hs. apply elem_of_app. right. apply list_elem_of_here. }
  destruct (child_of_base _ _ Hin) as [-> Hch]. split; [done|]. split; [done|].
  pose proof baseChildren_NoDup as Hnd. unfold baseChildren in Hnd.
  rewrite <- Hs in Hnd. apply NoDup_app in Hnd as (_ & _ & Hnd).
  by apply NoDup_cons in Hnd as [? _].
Qed.

Lemma gated_in_baseChildren (r : Run W) ch n :
  Invariant manifests r -> gates r !! ch = Some n -> ch ∈ baseChildren /\ ch <> base.
Proof.
  intros HI Hg.
  assert (Hch : ch ∈ baseChildren).
  { destruct (decide (ch ∈ baseChildren)) as [|Hn]; [done|].
    apply (inv_gates manifests r HI) in Hn. congruence. }
  split; [done|]. intros ->. by apply base_not_gated.
Qed.

#[local] Arguments childrenOf : simpl never.

(** Every step preserves the invariant. *)
Lemma step_Invariant (c : name.ComponentName) (r r' : Run W) :
  Invariant manifests r -> StepCase manifests version opts c r r' -> Invariant manifests r'.
Proof.
  intros HI Hstep.
  assert (Hdom : forall x, is_Some (tasks r !! c) ->
                           dom (<[c := x]> (tasks r)) = dom manifests).
  { intros x Hc. rewrite dom_insert_lookup_L by done. apply (inv_dom manifests r HI). }
  destruct Hstep as [n Ht Hg|Ht Hg|applyOut appliedObjects s' Ht Ha|ch rest Ht Hg|Ht].
  - (* the receive on the gate *)
    destruct (gated_in_baseChildren r c (S n) HI Hg) as [Hc Hcb].
    split; simpl.
    + apply Hdom. by rewrite Ht.
    + intros c0. rewrite lookup_insert. case_decide as Heq; [|apply (inv_gates manifests r HI)].
      subst c0. split; [done|]. intros Hn. done.
    + intros ch m. rewrite lookup_insert, received_insert, sentTo_insert.
      rewrite (decide_False (P := c = base)) by done.
      pose proof (inv_tokens manifests r HI c (S n) Hg) as Htok.
      unfold received in Htok. rewrite Ht in Htok.
      case_decide as Heq.
      * subst ch. intros [= <-]. lia.
      * intros Hm. apply (inv_tokens manifests r HI ch m Hm).
    + intros p. rewrite lookup_insert. pose proof (inv_signals manifests r HI p) as Hs.
      case_decide as Heq; [|done]. subst p. by rewrite Ht in Hs.
    + intros c0 Ha. apply applied_insert in Ha. case_decide as Heq.
      * destruct Ha as [?|[? ?]]; discriminate.
      * destruct (inv_ended manifests r HI c0 Ha) as [err Herr]. exists err.
        by apply list_elem_of_further.
    + intros c0. rewrite applied_insert. case_decide as Heq; [|apply (inv_out manifests r HI)].
      subst c0. split.
      * intros Ho. apply (inv_out manifests r HI) in Ho as [Ho|[? Ho]]; congruence.
      * intros [?|[? ?]]; discriminate.
    + split; [|apply (inv_order manifests r HI)].
      intros c0 p [= <-] Hp. apply child_of_base in Hp as [-> _].
      apply (inv_ended manifests r HI).
      pose proof (inv_tokens manifests r HI c (S n) Hg) as Htok.
      unfold sentTo in Htok. unfold applied.
      destruct (tasks r !! base) as [[| |rest'|]|]; try (simpl in Htok; lia).
      * right. by exists rest'.
      * by left.
  - (* no gate *)
    assert (Hc : c ∉ baseChildren) by (by apply (inv_gates manifests r HI)).
    split; simpl.
    + apply Hdom. by rewrite Ht.
    + apply (inv_gates manifests r HI).
    + intros ch m Hm. rewrite received_insert, sentTo_insert.
      pose proof (inv_tokens manifests r HI ch m Hm) as Htok.
      destruct (gated_in_baseChildren r ch m HI Hm) as [Hch _].
      rewrite (decide_False (P := c = ch)) by (intros ->; done).
      case_decide as Hb; [|done].
      subst c. unfold sentTo in Htok. by rewrite Ht in Htok.
    + intros p. rewrite lookup_insert. pose proof (inv_signals manifests r HI p) as Hs.
      case_decide as Heq; [|done]. subst p. by rewrite Ht in Hs.
    + intros c0 Ha. apply applied_insert in Ha. case_decide as Heq.
      * destruct Ha as [?|[? ?]]; discriminate.
      * destruct (inv_ended manifests r HI c0 Ha) as [err Herr]. exists err.
        by apply list_elem_of_further.
    + intros c0. rewrite applied_insert. case_decide as Heq; [|apply (inv_out manifests r HI)].
      subst c0. split.
      * intros Ho. apply (inv_out manifests r HI) in Ho as [Ho|[? Ho]]; congruence.
      * intros [?|[? ?]]; discriminate.
    + split; [|apply (inv_order manifests r HI)].
      intros c0 p [= <-] Hp. apply child_of_base in Hp as [_ Hp]. done.
  - (* applyManifest returns *)
    split; simpl.
    + apply Hdom. by rewrite Ht.
    + apply (inv_gates manifests r HI).
    + intros ch m Hm. rewrite received_insert, sentTo_insert.
      pose proof (inv_tokens manifests r HI ch m Hm) as Htok.
      destruct (gated_in_baseChildren r ch m HI Hm) as [Hch Hchb].
      unfold received, sentTo in Htok.
      case_decide as Heq.
      * subst ch. rewrite Ht in Htok.
        rewrite (decide_False (P := c = base)) by done. unfold sentTo. lia.
      * case_decide as Hb; [|done]. subst c. rewrite Ht in Htok.
        change (childrenOf componentDependencies base) with baseChildren.
        rewrite (decide_True (P := ch ∈ baseChildren)) by done.
        unfold received. lia.
    + intros p. rewrite lookup_insert. pose proof (inv_signals manifests r HI p) as Hs.
      case_decide as Heq; [|done]. subst p. rewrite Ht in Hs. by rewrite Hs.
    + intros c0 Hap. apply applied_insert in Hap. case_decide as Heq.
      * subst c0. exists (Err applyOut). apply list_elem_of_here.
      * destruct (inv_ended manifests r HI c0 Hap) as [err Herr]. exists err.
        by apply list_elem_of_further.
    + intros c0. rewrite applied_insert, lookup_insert.
      case_decide as Heq; [|apply (inv_out manifests r HI)].
      split; [|by eexists]. intros _. right. by eexists.
    + split; [|apply (inv_order manifests r HI)]. intros c0 p Hc0. discriminate Hc0.
  - (* a signal *)
    destruct (signalling_head r c ch rest HI Ht) as (-> & Hch & Hnotin).
    assert (Hbch : base <> ch) by (intros <-; by apply base_not_gated).
    split; simpl.
    + apply Hdom. by rewrite Ht.
    + intros c0. rewrite lookup_insert. case_decide as Heq; [|apply (inv_gates manifests r HI)].
      subst c0. split; [done|]. intros Hn. done.
    + intros ch' m. rewrite lookup_insert, received_insert, sentTo_insert.
      rewrite (decide_True (P := base = base)) by done.
      case_decide as Heq.
      * subst ch'. intros [= <-].
        pose proof (inv_tokens manifests r HI ch 0%nat Hg) as Htok.
        unfold sentTo in Htok. rewrite Ht in Htok.
        rewrite (decide_True (P := ch ∈ ch :: rest)) in Htok
          by apply list_elem_of_here.
        rewrite (decide_False (P := ch ∈ rest)) by done.
        rewrite (decide_False (P := base = ch)) by done. lia.
      * intros Hm. pose proof (inv_tokens manifests r HI ch' m Hm) as Htok.
        destruct (gated_in_baseChildren r ch' m HI Hm) as [_ Hne].
        rewrite (decide_False (P := base = ch')) by done.
        unfold sentTo in Htok. rewrite Ht in Htok. rewrite Htok.
        repeat case_decide; try done.
        -- exfalso. match goal with Hx : ch' ∈ ch :: rest |- _ =>
                      apply elem_of_cons in Hx as [?|?]; done end.
        -- exfalso. match goal with Hx : ch' ∉ ch :: rest |- _ =>
                      apply Hx; by apply list_elem_of_further end.
    + intros p. rewrite lookup_insert. pose proof (inv_signals manifests r HI p) as Hs.
      case_decide as Heq; [|done]. subst p. rewrite Ht in Hs.
      rewrite <- app_assoc. exact Hs.
    + intros c0 Hap. apply applied_insert in Hap.
      assert (Hbefore : applied (tasks r) c0).
      { case_decide as Heq; [|done]. subst c0. right. by eexists. }
      destruct (inv_ended manifests r HI c0 Hbefore) as [err Herr]. exists err.
      by apply list_elem_of_further.
    + intros c0. rewrite applied_insert. case_decide as Heq; [|apply (inv_out manifests r HI)].
      subst c0. split; [intros _; right; by eexists|].
      intros _. apply (inv_out manifests r HI). right. by eexists.
    + split; [|apply (inv_order manifests r HI)]. intros c0 p Hc0. discriminate Hc0.
  - (* wg.Done *)
    split; simpl.
    + apply Hdom. by rewrite Ht.
    + apply (inv_gates manifests r HI).
    + intros ch m Hm. rewrite received_insert, sentTo_insert.
      pose proof (inv_tokens manifests r HI ch m Hm) as Htok.
      unfold received, sentTo in Htok. unfold received, sentTo.
      repeat case_decide; subst; rewrite ?Ht in Htok; done.
    + intros p. rewrite lookup_insert. pose proof (inv_signals manifests r HI p) as Hs.
      case_decide as Heq; [|done]. subst p. rewrite Ht in Hs.
      by rewrite app_nil_r in Hs.
    + intros c0 Hap. apply applied_insert in Hap.
      assert (Hbefore : applied (tasks r) c0).
      { case_decide as Heq; [|done]. subst c0. right. by eexists. }
      destruct (inv_ended manifests r HI c0 Hbefore) as [err Herr]. exists err.
      by apply list_elem_of_further.
    + intros c0. rewrite applied_insert. case_decide as Heq; [|apply (inv_out manifests r HI)].
      subst c0. split; [intros _; by left|].
      intros _. apply (inv_out manifests r HI). right. by eexists.
    + split; [|apply (inv_order manifests r HI)]. intros c0 p Hc0. discriminate Hc0.
Qed.

Lemma runSchedule_Invariant (schedule : list name.ComponentName) (r r' : Run W) :
  Invariant manifests r -> runSchedule manifests version opts schedule r = Some r' -> Invariant manifests r'.
Proof.
  revert r. induction schedule as [|c schedule IH]; intros r HI; simpl.
  - by intros [= <-].
  - destruct (step manifests version opts c r) as [r1|] eqn:Hstep; [|discriminate].
    apply IH. eapply step_Invariant; [done|]. by apply step_cases.
Qed.





(** A run that has come to its end, over a map that holds all the gated
    components, leaves the gates as it found them: the next run of the
    process starts from empty gates again. *)
Lemma gates_restored (s : State W) (schedule : list name.ComponentName) (r : Run W) :
  runSchedule manifests version opts schedule (launch manifests s) = Some r ->
  allFinished r ->
  (forall ch, ch ∈ baseChildren -> is_Some (manifests !! ch)) ->
  gates r = dependencyWaitCh.
Proof.
  intros Hrun Hfin Hall.
  pose proof (runSchedule_Invariant schedule _ r (launch_Invariant s) Hrun) as HI.
  apply map_eq. intros c. rewrite dependencyWaitCh_lookup.
  case_decide as Hc; [|by apply (inv_gates manifests r HI)].
  destruct (gates r !! c) as [n|] eqn:Hg;
    [|by apply (inv_gates manifests r HI) in Hg].
  pose proof (inv_tokens manifests r HI c n Hg) as Htok.
  assert (Ht : tasks r !! c = Some Finished).
  { assert (Hin : is_Some (tasks r !! c)).
    { apply elem_of_dom. rewrite (inv_dom manifests r HI). apply elem_of_dom. by apply Hall. }
    destruct Hin as [t Ht]. by rewrite (Hfin c t Ht) in Ht. }
  unfold received, sentTo in Htok. rewrite Ht in Htok.
  destruct (tasks r !! base) as [t|] eqn:Hb; [|lia].
  rewrite (Hfin base t Hb) in Htok. f_equal. lia.
Qed.

End Gates.



(** ** The apply engine returns *)

Section Steady.
Context {W : Type} `{!Collaborators W}.
Variable config : RestConfig.


Lemma steady_ret {A} (Q : A -> Prop) (a : A) : Q a -> steady config Q (mret a : M W A).
Proof. intros Ha s Hs. by exists a, s. Qed.

Lemma steady_bind {A B} (Q : A -> Prop) (R : B -> Prop) (m : M W A) (k : A -> M W B) :
  steady config Q m -> (forall a, Q a -> steady config R (k a)) -> steady config R (m ≫= k).
Proof.
  intros Hm Hk s Hs. destruct (Hm s Hs) as (a & s1 & Hrun & Hs1 & Ha).
  destruct (Hk a Ha s1 Hs1) as (b & s2 & Hrun2 & Hs2 & Hb).
  exists b, s2. split; [|done]. by rewrite (bind_Ret m k s s1 a Hrun).
Qed.

Lemma steady_weaken {A} (Q R : A -> Prop) (m : M W A) :
  steady config Q m -> (forall a, Q a -> R a) -> steady config R m.
Proof.
  intros Hm HQR s Hs. destruct (Hm s Hs) as (a & s1 & Hrun & Hs1 & Ha).
  exists a, s1. auto.
Qed.

Lemma steady_ask {A} (f : W -> A * W) : steady config any (ask f).
Proof.
  intros s Hs. unfold ask. destruct (f (world s)) as [a w]. by eexists _, _.
Qed.

Lemma steady_tell (f : W -> W) : steady config any (tell f).
Proof. intros s Hs. by eexists _, _. Qed.

Lemma steady_record (c : Call) : steady config any (record (W:=W) c).
Proof. intros s Hs. by eexists _, _. Qed.

Lemma steady_log (l : LogEntry) : steady config any (log (W:=W) l).
Proof. intros s Hs. by eexists _, _. Qed.

Lemma steady_logAndPrint (format : string) (args : list string) :
  steady config any (logAndPrint (W:=W) format args).
Proof. apply steady_log. Qed.

Lemma steady_getRESTConfig : steady config (fun c => c = Some config) (getRESTConfig (W:=W)).
Proof. intros s Hs. by exists (k8sRESTConfig s), s. Qed.

Ltac steady_step :=
  first
    [ apply steady_ret; exact I
    | apply (steady_ret any); exact I
    | apply steady_log
    | apply steady_record
    | apply steady_ask
    | apply steady_tell
    | apply steady_logAndPrint
    | eapply steady_bind; [|intros ? ?]
    | match goal with
      | |- steady _ _ (match ?x with _ => _ end) => destruct x
      end ].

Lemma steady_scanConditions crdName conds : steady config any (scanConditions (W:=W) crdName conds).
Proof.
  induction conds as [|cond conds IH]; simpl; [by apply steady_ret|].
  repeat steady_step; exact IH.
Qed.

Lemma steady_crdCondition crdNames : steady config any (crdCondition crdNames).
Proof.
  induction crdNames as [|crdName rest IH]; simpl; [by apply steady_ret|].
  repeat (steady_step || apply steady_scanConditions || exact IH).
Qed.

Lemma steady_pollLoop {S : Type} (n : nat) (interval : Duration)
    (condition : S -> M W (bool * option error * S)) (acc : S) :
  (forall acc, steady config any (condition acc)) ->
  steady config any (pollLoop n interval condition acc).
Proof.
  intros Hc. revert acc. induction n as [|n IH]; intros acc; simpl.
  - by apply steady_ret.
  - eapply steady_bind; [apply steady_tell|]. intros _ _.
    eapply steady_bind; [apply Hc|]. intros [[done err] acc'] _.
    destruct err; [by apply steady_ret|]. destruct done; [by apply steady_ret|].
    apply IH.
Qed.

Lemma steady_waitForCRDs objects dryRun : steady config any (waitForCRDs objects dryRun).
Proof.
  unfold waitForCRDs. destruct dryRun.
  - repeat steady_step.
  - eapply steady_bind; [apply steady_log|]. intros _ _.
    eapply steady_bind; [apply steady_getRESTConfig|]. intros cfg ->.
    destruct (apiextensionsclient_NewForConfig config); [by apply steady_ret|].
    eapply steady_bind.
    + apply steady_pollLoop. intros acc.
      eapply steady_bind; [apply steady_crdCondition|]. intros [done err] _.
      by apply steady_ret.
    + intros [errPoll u] _. destruct errPoll; repeat steady_step.
Qed.

(** The namespace wait only reads namespaces, and so never meets a nil
    selector or a nil replica count. *)
Lemma steady_gatherAll_namespaces objects g :
  Forall (fun o => Kind o = "Namespace") objects ->
  deployments g = [] ->
  steady config (fun r => match r with inl g' => deployments g' = [] | inr _ => True end)
    (gatherAll objects g).
Proof.
  intros Hobjects. revert g.
  induction Hobjects as [|o objects Hk _ IH]; intros g Hg; simpl.
  - by apply steady_ret.
  - eapply steady_bind with
      (Q := fun r => match r with inl g' => deployments g' = [] | inr _ => True end).
    + unfold gatherOne. rewrite Hk. simpl.
      eapply steady_bind; [apply steady_ask|]. intros [namespace|e] _;
        by apply steady_ret.
    + intros [g'|e] Hg'; [by apply IH | by apply steady_ret].
Qed.

Lemma steady_waitForResources_namespaces objects opts :
  Forall (fun o => Kind o = "Namespace") objects ->
  steady config any (waitForResources objects opts).
Proof.
  intros Hobjects. unfold waitForResources. destruct (DryRun opts).
  - repeat steady_step.
  - eapply steady_bind; [apply steady_getRESTConfig|]. intros cfg ->.
    destruct (kubernetes_NewForConfig config); [by apply steady_ret|].
    eapply steady_bind.
    + apply steady_pollLoop. intros notReady. unfold resourcesCondition.
      eapply steady_bind; [by apply steady_gatherAll_namespaces|].
      intros [g|e] Hg; [|by apply steady_ret]. rewrite Hg. simpl.
      destruct (namespacesReady (namespaces g)) as [nsr nnr].
      destruct (podsReady (pods g)) as [pr pnr].
      destruct (servicesReady (services g)) as [sr snr].
      repeat steady_step.
    + intros [errPoll notReady] _. destruct errPoll; by apply steady_ret.
Qed.

Lemma nsKindObjects_kind objects :
  Forall (fun o => Kind o = "Namespace") (nsKindObjects objects).
Proof.
  apply Forall_forall. intros o Ho.
  unfold nsKindObjects in Ho. by apply list_elem_of_filter in Ho as [? _].
Qed.

(** With the connection in place [applyManifest] returns an outcome,
    whatever the collaborators answer. *)
Lemma steady_applyManifest componentName manifestStr version opts :
  steady config any (applyManifest componentName manifestStr version opts).
Proof.
  unfold applyManifest, GetAll, Delete, Apply.
  repeat (steady_step
          || apply steady_waitForCRDs
          || (apply steady_waitForResources_namespaces; apply nsKindObjects_kind)).
Qed.

End Steady.

(** ** The fan-out completes *)


Lemma sum_list_with_insert (f : name.ComponentName * Task -> nat)
    (m : gmap name.ComponentName Task) c t t' :
  m !! c = Some t ->
  (sum_list_with f (map_to_list (<[c := t']> m)) + f (c, t)
   = sum_list_with f (map_to_list m) + f (c, t'))%nat.
Proof.
  intros Hc. rewrite <- insert_delete_eq.
  rewrite (map_to_list_insert (delete c m) c t') by apply lookup_delete_eq.
  rewrite <- (map_to_list_delete m c t Hc). simpl. lia.
Qed.

Section Completion.
Context {W : Type} `{!Collaborators W}.
Variable manifests : gmap name.ComponentName string.
Variable version : string.
Variable opts : InstallOptions.
Variable config : RestConfig.

Abbreviation base := name.IstioBaseComponentName.

#[local] Arguments childrenOf : simpl never.

Lemma step_stepsLeft (c : name.ComponentName) (r r' : Run W) :
  StepCase manifests version opts c r r' -> stepsLeftOf r = S (stepsLeftOf r').
Proof.
  intros [n Ht Hg|Ht Hg|applyOut appliedObjects s' Ht Ha|ch rest Ht Hg|Ht];
    unfold stepsLeftOf; simpl;
    match goal with
    | |- context [ <[c := ?t']> (tasks r) ] =>
        pose proof (sum_list_with_insert (fun ct => stepsLeft ct.1 ct.2)
                      (tasks r) c _ t' Ht) as Hsum
    end; simpl in Hsum; lia.
Qed.

Lemma step_connected (c : name.ComponentName) (r r' : Run W) :
  StepCase manifests version opts c r r' ->
  k8sRESTConfig (state r) = Some config -> k8sRESTConfig (state r') = Some config.
Proof.
  intros [n Ht Hg|Ht Hg|applyOut appliedObjects s' Ht Ha|ch rest Ht Hg|Ht] Hc;
    simpl; try done.
  destruct (steady_applyManifest config c (manifestOf manifests c) version opts
              (state r) Hc) as (a & s1 & Hrun & Hs1 & _).
  rewrite Hrun in Ha. by injection Ha as _ <-.
Qed.

(** As long as a goroutine is left that has not finished, some goroutine
    can take a step: nobody waits for a signal that will not come, and
    no send finds its gate full. *)
Lemma progress (r : Run W) :
  parentsPresent manifests ->
  Invariant manifests r ->
  k8sRESTConfig (state r) = Some config ->
  ~ allFinished r ->
  exists c r', step manifests version opts c r = Some r'.
Proof.
  intros Hpresent HI Hcfg Hnot.
  apply map_not_Forall in Hnot as (c & t & Ht & Hnf); [|apply _].
  assert (Happly : forall p, tasks r !! p = Some Applying ->
                             exists r', step manifests version opts p r = Some r').
  { intros p Hp.
    destruct (steady_applyManifest config p (manifestOf manifests p) version opts
                (state r) Hcfg) as ([applyOut appliedObjects] & s1 & Hrun & _).
    eexists. apply step_cases. by econstructor. }
  assert (Hsignal : forall p rest, tasks r !! p = Some (Signalling rest) ->
                                   exists r', step manifests version opts p r = Some r').
  { intros p [|ch rest] Hp.
    - eexists. apply step_cases. by econstructor.
    - destruct (signalling_head manifests r p ch rest HI Hp) as (-> & Hch & Hnotin).
      assert (Hg : gates r !! ch = Some 0%nat).
      { destruct (gates r !! ch) as [n|] eqn:Hg.
        - pose proof (inv_tokens manifests r HI ch n Hg) as Htok.
          unfold sentTo in Htok. rewrite Hp in Htok.
          rewrite (decide_True (P := ch ∈ ch :: rest)) in Htok
            by apply list_elem_of_here.
          f_equal. lia.
        - apply (inv_gates manifests r HI) in Hg. done. }
      eexists. apply step_cases. by econstructor. }
  destruct t as [| |rest|]; [|exists c; by apply Happly
                            |exists c; by eapply Hsignal|done].
  destruct (gates r !! c) as [[|n]|] eqn:Hg.
  - (* the gate is empty: the base component has still to signal *)
    destruct (gated_in_baseChildren manifests r c 0%nat HI Hg) as [Hc Hcb].
    assert (Hbase : is_Some (tasks r !! base)).
    { apply elem_of_dom. rewrite (inv_dom manifests r HI). apply elem_of_dom.
      apply (Hpresent base c); [exact Hc|].
      apply elem_of_dom. rewrite <- (inv_dom manifests r HI). apply elem_of_dom.
      by eexists. }
    destruct Hbase as [tb Htb]. exists base.
    destruct tb as [| |rest|].
    + eexists. apply step_cases. apply CaseProceed; [done|].
      apply (inv_gates manifests r HI). apply base_not_gated.
    + by apply Happly.
    + by eapply Hsignal.
    + pose proof (inv_tokens manifests r HI c 0%nat Hg) as Htok.
      unfold received, sentTo in Htok. rewrite Ht, Htb in Htok. lia.
  - exists c. eexists. apply step_cases. by eapply CaseReceive.
  - exists c. eexists. apply step_cases. by apply CaseProceed.
Qed.

Lemma runSchedule_app (schedule rest : list name.ComponentName) (r : Run W) :
  runSchedule manifests version opts (schedule ++ rest) r
  = match runSchedule manifests version opts schedule r with
    | Some r' => runSchedule manifests version opts rest r'
    | None => None
    end.
Proof.
  revert r. induction schedule as [|c schedule IH]; intros r; simpl; [done|].
  destruct (step manifests version opts c r); [apply IH|done].
Qed.

Lemma runSchedule_stepsLeft (schedule : list name.ComponentName) (r r' : Run W) :
  runSchedule manifests version opts schedule r = Some r' ->
  stepsLeftOf r = (length schedule + stepsLeftOf r')%nat.
Proof.
  revert r. induction schedule as [|c schedule IH]; intros r; simpl.
  - by intros [= <-].
  - destruct (step manifests version opts c r) as [r1|] eqn:Hstep; [|discriminate].
    intros Hrun. apply step_cases in Hstep. apply step_stepsLeft in Hstep.
    rewrite Hstep, (IH _ Hrun). done.
Qed.

Lemma runSchedule_connected (schedule : list name.ComponentName) (r r' : Run W) :
  runSchedule manifests version opts schedule r = Some r' ->
  k8sRESTConfig (state r) = Some config -> k8sRESTConfig (state r') = Some config.
Proof.
  revert r. induction schedule as [|c schedule IH]; intros r; simpl.
  - by intros [= <-].
  - destruct (step manifests version opts c r) as [r1|] eqn:Hstep; [|discriminate].
    intros Hrun Hc. apply (IH _ Hrun). apply step_cases in Hstep.
    by eapply step_connected.
Qed.

(** From every state of a run the goroutines can be scheduled to the end. *)
Lemma completion (r : Run W) :
  parentsPresent manifests ->
  Invariant manifests r ->
  k8sRESTConfig (state r) = Some config ->
  exists rest r',
    runSchedule manifests version opts rest r = Some r' /\ allFinished r'.
Proof.
  intros Hpresent.
  remember (stepsLeftOf r) as n eqn:Hn. revert r Hn.
  induction n as [n IH] using lt_wf_ind. intros r Hn HI Hcfg.
  destruct (decide (allFinished r)) as [Hfin|Hnot].
  - exists [], r. done.
  - destruct (progress r Hpresent HI Hcfg Hnot) as (c & r1 & Hstep).
    pose proof Hstep as Hcase. apply step_cases in Hcase.
    destruct (IH (stepsLeftOf r1)) with (r := r1) as (rest & r' & Hrun & Hfin).
    + apply step_stepsLeft in Hcase. lia.
    + done.
    + by eapply step_Invariant.
    + by eapply step_connected.
    + exists (c :: rest), r'. simpl. rewrite Hstep. done.
Qed.

Lemma initK8SRestClient_connected kubeconfig context (s s1 : State W) :
  initK8SRestClient kubeconfig context s = Ret None s1 ->
  exists config', k8sRESTConfig s1 = Some config'.
Proof.
  unfold initK8SRestClient, defaultRestConfig, BuildClientConfig. munfold.
  destruct (k8sRESTConfig s) as [cfg|] eqn:Hcfg.
  - intros [= <-]. by exists cfg.
  - simpl. repeat case_match; simplify_eq; intros; simplify_eq; simpl; by eexists.
Qed.

End Completion.

Section ApplyAllReturns.
Context {W : Type} `{!Collaborators W}.
Variable manifests : gmap name.ComponentName string.
Variable version : string.
Variable opts : InstallOptions.

Abbreviation base := name.IstioBaseComponentName.

(** The gates a run leaves to the process, when it has started from empty
    gates: they are empty again unless the base component was in the map
    and one of its children was not. *)
Lemma gates_left (s : State W) (schedule : list name.ComponentName) (r : Run W) :
  runSchedule manifests version opts schedule (launch manifests s) = Some r ->
  allFinished r ->
  gates r = dependencyWaitCh
  <-> (is_Some (manifests !! base) ->
       forall ch, ch ∈ baseChildren -> is_Some (manifests !! ch)).
Proof.
  intros Hrun Hfin.
  pose proof (runSchedule_Invariant manifests version opts schedule _ r
                (launch_Invariant manifests s) Hrun) as HI.
  assert (Hdom : forall c, is_Some (tasks r !! c) <-> is_Some (manifests !! c)).
  { intros c. rewrite <- !elem_of_dom. by rewrite (inv_dom manifests r HI). }
  assert (Hgate : forall ch, ch ∈ baseChildren ->
             exists n, gates r !! ch = Some n
                       /\ (n + received (tasks r) ch = sentTo (tasks r) ch)%nat).
  { intros ch Hch. destruct (gates r !! ch) as [n|] eqn:Hg.
    - exists n. split; [done|]. by apply (inv_tokens manifests r HI).
    - by apply (inv_gates manifests r HI) in Hg. }
  split.
  - intros Heq [mb Hb] ch Hch. destruct (Hgate ch Hch) as (n & Hg & Htok).
    rewrite Heq, dependencyWaitCh_lookup, decide_True in Hg by done.
    injection Hg as <-. apply Hdom.
    assert (Htb : is_Some (tasks r !! base)) by (apply Hdom; by eexists).
    destruct Htb as [tb Htb]. unfold received, sentTo in Htok.
    rewrite Htb, (Hfin base tb Htb) in Htok.
    destruct (tasks r !! ch) as [t|]; [by eexists|simpl in Htok; lia].
  - intros Hall. apply map_eq. intros c. rewrite dependencyWaitCh_lookup.
    case_decide as Hc; [|by apply (inv_gates manifests r HI)].
    destruct (Hgate c Hc) as (n & -> & Htok). f_equal.
    unfold received, sentTo in Htok.
    destruct (tasks r !! base) as [tb|] eqn:Htb.
    + assert (Hin : is_Some (tasks r !! c)).
      { apply Hdom, Hall; [|done]. apply Hdom. by rewrite Htb. }
      destruct Hin as [t Ht]. rewrite Ht, (Hfin c t Ht), (Hfin base tb Htb) in Htok. lia.
    + destruct (tasks r !! c) as [t|] eqn:Ht; [|lia].
      rewrite (Hfin c t Ht) in Htok. lia.
Qed.

(** C7, amended.  A failure to resolve the cluster connection makes the
    call return that error before any component task is launched, whatever
    the gates of the process hold, and leaves the gates as they are.  With
    the connection resolved, the call is taken in a process in which no
    gate holds a signal (the gates as [init] built them), with a map in
    which every component that has a declared parent comes with that
    parent, and with waits whose polls give up (a wait time-out other than
    zero, or a dry run).  Then every run of the component tasks can be
    scheduled to its end, in a bounded number of steps, whatever the
    outcomes of the applies.  At the end the outcome map has an entry for
    every component of the map.  Without the wait option the call returns
    the map with a nil error; with the wait option it ends as the final
    cluster-wide wait over the applied objects ends: it returns the map
    with the error of the wait (nil when the wait succeeds), and it crashes
    when the wait crashes.  The gates are left empty again unless the map
    holds the base component and not all of its declared children; with
    the gates empty again, the next call in the process meets the
    condition on the gates. *)
Theorem ApplyAll_returns (s : State W) :
  (forall g err s1 schedule,
     initK8SRestClient (Kubeconfig opts) (Context_ opts) s = Ret (Some err) s1 ->
     ApplyAll manifests version opts schedule g s = Some (g, Ret (None, Some err) s1)
     /\ calls s1 = calls s)
  /\ (forall s1,
        initK8SRestClient (Kubeconfig opts) (Context_ opts) s = Ret None s1 ->
        parentsPresent manifests ->
        pollsGiveUp opts ->
        (forall schedule r,
           runSchedule manifests version opts schedule (launch manifests s1) = Some r ->
           (length schedule <= stepsLeftOf (launch manifests s1))%nat
           /\ exists rest r',
                runSchedule manifests version opts (schedule ++ rest)
                  (launch manifests s1) = Some r'
                /\ allFinished r')
        /\ (forall schedule r,
              runSchedule manifests version opts schedule (launch manifests s1) = Some r ->
              allFinished r ->
              dom (out r) = dom manifests
              /\ ApplyAll manifests version opts schedule dependencyWaitCh s
                 = Some (gates r,
                         if Wait opts then
                           match waitForResources (allAppliedObjects r) opts (state r) with
                           | Ret err s2 => Ret (Some (out r), err) s2
                           | Panic s2 => Panic s2
                           end
                         else Ret (Some (out r), None) (state r))
              /\ (gates r = dependencyWaitCh
                  <-> (is_Some (manifests !! base) ->
                       forall ch, ch ∈ baseChildren -> is_Some (manifests !! ch))))).
Proof.
  split.
  - intros g err s1 schedule Hinit. unfold ApplyAll. rewrite Hinit. split; [done|].
    revert Hinit. unfold initK8SRestClient, defaultRestConfig, BuildClientConfig.
    munfold. destruct (k8sRESTConfig s); [discriminate|]. simpl.
    repeat case_match; simplify_eq; intros; simplify_eq; done.
  - intros s1 Hinit Hpresent _.
    destruct (initK8SRestClient_connected _ _ s s1 Hinit) as [config Hcfg].
    split.
    + intros schedule r Hrun.
      pose proof (runSchedule_Invariant manifests version opts schedule _ r
                    (launch_Invariant manifests s1) Hrun) as HI.
      split.
      * rewrite (runSchedule_stepsLeft manifests version opts schedule _ r Hrun). lia.
      * destruct (completion manifests version opts config r Hpresent HI)
          as (rest & r' & Hrest & Hfin).
        { by eapply runSchedule_connected. }
        exists rest, r'. split; [|done]. by rewrite runSchedule_app, Hrun.
    + intros schedule r Hrun Hfin.
      pose proof (runSchedule_Invariant manifests version opts schedule _ r
                    (launch_Invariant manifests s1) Hrun) as HI.
      split; [|split].
      * rewrite <- (inv_dom manifests r HI). apply set_eq. intros c.
        rewrite !elem_of_dom, (inv_out manifests r HI). split.
        -- intros [Hc|[rest Hc]]; by eexists.
        -- intros [t Ht]. left. by rewrite (Hfin c t Ht) in Ht.
      * unfold ApplyAll, applyRecursive. rewrite Hinit.
        change (launchFrom dependencyWaitCh manifests s1) with (launch manifests s1).
        rewrite Hrun, bool_decide_eq_true_2 by done.
        destruct (Wait opts); [|done]. munfold.
        by destruct (waitForResources (allAppliedObjects r) opts (state r)).
      * by apply (gates_left s1 schedule).
Qed.

End ApplyAllReturns.

(** C7, as stated, fails: in a process whose gates are as [init] built
    them, with the Pilot component alone in the map, the goroutine of Pilot
    waits for a signal of the base component, which has no goroutine; no
    goroutine can ever take a step, [wg.Wait] stays blocked, and the call
    does not return. *)
Lemma ApplyAll_child_without_parent_never_returns :
  ~ exists schedule,
      is_Some (@ApplyAll nat (scripted healthy) {[ name.PilotComponentName := "" ]}
                 "1.4.0" defaultOptions schedule dependencyWaitCh freshState).
Proof.
  assert (Hstuck : forall c,
             @step nat (scripted healthy) {[ name.PilotComponentName := "" ]} "1.4.0"
               defaultOptions c
               (launch {[ name.PilotComponentName := "" ]} connectedState) = None).
  { intros c. unfold step, launch. cbn [tasks gates]. rewrite lookup_fmap.
    destruct (decide (c = name.PilotComponentName)) as [->|Hne].
    - rewrite lookup_singleton_eq. cbn [fmap option_fmap option_map].
      rewrite dependencyWaitCh_lookup. rewrite decide_True; [done|].
      apply (bool_decide_unpack _). vm_compute. exact I.
    - rewrite lookup_singleton_ne by done. done. }
  assert (Hwaits : ~ allFinished
                       (launch (W:=nat) {[ name.PilotComponentName := "" ]} connectedState)).
  { intros Hfin. specialize (Hfin name.PilotComponentName Waiting).
    unfold launch in Hfin. cbn [tasks] in Hfin.
    rewrite lookup_fmap, lookup_singleton_eq in Hfin. by specialize (Hfin eq_refl). }
  intros [schedule [res Hres]]. revert Hres. unfold ApplyAll.
  change (@initK8SRestClient nat (scripted healthy) (Kubeconfig defaultOptions)
            (Context_ defaultOptions) freshState) with (Ret (@None error) connectedState).
  cbv beta iota. unfold applyRecursive.
  change (launchFrom dependencyWaitCh ?m ?s) with (launch m s).
  destruct schedule as [|c schedule]; cbn [runSchedule].
  - rewrite bool_decide_eq_false_2 by exact Hwaits. discriminate.
  - rewrite Hstuck. discriminate.
Qed.

(** The base component and Pilot in a process with empty gates, the apply
    of the base component refused: the call returns both outcomes, the
    failed one included, and no error of its own, and leaves a signal in
    the gates of the children that were not in the map. *)
Lemma ApplyAll_base_refused :
  exists r,
    @runSchedule nat (scripted refusedApply) baseAndPilot "1.4.0" defaultOptions
      baseThenPilot (launch baseAndPilot connectedState) = Some r
    /\ dom (out r) = dom baseAndPilot
    /\ @ApplyAll nat (scripted refusedApply) baseAndPilot "1.4.0" defaultOptions
         baseThenPilot dependencyWaitCh freshState
       = Some (gates r, Ret (Some (out r), None) (state r))
    /\ Err <$> (out r !! name.IstioBaseComponentName) = Some (Some "exit status 1")
    /\ gates r <> dependencyWaitCh.
Proof.
  destruct (@runSchedule nat (scripted refusedApply) baseAndPilot "1.4.0" defaultOptions
              baseThenPilot (launch baseAndPilot connectedState)) as [r|] eqn:Hrun;
    [|vm_compute in Hrun; discriminate Hrun].
  exists r. split; [reflexivity|].
  destruct (@ApplyAll_returns nat (scripted refusedApply) baseAndPilot "1.4.0"
              defaultOptions freshState) as [_ Hreturns].
  destruct (Hreturns connectedState) as [_ Hresult].
  - reflexivity.
  - intros p c Hc _. apply child_of_base in Hc as [-> _].
    unfold baseAndPilot. rewrite lookup_insert_eq. by eexists.
  - right. vm_compute. discriminate.
  - destruct (Hresult baseThenPilot r Hrun) as (Hdom & Hreturn & Hgates).
    + apply (bool_decide_unpack _). vm_compute in Hrun. injection Hrun as <-.
      vm_compute. exact I.
    + split; [exact Hdom|]. split; [exact Hreturn|]. split.
      * vm_compute in Hrun. injection Hrun as <-. vm_compute. reflexivity.
      * intros Heq.
        assert (Hb : is_Some (baseAndPilot !! name.IstioBaseComponentName)).
        { unfold baseAndPilot. rewrite lookup_insert_eq. by eexists. }
        destruct (proj1 Hgates Heq Hb name.PolicyComponentName) as [m Hm].
        -- apply (bool_decide_unpack _). vm_compute. exact I.
        -- vm_compute in Hm. discriminate Hm.
Defined.

(* --------------------------------------------------------------------- *)
(** ** Further properties of the installer *)
(* --------------------------------------------------------------------- *)

(** ** The object partitioner *)

Lemma nsKindObjects_elem (objects : list K8sObject) (o : K8sObject) :
  o ∈ nsKindObjects objects <-> Kind o = "Namespace" /\ o ∈ objects.
Proof. unfold nsKindObjects. by rewrite list_elem_of_filter. Qed.

Lemma cRDKindObjects_elem (objects : list K8sObject) (o : K8sObject) :
  o ∈ cRDKindObjects objects <-> Kind o = "CustomResourceDefinition" /\ o ∈ objects.
Proof. unfold cRDKindObjects. by rewrite list_elem_of_filter. Qed.

(** The remainder of a component, as [applyManifest] computes it, is made
    of the objects that are neither namespaces nor CRDs, in their order. *)
Lemma objectsNotInLists_remainder (objects : list K8sObject) :
  objectsNotInLists objects [nsKindObjects objects; cRDKindObjects objects]
  = filter (fun o => Kind o <> "Namespace" /\ Kind o <> "CustomResourceDefinition") objects.
Proof.
  unfold objectsNotInLists. cbn [concat]. rewrite app_nil_r.
  assert (H : forall l, l ⊆ objects ->
    filter (fun o => o ∉ nsKindObjects objects ++ cRDKindObjects objects) l
    = filter (fun o => Kind o <> "Namespace" /\ Kind o <> "CustomResourceDefinition") l).
  { induction l as [|o l IH]; intros Hl; [done|].
    assert (Ho : o ∈ objects) by (apply Hl, list_elem_of_here).
    assert (Hl' : l ⊆ objects) by (intros x Hx; apply Hl; by apply list_elem_of_further).
    rewrite !filter_cons, (IH Hl').
    destruct (decide (o ∉ nsKindObjects objects ++ cRDKindObjects objects)) as [Hn|Hn];
      destruct (decide (Kind o <> "Namespace" /\ Kind o <> "CustomResourceDefinition"))
        as [Hk|Hk]; try done.
    - exfalso. apply Hk. split; intros Hkind; apply Hn, elem_of_app.
      + left. by apply nsKindObjects_elem.
      + right. by apply cRDKindObjects_elem.
    - exfalso. apply Hn. intros Hin. apply elem_of_app in Hin as [Hin|Hin].
      + apply nsKindObjects_elem in Hin as [? _]. by destruct Hk.
      + apply cRDKindObjects_elem in Hin as [? _]. by destruct Hk. }
  by apply H.
Qed.

Lemma partition_Permutation (objects : list K8sObject) :
  nsKindObjects objects ++ cRDKindObjects objects
  ++ filter (fun o => Kind o <> "Namespace" /\ Kind o <> "CustomResourceDefinition") objects
  ≡ₚ objects.
Proof.
  unfold nsKindObjects, cRDKindObjects.
  induction objects as [|o objects IH]; [done|].
  rewrite !filter_cons.
  destruct (decide (Kind o = "Namespace")) as [Hns|Hns];
    destruct (decide (Kind o = "CustomResourceDefinition")) as [Hcrd|Hcrd];
    try congruence.
  - rewrite decide_False by (intros [? _]; done). simpl. by rewrite IH.
  - rewrite decide_False by (intros [_ ?]; done).
    rewrite <- app_comm_cons, <- Permutation_middle. by rewrite IH.
  - rewrite decide_True by done.
    rewrite <- !Permutation_middle. by rewrite IH.
Qed.

(** X1: the three parts into which [applyManifest] splits the objects of
    a component (the namespaces, the CRDs, the remainder) hold every object
    exactly once, each part in the order of the objects; the remainder
    holds the objects that are neither namespaces nor CRDs. *)
Theorem partition_covers_objects (objects : list K8sObject) :
  let nsObjects := nsKindObjects objects in
  let crdObjects := cRDKindObjects objects in
  let nonNsCrdObjects := objectsNotInLists objects [nsObjects; crdObjects] in
  nsObjects ++ crdObjects ++ nonNsCrdObjects ≡ₚ objects
  /\ nsObjects `sublist_of` objects
  /\ crdObjects `sublist_of` objects
  /\ nonNsCrdObjects `sublist_of` objects
  /\ (forall o, o ∈ nonNsCrdObjects <->
                o ∈ objects /\ Kind o <> "Namespace" /\ Kind o <> "CustomResourceDefinition").
Proof.
  intros nsObjects crdObjects nonNsCrdObjects.
  unfold nonNsCrdObjects, nsObjects, crdObjects. rewrite objectsNotInLists_remainder.
  split; [|split; [|split; [|split]]]; try apply sublist_filter; try apply _.
  - apply partition_Permutation.
  - intros o. rewrite list_elem_of_filter. tauto.
Qed.

(** ** The readiness of pods and namespaces *)

Lemma isPodReady_spec (pod : Pod) : isPodReady pod = true <-> hasReadyCondition pod.
Proof.
  unfold isPodReady, hasReadyCondition.
  induction (podConditions pod) as [|c conds IH]; simpl.
  - split; [discriminate | intros H; inversion H].
  - rewrite orb_true_iff, IH, andb_true_iff, !String.eqb_eq, Exists_cons. done.
Qed.

(** X2: the pod check reports success exactly when every pod has a
    condition of type Ready with status True (so a pod without conditions
    is not ready), and lists the other pods, in their order, as
    Pod/<namespace>/<name>. *)
Theorem podsReady_spec (pods : list Pod) :
  (fst (podsReady pods) = true <-> Forall hasReadyCondition pods)
  /\ snd (podsReady pods)
     = (fun pod => "Pod/" +:+ podNamespace pod +:+ "/" +:+ podName pod)
         <$> filter (fun pod => ~ hasReadyCondition pod) pods.
Proof.
  unfold podsReady. cbn [fst snd]. split.
  - rewrite length_zero_nil, flat_map_nil. apply Forall_iff. intros pod.
    rewrite <- isPodReady_spec. destruct (isPodReady pod); split; congruence.
  - induction pods as [|pod pods IH]; [done|].
    cbn [flat_map]. rewrite filter_cons, IH.
    destruct (isPodReady pod) eqn:Hr.
    + rewrite decide_False; [done|]. intros Hn. apply Hn. by apply isPodReady_spec.
    + rewrite decide_True; [done|]. intros Hn. apply isPodReady_spec in Hn. congruence.
Qed.

(** X3: the namespace check reports success exactly when every namespace
    is in phase Active, and lists the others, in their order, as
    Namespace/<name>. *)
Theorem namespacesReady_spec (namespaces : list NamespaceObj) :
  (fst (namespacesReady namespaces) = true
   <-> Forall (fun namespace => nsPhase namespace = NamespaceActive) namespaces)
  /\ snd (namespacesReady namespaces)
     = (fun namespace => "Namespace/" +:+ nsName namespace)
         <$> filter (fun namespace => nsPhase namespace <> NamespaceActive) namespaces.
Proof.
  unfold namespacesReady. cbn [fst snd]. split.
  - rewrite length_zero_nil, flat_map_nil. apply Forall_iff. intros namespace.
    unfold isNamespaceReady.
    destruct (String.eqb_spec (nsPhase namespace) NamespaceActive); split; congruence.
  - induction namespaces as [|namespace namespaces IH]; [done|].
    cbn [flat_map]. rewrite filter_cons, IH. unfold isNamespaceReady.
    destruct (String.eqb_spec (nsPhase namespace) NamespaceActive) as [Ha|Ha].
    + by rewrite decide_False by (intros Hn; done).
    + by rewrite decide_True.
Qed.

(** ** The items of a listing *)

Section Listing.
Context {W : Type} `{!Collaborators W}.

(** X4: [GetKubectlGetItems] returns items exactly when the text decodes
    to a map whose "kind" is the string List and whose "items" is a
    sequence, and then it returns that sequence; an error of the decoder is
    returned as it is. *)
Theorem GetKubectlGetItems_spec (stdoutGet : string) :
  (forall items,
     GetKubectlGetItems stdoutGet = inl items
     <-> exists yamlGet, yaml_Unmarshal stdoutGet = inl yamlGet
                         /\ yamlGet !! "kind" = Some (YStr "List")
                         /\ yamlGet !! "items" = Some (YSeq items))
  /\ (forall err, yaml_Unmarshal stdoutGet = inr err -> GetKubectlGetItems stdoutGet = inr err).
Proof.
  unfold GetKubectlGetItems. split.
  - intros items. destruct (yaml_Unmarshal stdoutGet) as [yamlGet|err].
    + split.
      * intros H. exists yamlGet. split; [done|].
        destruct (yamlGet !! "kind") as [[| | |k| |]|]; try discriminate H.
        destruct (String.eqb_spec k "List") as [->|Hk].
        -- split; [done|].
           destruct (yamlGet !! "items") as [[| | | |items'|]|]; try discriminate H.
           by injection H as ->.
        -- exfalso. revert H. clear -Hk.
           repeat (let a := fresh "a" in
                   destruct k as [|a k]; [discriminate || done|];
                   destruct a as [b0 b1 b2 b3 b4 b5 b6 b7];
                   destruct b0, b1, b2, b3, b4, b5, b6, b7; try discriminate).
      * intros (y & [= <-] & Hkind & Hitems). by rewrite Hkind, Hitems.
    + split; [discriminate|]. intros (y & Hy & _). discriminate Hy.
  - intros err ->. done.
Qed.

End Listing.

(** ** The component apply engine: an enabled component *)

Lemma insertByScore_Permutation (score : K8sObject -> Z) (o : K8sObject) (l : list K8sObject) :
  insertByScore score o l ≡ₚ o :: l.
Proof.
  induction l as [|x l IH]; [done|]. simpl.
  destruct (score o <=? score x); [done|]. rewrite IH. apply perm_swap.
Qed.

Lemma Sort_Permutation (score : K8sObject -> Z) (objects : list K8sObject) :
  Sort score objects ≡ₚ objects.
Proof.
  unfold Sort. induction objects as [|o objects IH]; [done|]. simpl.
  by rewrite insertByScore_Permutation, IH.
Qed.

(** Case analysis on a scrutinee of the goal that has no case analysis
    inside it: the outcome of one call. *)
Ltac case_innermost :=
  match goal with
  | |- context [match ?x with _ => _ end] =>
      tryif (idtac; match x with context [match _ with _ => _ end] => idtac end)
      then fail
      else destruct x eqn:?
  end.

Section Enabled.
Context {W : Type} `{!Collaborators W}.

(** X5: the objects that the apply of a component with objects returns as
    applied are the objects of whole steps, in the order of the steps:
    nothing, or the namespaces, or the namespaces and the CRDs, or these
    and the remainder.  When the apply reports no error they are all the
    objects of the manifest, labelled, each exactly once.  The manifest of
    the outcome is the YAML of the objects returned. *)
Theorem applyManifest_applies_by_steps
    (componentName : name.ComponentName) (manifestStr version : string)
    (opts : InstallOptions) (s s' : State W) (objects applied : list K8sObject)
    (applyOut : ComponentApplyOutput) :
  ParseK8sObjectsFromYAMLManifest manifestStr = inl objects ->
  objects <> [] ->
  applyManifest componentName manifestStr version opts s = Ret (applyOut, applied) s' ->
  let labelled := Sort defaultObjectOrder (map (stamp componentName version) objects) in
  let nsObjects := nsKindObjects labelled in
  let crdObjects := cRDKindObjects labelled in
  let nonNsCrdObjects := objectsNotInLists labelled [nsObjects; crdObjects] in
  (applied = [] \/ applied = nsObjects \/ applied = nsObjects ++ crdObjects
   \/ applied = nsObjects ++ crdObjects ++ nonNsCrdObjects)
  /\ (Err applyOut = None ->
      applied = nsObjects ++ crdObjects ++ nonNsCrdObjects
      /\ applied ≡ₚ map (stamp componentName version) objects)
  /\ Manifest applyOut = fst (YAMLManifest applied).
Proof.
  intros Hparse Hne Hrun labelled nsObjects crdObjects nonNsCrdObjects.
  assert (Hperm : nsObjects ++ crdObjects ++ nonNsCrdObjects
                  ≡ₚ map (stamp componentName version) objects).
  { unfold nonNsCrdObjects, nsObjects, crdObjects.
    rewrite objectsNotInLists_remainder, partition_Permutation. apply Sort_Permutation. }
  revert Hrun. unfold applyManifest. rewrite Hparse.
  destruct objects as [|o objects]; [done|].
  rewrite bool_decide_eq_false_2 by done.
  fold labelled. fold nsObjects. fold crdObjects. fold nonNsCrdObjects.
  unfold Apply, buildComponentApplyOutput. munfold. cbn [app].
  repeat case_innermost;
    intros Hrun; simplify_eq; cbn [Err Manifest app fst];
    rewrite <- ?app_assoc;
    (split; [auto|]);
    (split; [intros Herr; try discriminate Herr; by split|]);
    rewrite <- ?app_assoc in *;
    repeat match goal with
           | H : YAMLManifest ?l = _ |- context [YAMLManifest ?l] => rewrite H
           end; done.
Qed.

End Enabled.

(** ** The invocations of the apply engine *)

Section Issues.
Context {W : Type} `{!Collaborators W}.
Variable P : Call -> Prop.

Lemma issues_ret {A} (a : A) : issues P (mret a : M W A).
Proof. intros s. by exists []. Qed.

Lemma issues_panic {A} : issues P (panic : M W A).
Proof. intros s. by exists []. Qed.

Lemma issues_bind {A B} (m : M W A) (k : A -> M W B) :
  issues P m -> (forall a, issues P (k a)) -> issues P (m ≫= k).
Proof.
  intros Hm Hk s. destruct (Hm s) as (new1 & Hc1 & HP1).
  unfold mbind, M_bind, bind. destruct (m s) as [a s1|s1]; simpl in *.
  - destruct (Hk a s1) as (new2 & Hc2 & HP2).
    exists (new2 ++ new1). rewrite Hc2, Hc1, app_assoc. split; [done|].
    by apply Forall_app.
  - by exists new1.
Qed.

Lemma issues_ask {A} (f : W -> A * W) : issues P (ask f).
Proof. intros s. exists []. unfold ask. by destruct (f (world s)). Qed.

Lemma issues_tell (f : W -> W) : issues P (tell f).
Proof. intros s. by exists []. Qed.

Lemma issues_log (l : LogEntry) : issues P (log (W:=W) l).
Proof. intros s. by exists []. Qed.

Lemma issues_getRESTConfig : issues P (getRESTConfig (W:=W)).
Proof. intros s. by exists []. Qed.

Lemma issues_record (c : Call) : P c -> issues P (record (W:=W) c).
Proof. intros Hc s. exists [c]. split; [done|]. by apply Forall_singleton. Qed.

Ltac issues_step :=
  first
    [ apply issues_ret
    | apply issues_panic
    | apply issues_log
    | apply issues_ask
    | apply issues_tell
    | apply issues_getRESTConfig
    | apply (issues_log (LogInfo _ _))
    | eapply issues_bind; [|intros ?]
    | match goal with
      | |- issues _ (match ?x with _ => _ end) => destruct x
      end ].

Lemma issues_pollLoop {S : Type} (n : nat) (interval : Duration)
    (condition : S -> M W (bool * option error * S)) (acc : S) :
  (forall acc, issues P (condition acc)) ->
  issues P (pollLoop n interval condition acc).
Proof.
  intros Hc. revert acc. induction n as [|n IH]; intros acc; simpl.
  - apply issues_ret.
  - eapply issues_bind; [apply issues_tell|]. intros _.
    eapply issues_bind; [apply Hc|]. intros [[done err] acc'].
    destruct err; [apply issues_ret|]. destruct done; [apply issues_ret|]. apply IH.
Qed.

Lemma issues_scanConditions crdName conds : issues P (scanConditions (W:=W) crdName conds).
Proof.
  induction conds as [|cond conds IH]; simpl; [apply issues_ret|].
  repeat (issues_step || exact IH).
Qed.

Lemma issues_crdCondition crdNames :
  (forall crdName, P (CallGetCRD crdName)) -> issues P (crdCondition crdNames).
Proof.
  intros HP. induction crdNames as [|crdName rest IH]; simpl; [apply issues_ret|].
  eapply issues_bind; [by apply issues_record|]. intros _.
  repeat (issues_step || apply issues_scanConditions || exact IH).
Qed.

Lemma issues_waitForCRDs objects dryRun :
  (forall crdName, P (CallGetCRD crdName)) -> issues P (waitForCRDs objects dryRun).
Proof.
  intros HP. unfold waitForCRDs, Poll.
  repeat (issues_step
          || (apply issues_pollLoop; intros ?)
          || (apply issues_crdCondition; exact HP)).
Qed.

Lemma issues_gatherAll objects g : issues P (gatherAll objects g).
Proof.
  revert g. induction objects as [|o objects IH]; intros g; simpl; [apply issues_ret|].
  eapply issues_bind; [|intros [g'|e]; [apply IH | apply issues_ret]].
  unfold gatherOne, gatherWorkload, gatherPods, getPods.
  repeat issues_step.
Qed.

(** The readiness waiter talks to the cluster API only: it issues no
    invocation of the executor. *)
Lemma issues_waitForResources objects opts : issues P (waitForResources objects opts).
Proof.
  unfold waitForResources, Poll, logAndPrint.
  destruct (DryRun opts); [repeat issues_step|].
  eapply issues_bind; [apply issues_getRESTConfig|]. intros [config|]; [|apply issues_panic].
  destruct (kubernetes_NewForConfig config); [apply issues_ret|].
  eapply issues_bind; [|intros [[e|] notReady]; apply issues_ret].
  apply issues_pollLoop. intros notReady.
  unfold resourcesCondition, logAndPrint.
  eapply issues_bind; [apply issues_gatherAll|]. intros [g|e]; [|apply issues_ret].
  destruct (deploymentsReady (deployments g)) as [[dr dnr]|]; [|apply issues_panic].
  destruct (namespacesReady (namespaces g)) as [nsr nnr].
  destruct (podsReady (pods g)) as [pr pnr].
  destruct (servicesReady (services g)) as [sr snr].
  repeat issues_step.
Qed.

End Issues.

Section EnabledCalls.
Context {W : Type} `{!Collaborators W}.

(** X6: whatever the collaborators answer, the apply of a component that
    has objects issues no listing and no delete; every apply it issues
    carries the options of the installation and the namespace of the
    component, is forced, and prunes by the label of the component unless
    the component is the base component, which is never pruned. *)
Theorem applyManifest_enabled_issues
    (componentName : name.ComponentName) (manifestStr version : string)
    (opts : InstallOptions) (objects : list K8sObject) :
  ParseK8sObjectsFromYAMLManifest manifestStr = inl objects ->
  objects <> [] ->
  issues (enabledCall componentName opts
            (lastNamespace (map (stamp componentName version) objects)))
         (applyManifest componentName manifestStr version opts).
Proof.
  intros Hparse Hne. unfold applyManifest. rewrite Hparse.
  destruct objects as [|o objects]; [done|].
  rewrite bool_decide_eq_false_2 by done.
  set (namespace := lastNamespace _). set (labelled := Sort _ _).
  assert (Happly : forall m,
    issues (enabledCall componentName opts namespace)
      (Apply (DryRun opts) (Verbose opts) (Kubeconfig opts) (Context_ opts) namespace m
         (if bool_decide (componentName <> name.IstioBaseComponentName)
          then ["--force"] ++ ["--prune"; "--selector";
                               istioComponentLabelStr +:+ "=" +:+ componentName]
          else ["--force"]))).
  { intros m. unfold Apply. eapply issues_bind; [|intros _; apply issues_ask].
    apply issues_record. simpl. repeat split.
    case_bool_decide; case_decide; done. }
  unfold logAndPrint.
  repeat first
    [ apply issues_ret
    | apply issues_log
    | apply Happly
    | apply issues_waitForResources
    | (apply issues_waitForCRDs; intros ?; exact I)
    | eapply issues_bind; [|intros ?]
    | match goal with
      | |- issues _ (match ?x with _ => _ end) => destruct x
      end ].
Qed.

End EnabledCalls.

(** ** The order of the applies *)

Lemma appliesOf_app (new old : list Call) :
  appliesOf (new ++ old) = appliesOf old ++ appliesOf new.
Proof.
  induction new as [|c new IH]; simpl; [by rewrite app_nil_r|].
  destruct c; rewrite IH; by rewrite ?app_assoc.
Qed.

Lemma appliesOf_reads (new : list Call) :
  Forall (fun c => match c with CallGetCRD _ => True | _ => False end) new ->
  appliesOf new = [].
Proof. induction 1 as [|c new Hc _ IH]; [done|]. by destruct c. Qed.

Section OrderOfApplies.
Context {W : Type} `{!Collaborators W}.

Lemma waitForResources_applies objects opts (s : State W) :
  appliesOf (calls (stateOf (waitForResources objects opts s))) = appliesOf (calls s).
Proof.
  destruct (issues_waitForResources (fun _ => False) objects opts s) as (new & -> & Hnew).
  destruct new as [|c new]; [done|]. by inversion Hnew.
Qed.

Lemma waitForCRDs_applies objects dryRun (s : State W) :
  appliesOf (calls (stateOf (waitForCRDs objects dryRun s))) = appliesOf (calls s).
Proof.
  destruct (issues_waitForCRDs
              (fun c => match c with CallGetCRD _ => True | _ => False end)
              objects dryRun (fun _ => I) s) as (new & -> & Hnew).
  by rewrite appliesOf_app, (appliesOf_reads new Hnew), app_nil_r.
Qed.

(** X7: the applies that a component with objects causes are, in this
    order and each at most once, the apply of its namespaces (when it has
    any), the apply of its CRDs (when it has any) and the apply of the
    remainder; and the applies stop with the first step that fails, and
    only there.  A step is the serialization of its objects, their apply
    and the wait that follows (the readiness wait after the namespaces, the
    CRD wait after the CRDs, none after the remainder): the run of the
    component is the run of these steps until one fails, with the same
    applies recorded, the same world left behind, and the error of the
    step that failed as the error of the outcome; where the one crashes,
    so does the other. *)
Theorem applyManifest_order_of_applies
    (componentName : name.ComponentName) (manifestStr version : string)
    (opts : InstallOptions) (objects : list K8sObject) (s : State W) :
  ParseK8sObjectsFromYAMLManifest manifestStr = inl objects ->
  objects <> [] ->
  let labelled := Sort defaultObjectOrder (map (stamp componentName version) objects) in
  let nsObjects := nsKindObjects labelled in
  let crdObjects := cRDKindObjects labelled in
  let nonNsCrdObjects := objectsNotInLists labelled [nsObjects; crdObjects] in
  let text := fun l => match JSONManifest l with inl m => [m] | inr _ => [] end in
  let namespace := lastNamespace (map (stamp componentName version) objects) in
  let extraArgs :=
    if decide (componentName = name.IstioBaseComponentName) then ["--force"]
    else ["--force"; "--prune"; "--selector";
          istioComponentLabelStr +:+ "=" +:+ componentName] in
  let steps :=
    (if (0 <? length nsObjects)%nat
     then [(nsObjects, waitForResources nsObjects opts)] else [])
    ++ (if (0 <? length crdObjects)%nat
        then [(crdObjects, waitForCRDs labelled (DryRun opts))] else [])
    ++ [(nonNsCrdObjects, mret None)] in
  (exists issued,
     appliesOf (calls (stateOf (applyManifest componentName manifestStr version opts s)))
     = appliesOf (calls s) ++ issued
     /\ issued `prefix_of`
          (if (0 <? length nsObjects)%nat then text nsObjects else [])
          ++ (if (0 <? length crdObjects)%nat then text crdObjects else [])
          ++ text nonNsCrdObjects)
  /\ match applyManifest componentName manifestStr version opts s,
           (logAndPrint "- Applying manifest for component %s..." [componentName] ;;
            applyUntilFailure opts namespace extraArgs steps) s with
     | Ret (applyOut, _) s1, Ret (issued, err) s2 =>
         Err applyOut = err
         /\ appliesOf (calls s1) = appliesOf (calls s) ++ issued
         /\ calls s1 = calls s2 /\ world s1 = world s2
     | Panic s1, Panic s2 => calls s1 = calls s2 /\ world s1 = world s2
     | _, _ => False
     end.
Proof.
  intros Hparse Hne labelled nsObjects crdObjects nonNsCrdObjects text namespace
    extraArgs steps.
  assert (Hargs : (if bool_decide (componentName <> name.IstioBaseComponentName)
                   then ["--force"] ++ ["--prune"; "--selector";
                                        istioComponentLabelStr +:+ "=" +:+ componentName]
                   else ["--force"]) = extraArgs).
  { subst extraArgs. case_bool_decide; case_decide; done. }
  unfold applyManifest. rewrite Hparse.
  destruct objects as [|o objects]; [done|].
  rewrite bool_decide_eq_false_2 by done.
  fold labelled. fold nsObjects. fold crdObjects. fold nonNsCrdObjects.
  fold namespace. rewrite Hargs. clearbody extraArgs namespace. subst steps.
  split.
  - unfold Apply, logAndPrint. munfold. cbn [app]. subst text. cbv beta.
    repeat case_innermost;
      repeat match goal with
             | H : waitForResources ?objs ?p ?sx = _ |- _ =>
                 let Hc := fresh "Hc" in
                 pose proof (waitForResources_applies objs p sx) as Hc;
                 rewrite H in Hc; cbn [stateOf calls appliesOf] in Hc; clear H
             | H : waitForCRDs ?objs ?d ?sx = _ |- _ =>
                 let Hc := fresh "Hc" in
                 pose proof (waitForCRDs_applies objs d sx) as Hc;
                 rewrite H in Hc; cbn [stateOf calls appliesOf] in Hc; clear H
             end;
      cbn [stateOf calls appliesOf];
      repeat match goal with
             | H : appliesOf (calls ?sx) = _ |- context [appliesOf (calls ?sx)] => rewrite H
             end.
    all: rewrite <- ?app_assoc; cbn [app].
    all: eexists; (split; [first [reflexivity | symmetry; apply app_nil_r]|]).
    all: by eexists.
  - destruct (0 <? length nsObjects)%nat, (0 <? length crdObjects)%nat;
      cbn [app applyUntilFailure];
      unfold Apply, buildComponentApplyOutput; munfold; unfold log.
    all: repeat case_innermost; simplify_eq; cbn [Err calls world appliesOf app].
    all: repeat match goal with
           | H : waitForResources ?objs ?p ?sx = _ |- _ =>
               let Hc := fresh "Hc" in
               pose proof (waitForResources_applies objs p sx) as Hc;
               rewrite H in Hc; cbn [stateOf calls appliesOf] in Hc; clear H
           | H : waitForCRDs ?objs ?d ?sx = _ |- _ =>
               let Hc := fresh "Hc" in
               pose proof (waitForCRDs_applies objs d sx) as Hc;
               rewrite H in Hc; cbn [stateOf calls appliesOf] in Hc; clear H
           end.
    all: repeat match goal with
           | H : appliesOf (calls ?sx) = _ |- context [appliesOf (calls ?sx)] => rewrite H
           end.
    all: rewrite <- ?app_assoc, ?app_nil_r; cbn [app]; done.
Qed.

End OrderOfApplies.

(** ** The labels of an applied object *)

(** X8: the labelling loop of [applyManifest] leaves an object with the
    component label set to the component, the managed label set to
    Reconcile and the version label set to the version, whatever values
    these labels had; every other label, and the group, kind, name and
    namespace of the object, stay as they were. *)
Theorem stamp_labels (componentName : name.ComponentName) (version : string)
    (o : K8sObject) :
  Labels (stamp componentName version o) !! istioComponentLabelStr = Some componentName
  /\ Labels (stamp componentName version o) !! operatorLabelStr = Some operatorReconcileStr
  /\ Labels (stamp componentName version o) !! istioVersionLabelStr = Some version
  /\ (forall k, k <> istioComponentLabelStr -> k <> operatorLabelStr ->
                k <> istioVersionLabelStr ->
                Labels (stamp componentName version o) !! k = Labels o !! k)
  /\ Group (stamp componentName version o) = Group o
  /\ Kind (stamp componentName version o) = Kind o
  /\ Name (stamp componentName version o) = Name o
  /\ Namespace (stamp componentName version o) = Namespace o.
Proof.
  unfold stamp, AddLabels. cbn [Labels Group Kind Name Namespace].
  repeat split.
  - rewrite lookup_union_r by (by apply lookup_singleton_ne).
    rewrite lookup_union_r by (by apply lookup_singleton_ne).
    rewrite lookup_union_l' by (by rewrite lookup_singleton_eq).
    by rewrite lookup_singleton_eq.
  - rewrite lookup_union_r by (by apply lookup_singleton_ne).
    rewrite lookup_union_l' by (by rewrite lookup_singleton_eq).
    by rewrite lookup_singleton_eq.
  - rewrite lookup_union_l' by (by rewrite lookup_singleton_eq).
    by rewrite lookup_singleton_eq.
  - intros k H1 H2 H3.
    rewrite !lookup_union_r; [done|by apply lookup_singleton_ne..].
Qed.

(** ** The connection resolver *)

Section Connection.
Context {W : Type} `{!Collaborators W}.

Lemma BuildClientConfig_empty (context : string) (s : State W) :
  BuildClientConfig "" context s = ask (clientcmd_ClientConfig "" context) s.
Proof. unfold BuildClientConfig. munfold. simpl. by destruct (clientcmd_ClientConfig _ _ _). Qed.

(** X11: a kubeconfig path whose file cannot be examined, or is empty, is
    treated as no path at all: the configuration is built as it is for the
    empty path (from the world after the look at the file), and an error of
    the look at the file is never returned. *)
Theorem BuildClientConfig_fallback (kubeconfig context : string) (s : State W)
    (r : Z + error) (w1 : W) :
  kubeconfig <> "" ->
  os_Stat kubeconfig (world s) = (r, w1) ->
  match r with inl size => size = 0 | inr _ => True end ->
  BuildClientConfig kubeconfig context s
  = BuildClientConfig "" context (mkState w1 (k8sRESTConfig s) (calls s) (logs s)).
Proof.
  intros Hne Hstat Hr. rewrite BuildClientConfig_empty.
  unfold BuildClientConfig. munfold.
  destruct (String.eqb_spec kubeconfig "") as [?|_]; [done|]. simpl. rewrite Hstat.
  destruct r as [size|e]; [subst size|]; simpl; by destruct (clientcmd_ClientConfig _ _ _).
Qed.

(** X9: once [initK8SRestClient] has succeeded the process is connected,
    and every later call, whatever kubeconfig and context it names, returns
    success at once and changes nothing: the connection of the process is
    resolved once.  A connection resolved by the call has the API path
    /api and the group version v1. *)
Theorem initK8SRestClient_resolves_once (kubeconfig context : string) (s s1 : State W) :
  initK8SRestClient kubeconfig context s = Ret None s1 ->
  (exists config,
     k8sRESTConfig s1 = Some config
     /\ (k8sRESTConfig s = None -> APIPath config = "/api" /\ GroupVersion config = "v1"))
  /\ (forall kubeconfig' context', initK8SRestClient kubeconfig' context' s1 = Ret None s1).
Proof.
  intros Hinit.
  assert (Hc : exists config,
     k8sRESTConfig s1 = Some config
     /\ (k8sRESTConfig s = None -> APIPath config = "/api" /\ GroupVersion config = "v1")).
  { revert Hinit. unfold initK8SRestClient, defaultRestConfig. munfold.
    destruct (k8sRESTConfig s) as [config|] eqn:Hs.
    - intros [= <-]. exists config. by rewrite Hs.
    - destruct (BuildClientConfig kubeconfig context s) as [[config|err] s2|s2];
        [|discriminate..].
      intros [= <-]. eexists. split; [reflexivity|]. done. }
  split; [exact Hc|]. destruct Hc as (config & Hs1 & _).
  intros kubeconfig' context'. unfold initK8SRestClient. munfold. by rewrite Hs1.
Qed.

(** X10: a failed resolution leaves the process unconnected, as it was,
    and issues nothing: the next call resolves again. *)
Lemma initK8SRestClient_failure (kubeconfig context : string) (s s1 : State W) (err : error) :
  initK8SRestClient kubeconfig context s = Ret (Some err) s1 ->
  k8sRESTConfig s = None /\ k8sRESTConfig s1 = None /\ calls s1 = calls s.
Proof.
  unfold initK8SRestClient, defaultRestConfig, BuildClientConfig. munfold.
  destruct (k8sRESTConfig s) as [config|] eqn:Hs; [discriminate|].
  destruct (negb (String.eqb kubeconfig "")).
  - destruct (os_Stat kubeconfig (world s)) as [[size|e] w1]; simpl.
    + destruct (size =? 0); simpl;
        destruct (clientcmd_ClientConfig _ context w1) as [[config|e] w2];
        intros [= <-]; by simplify_eq.
    + destruct (clientcmd_ClientConfig _ context w1) as [[config|e'] w2];
        intros [= <-]; by simplify_eq.
  - simpl. destruct (clientcmd_ClientConfig _ context (world s)) as [[config|e'] w2];
      intros [= <-]; by simplify_eq.
Qed.

End Connection.

(** ** The readiness waiter *)

Section ReadinessWaiter.
Context {W : Type} `{!Collaborators W}.

Lemma gatherOne_unwatched (o : K8sObject) (g : Gathered) :
  Kind o ∉ watchedKinds -> gatherOne o g = mret (inl g).
Proof.
  intros Hk. unfold gatherOne, watchedKinds in *.
  repeat match goal with
         | |- context [String.eqb (Kind o) ?k] =>
             destruct (String.eqb_spec (Kind o) k) as [Heq|_];
             [exfalso; apply Hk; rewrite Heq; set_solver|]
         end.
  done.
Qed.

Lemma gatherAll_watched (objects : list K8sObject) (g : Gathered) (s : State W) :
  gatherAll objects g s = gatherAll (filter (fun o => Kind o ∈ watchedKinds) objects) g s.
Proof.
  revert g s. induction objects as [|o objects IH]; intros g s; [done|].
  rewrite filter_cons. destruct (decide (Kind o ∈ watchedKinds)) as [Hk|Hk].
  - simpl. unfold mbind, M_bind, bind.
    destruct (gatherOne o g s) as [[g'|e] s1|s1]; [apply IH|done..].
  - simpl. rewrite (gatherOne_unwatched o g Hk). apply IH.
Qed.

Lemma pollLoop_ext {S : Type} (n : nat) (interval : Duration)
    (c1 c2 : S -> M W (bool * option error * S)) (acc : S) (s : State W) :
  (forall acc s, c1 acc s = c2 acc s) ->
  pollLoop n interval c1 acc s = pollLoop n interval c2 acc s.
Proof.
  intros Hc. revert acc s. induction n as [|n IH]; intros acc s; [done|].
  simpl. munfold. rewrite Hc.
  destruct (c2 acc _) as [[[ok err] acc'] s1|s1]; [|done].
  destruct err; [done|]. destruct ok; [done|]. apply IH.
Qed.

(** X12: the readiness waiter looks at the objects of eight kinds
    (Namespace, Pod, ReplicationController, Deployment, DaemonSet,
    StatefulSet, ReplicaSet, Service) and at nothing else: the objects of
    any other kind make no difference to what it reads, returns or
    logs. *)
Theorem waitForResources_watched_kinds (objects : list K8sObject) (opts : InstallOptions)
    (s : State W) :
  waitForResources objects opts s
  = waitForResources (filter (fun o => Kind o ∈ watchedKinds) objects) opts s.
Proof.
  unfold waitForResources. destruct (DryRun opts); [done|].
  munfold. destruct (k8sRESTConfig s) as [config|]; [|done].
  destruct (kubernetes_NewForConfig config); [done|].
  unfold Poll.
  rewrite (pollLoop_ext _ _ (resourcesCondition objects)
             (resourcesCondition (filter (fun o => Kind o ∈ watchedKinds) objects))); [done|].
  intros acc s0. unfold resourcesCondition. munfold. by rewrite gatherAll_watched.
Qed.

(** X13: when none of the objects is of a kind the waiter looks at, the
    wait succeeds at the first poll: it lets one poll interval of two
    seconds pass, reads nothing and logs nothing. *)
Theorem waitForResources_nothing_watched (objects : list K8sObject) (opts : InstallOptions)
    (s : State W) (config : RestConfig) (n : nat) :
  Forall (fun o => Kind o ∉ watchedKinds) objects ->
  DryRun opts = false ->
  k8sRESTConfig s = Some config ->
  kubernetes_NewForConfig config = None ->
  pollAttempts (2 * Second) (WaitTimeout opts) = S n ->
  waitForResources objects opts s
  = Ret None (mkState (sleep (2 * Second) (world s)) (k8sRESTConfig s) (calls s) (logs s)).
Proof.
  intros Hkinds Hdry Hcfg Hcs Hn.
  assert (Hgather : forall g s0, gatherAll objects g s0 = Ret (inl g) s0).
  { induction Hkinds as [|o objects Hk _ IH]; intros g s0; [done|].
    simpl. rewrite (gatherOne_unwatched o g Hk). apply IH. }
  unfold waitForResources. rewrite Hdry. munfold. rewrite Hcfg, Hcs.
  unfold Poll. rewrite Hn. simpl. munfold. unfold resourcesCondition. munfold.
  rewrite Hgather. simpl. by rewrite Hcfg.
Qed.

(** X14: when the resources do not become ready before the attempts of the
    poll are used up, the waiter returns an error that names the timeout of
    the options and the resources the last poll found not ready, one to a
    line. *)
Theorem waitForResources_timeout (objects : list K8sObject) (opts : InstallOptions)
    (s : State W) (config : RestConfig) (n : nat) (waiting : list string) :
  DryRun opts = false ->
  k8sRESTConfig s = Some config ->
  kubernetes_NewForConfig config = None ->
  pollAttempts (2 * Second) (WaitTimeout opts) = S n ->
  (forall notReady s0, exists s1,
     resourcesCondition objects notReady s0 = Ret (false, None, waiting) s1) ->
  exists s',
    waitForResources objects opts s
    = Ret (Some ("resources not ready after " +:+ Duration_String (WaitTimeout opts)
                   +:+ ": " +:+ ErrWaitTimeout +:+ nl +:+ String.concat nl waiting)) s'.
Proof.
  intros Hdry Hcfg Hcs Hn Hnever.
  assert (Hpoll : forall k notReady s0, exists s1,
            pollLoop (S k) (2 * Second) (resourcesCondition objects) notReady s0
            = Ret (Some ErrWaitTimeout, waiting) s1).
  { induction k as [|k IH]; intros notReady s0.
    - simpl. munfold.
      destruct (Hnever notReady (mkState (sleep (2 * Second) (world s0)) (k8sRESTConfig s0)
                                   (calls s0) (logs s0))) as (s1 & Hc).
      rewrite Hc. by eexists.
    - change (pollLoop (S (S k)) (2 * Second) (resourcesCondition objects) notReady s0)
        with ((tell (sleep (2 * Second)) ;;
               '(done, err, acc') ← resourcesCondition objects notReady;
               match err with
               | Some e => ret (Some e, acc')
               | None => if (done : bool) then ret (None, acc')
                         else pollLoop (S k) (2 * Second) (resourcesCondition objects) acc'
               end) s0).
      munfold.
      destruct (Hnever notReady (mkState (sleep (2 * Second) (world s0)) (k8sRESTConfig s0)
                                   (calls s0) (logs s0))) as (s1 & Hc).
      rewrite Hc. apply IH. }
  unfold waitForResources. rewrite Hdry. munfold. rewrite Hcfg, Hcs.
  unfold Poll. rewrite Hn.
  destruct (Hpoll n [] s) as (s1 & Hp). rewrite Hp. by eexists.
Qed.

Lemma resourcesCondition_pods_only (objects : list K8sObject) (notReady : list string)
    (items : list Pod) (s s1 : State W) :
  gatherAll objects (mkGathered [] [] [] []) s = Ret (inl (mkGathered items [] [] [])) s1 ->
  exists s',
    resourcesCondition objects notReady s
    = Ret (fst (podsReady items), None, snd (podsReady items)) s'
    /\ world s' = world s1.
Proof.
  intros Hg. unfold resourcesCondition. munfold. rewrite Hg.
  cbn [deployments namespaces pods services].
  change (deploymentsReady []) with (Some (true, @nil string)).
  change (namespacesReady []) with (true, @nil string).
  change (servicesReady []) with (true, @nil string).
  cbv iota beta. destruct (podsReady items) as [pr pnr].
  unfold joinStringSlices. cbn [concat app fst snd andb]. rewrite app_nil_r, andb_true_r.
  destruct pr; eexists; split; reflexivity.
Qed.

(** X15: for a DaemonSet, a StatefulSet or a ReplicaSet among the objects,
    a poll reads the live object, lists the pods that match its selector in
    its namespace, and finds the object ready exactly when every one of
    these pods is ready; the pods that are not are listed as not ready. *)
Theorem workload_ready_iff_pods_ready
    (o : K8sObject) (wl : Workload) (matchLabels : gmap string string) (items : list Pod)
    (notReady : list string) (s : State W) (w1 w2 : W) :
  (Kind o = "DaemonSet" /\ GetDaemonSet (Namespace o) (Name o) (world s) = (inl wl, w1))
  \/ (Kind o = "StatefulSet" /\ GetStatefulSet (Namespace o) (Name o) (world s) = (inl wl, w1))
  \/ (Kind o = "ReplicaSet" /\ GetReplicaSet (Namespace o) (Name o) (world s) = (inl wl, w1)) ->
  wlSelector wl = Some matchLabels ->
  ListPods (wlNamespace wl) matchLabels w1 = ((items, None), w2) ->
  exists s',
    resourcesCondition [o] notReady s
    = Ret (fst (podsReady items), None, snd (podsReady items)) s'
    /\ world s' = w2.
Proof.
  intros Hget Hsel Hlist.
  apply (resourcesCondition_pods_only [o] notReady items s
           (mkState w2 (k8sRESTConfig s) (calls s) (logs s))).
  unfold gatherAll, gatherOne.
  destruct Hget as [[Hk Hget]|[[Hk Hget]|[Hk Hget]]]; rewrite Hk; simpl;
    munfold; rewrite Hget; simpl; unfold gatherWorkload; rewrite Hsel;
    unfold gatherPods, getPods; munfold; simpl; by rewrite Hlist.
Qed.

(** X16: a live DaemonSet, StatefulSet or ReplicaSet without a selector
    brings the waiter down: the poll dereferences the selector. *)
Theorem workload_without_selector_panics
    (o : K8sObject) (wl : Workload) (rest : list K8sObject)
    (notReady : list string) (s : State W) (w1 : W) :
  (Kind o = "DaemonSet" /\ GetDaemonSet (Namespace o) (Name o) (world s) = (inl wl, w1))
  \/ (Kind o = "StatefulSet" /\ GetStatefulSet (Namespace o) (Name o) (world s) = (inl wl, w1))
  \/ (Kind o = "ReplicaSet" /\ GetReplicaSet (Namespace o) (Name o) (world s) = (inl wl, w1)) ->
  wlSelector wl = None ->
  resourcesCondition (o :: rest) notReady s
  = Panic (mkState w1 (k8sRESTConfig s) (calls s) (logs s)).
Proof.
  intros Hget Hsel.
  unfold resourcesCondition. simpl. unfold gatherOne.
  destruct Hget as [[Hk Hget]|[[Hk Hget]|[Hk Hget]]]; rewrite Hk; simpl;
    munfold; rewrite Hget; simpl; unfold gatherWorkload; by rewrite Hsel.
Qed.

End ReadinessWaiter.

(** ** The CRD waiter: success *)

Section CRDWaiterSuccess.
Context {W : Type} `{!Collaborators W}.

(** A poll that finds every CRD established has read each of them once,
    in the order of the names. *)
Lemma crdCondition_established (crdNames : list string) (s : State W) :
  crdVerdict (answersOf crdNames (world s)) = (true, None) ->
  exists s',
    crdCondition crdNames s = Ret (true, None) s'
    /\ k8sRESTConfig s' = k8sRESTConfig s
    /\ calls s' = reverse (CallGetCRD <$> crdNames) ++ calls s.
Proof.
  revert s. induction crdNames as [|crdName rest IH]; intros s Hv.
  - by exists s.
  - simpl in *. munfold. simpl.
    destruct (GetCRD crdName (world s)) as [[crd|errGet] w'] eqn:Hget; simpl in *;
      [|discriminate].
    set (s1 := mkState w' (k8sRESTConfig s) (CallGetCRD crdName :: calls s) (logs s)).
    destruct (scanConditions_spec crdName (crdConditions crd) s1)
      as (s2 & Hscan & Hw & Hcfg & Hcalls & _).
    rewrite Hscan.
    destruct (establishedIn (crdConditions crd)); [|discriminate].
    destruct (IH s2) as (s3 & Hrest & Hcfg3 & Hcalls3); [by rewrite Hw|].
    exists s3. split; [done|]. split; [by rewrite Hcfg3, Hcfg|].
    rewrite Hcalls3, Hcalls. simpl. by rewrite reverse_cons, <- app_assoc.
Qed.

(** X18: when the first poll finds every CRD of the objects established,
    the CRD waiter returns success after one poll interval, having read
    each CRD once, in the order of the objects, and logs that it has
    finished. *)
Theorem waitForCRDs_established (objects : list K8sObject) (s : State W)
    (config : RestConfig) (n : nat) :
  k8sRESTConfig s = Some config ->
  apiextensionsclient_NewForConfig config = None ->
  pollAttempts cRDPollInterval cRDPollTimeout = S n ->
  crdVerdict (answersOf (map Name (cRDKindObjects objects))
                (sleep cRDPollInterval (world s))) = (true, None) ->
  exists s',
    waitForCRDs objects false s = Ret None s'
    /\ calls s' = reverse (CallGetCRD <$> map Name (cRDKindObjects objects)) ++ calls s
    /\ head (logs s') = Some (LogInfo "Finished applying CRDs." []).
Proof.
  intros Hcfg Hcs Hn Hv.
  unfold waitForCRDs. munfold. simpl. rewrite Hcfg, Hcs. unfold Poll. rewrite Hn.
  simpl. munfold. simpl.
  destruct (crdCondition_established (map Name (cRDKindObjects objects))
              (mkState (sleep cRDPollInterval (world s)) (Some config) (calls s)
                 (LogInfo "Waiting for CRDs to be applied." [] :: logs s)) Hv)
    as (s1 & Hcond & _ & Hcalls).
  rewrite Hcond. simpl. eexists. split; [reflexivity|]. simpl. by split.
Qed.

End CRDWaiterSuccess.

(** ** The gates after a run *)

Section GatesAfterRun.
Context {W : Type} `{!Collaborators W}.
Variable version : string.
Variable opts : InstallOptions.

Abbreviation base := name.IstioBaseComponentName.

Lemma gate_after_run (manifests : gmap name.ComponentName string) (s : State W)
    (schedule : list name.ComponentName) (r : Run W) (ch : name.ComponentName) :
  runSchedule manifests version opts schedule (launch manifests s) = Some r ->
  allFinished r ->
  ch ∈ baseChildren ->
  gates r !! ch
  = Some (if decide (is_Some (manifests !! base) /\ manifests !! ch = None)
          then 1%nat else 0%nat).
Proof.
  intros Hrun Hfin Hch.
  pose proof (runSchedule_Invariant manifests version opts schedule _ r
                (launch_Invariant manifests s) Hrun) as HI.
  destruct (gates r !! ch) as [n|] eqn:Hg;
    [|by apply (inv_gates manifests r HI) in Hg].
  pose proof (inv_tokens manifests r HI ch n Hg) as Htok.
  assert (Hdom : forall c, is_Some (tasks r !! c) <-> is_Some (manifests !! c)).
  { intros c. rewrite <- !elem_of_dom. by rewrite (inv_dom manifests r HI). }
  assert (Hdone : forall c t, tasks r !! c = Some t -> t = Finished)
    by (intros c t; apply Hfin).
  unfold received, sentTo in Htok. f_equal.
  destruct (tasks r !! ch) as [t|] eqn:Ht.
  - rewrite (Hdone ch t Ht) in Htok.
    assert (Hm : is_Some (manifests !! ch)) by (apply Hdom; by rewrite Ht).
    rewrite decide_False by (intros [_ Hn]; rewrite Hn in Hm; by destruct Hm).
    destruct (tasks r !! base) as [tb|] eqn:Hb; [|lia].
    rewrite (Hdone base tb Hb) in Htok. lia.
  - assert (Hm : manifests !! ch = None).
    { apply eq_None_not_Some. rewrite <- Hdom, Ht. by intros []. }
    destruct (tasks r !! base) as [tb|] eqn:Hb.
    + rewrite (Hdone base tb Hb) in Htok.
      rewrite decide_True; [lia|]. split; [|done]. apply Hdom. by rewrite Hb.
    + rewrite decide_False; [lia|]. intros [Hbm _]. apply Hdom in Hbm.
      rewrite Hb in Hbm. by destruct Hbm.
Qed.

(** X20: when a run of [applyRecursive] has come to its end, the gates
    are the gates of the declared children, as before the run, and the gate
    of a child is empty again, unless the base component was in the map
    and the child was not: then the signal the base component sent is
    still in the gate of the child. *)
Theorem gates_after_run (manifests : gmap name.ComponentName string) (s : State W)
    (schedule : list name.ComponentName) (r : Run W) :
  runSchedule manifests version opts schedule (launch manifests s) = Some r ->
  allFinished r ->
  forall c,
    gates r !! c
    = if decide (c ∈ baseChildren)
      then Some (if decide (is_Some (manifests !! base) /\ manifests !! c = None)
                 then 1%nat else 0%nat)
      else None.
Proof.
  intros Hrun Hfin c. case_decide as Hc.
  - by apply (gate_after_run manifests s schedule).
  - pose proof (runSchedule_Invariant manifests version opts schedule _ r
                  (launch_Invariant manifests s) Hrun) as HI.
    by apply (inv_gates manifests r HI).
Qed.

(** With a signal left in the gate of a child that is not in the map, the
    base component never gets past the signal for that child. *)
Lemma step_beforeSignal (manifests : gmap name.ComponentName string)
    (ch c : name.ComponentName) (r r' : Run W) :
  ch ∈ baseChildren ->
  step manifests version opts c r = Some r' ->
  gates r !! ch = Some 1%nat -> tasks r !! ch = None ->
  beforeSignal ch (tasks r !! base) ->
  gates r' !! ch = Some 1%nat /\ tasks r' !! ch = None
  /\ beforeSignal ch (tasks r' !! base).
Proof.
  intros Hch Hstep Hg Ht Hb. apply step_cases in Hstep.
  destruct Hstep as [n Hc Hgc|Hc Hgc|applyOut appliedObjects s' Hc Ha|ch' rest Hc Hgc|Hc];
    cbn [gates tasks].
  - assert (c <> ch) by congruence.
    rewrite !lookup_insert_ne by done. split; [done|]. split; [done|].
    destruct (decide (c = base)) as [->|]; [by rewrite lookup_insert_eq|].
    by rewrite lookup_insert_ne.
  - assert (c <> ch) by congruence.
    rewrite !lookup_insert_ne by done. split; [done|]. split; [done|].
    destruct (decide (c = base)) as [->|]; [by rewrite lookup_insert_eq|].
    by rewrite lookup_insert_ne.
  - assert (c <> ch) by congruence.
    rewrite !lookup_insert_ne by done. split; [done|]. split; [done|].
    destruct (decide (c = base)) as [->|]; [by rewrite lookup_insert_eq|].
    by rewrite lookup_insert_ne.
  - assert (c <> ch) by congruence. assert (ch' <> ch) by congruence.
    rewrite !lookup_insert_ne by done. split; [done|]. split; [done|].
    destruct (decide (c = base)) as [->|]; [|by rewrite lookup_insert_ne].
    rewrite lookup_insert_eq. rewrite Hc in Hb. simpl in *.
    apply elem_of_cons in Hb as [->|Hb]; done.
  - assert (c <> ch) by congruence.
    rewrite !lookup_insert_ne by done. split; [done|]. split; [done|].
    destruct (decide (c = base)) as [->|]; [|by rewrite lookup_insert_ne].
    rewrite Hc in Hb. simpl in Hb. by apply elem_of_nil in Hb.
Qed.

Lemma runSchedule_beforeSignal (manifests : gmap name.ComponentName string)
    (ch : name.ComponentName) (schedule : list name.ComponentName) (r r' : Run W) :
  ch ∈ baseChildren ->
  runSchedule manifests version opts schedule r = Some r' ->
  gates r !! ch = Some 1%nat /\ tasks r !! ch = None
  /\ beforeSignal ch (tasks r !! base) ->
  gates r' !! ch = Some 1%nat /\ tasks r' !! ch = None
  /\ beforeSignal ch (tasks r' !! base).
Proof.
  intros Hch. revert r.
  induction schedule as [|c schedule IH]; intros r; cbn [runSchedule].
  - by intros [= <-].
  - destruct (step manifests version opts c r) as [r1|] eqn:Hstep; [|discriminate].
    intros Hrun (Hg & Ht & Hb). apply (IH r1 Hrun). by eapply step_beforeSignal.
Qed.

(** X21: a signal that a run has left in the gate of a child blocks the
    next run in the same process: when the map of the next run holds the
    base component and again not that child, the base component blocks on
    the full gate, and no schedule brings the run to its end. *)
Theorem next_run_blocks_on_full_gate
    (manifests manifests' : gmap name.ComponentName string) (s s' : State W)
    (schedule schedule' : list name.ComponentName) (r r' : Run W)
    (ch : name.ComponentName) :
  runSchedule manifests version opts schedule (launch manifests s) = Some r ->
  allFinished r ->
  ch ∈ baseChildren ->
  is_Some (manifests !! base) -> manifests !! ch = None ->
  is_Some (manifests' !! base) -> manifests' !! ch = None ->
  runSchedule manifests' version opts schedule' (launchFrom (gates r) manifests' s')
  = Some r' ->
  ~ allFinished r'.
Proof.
  intros Hrun Hfin Hch Hb Hc Hb' Hc' Hrun'.
  assert (Hfull : gates r !! ch = Some 1%nat).
  { rewrite (gate_after_run manifests s schedule r ch Hrun Hfin Hch).
    by rewrite decide_True. }
  assert (HJ : gates r' !! ch = Some 1%nat /\ tasks r' !! ch = None
               /\ beforeSignal ch (tasks r' !! base)).
  { apply (runSchedule_beforeSignal manifests' ch schedule'
             (launchFrom (gates r) manifests' s') r' Hch Hrun').
    cbn [launchFrom gates tasks]. rewrite !lookup_fmap, Hc'.
    destruct Hb' as [m ->]. done. }
  destruct HJ as (_ & _ & Hbefore). intros Hall.
  destruct (tasks r' !! base) as [t|] eqn:Ht; [|done].
  rewrite (Hall base t Ht) in Hbefore. done.
Qed.

End GatesAfterRun.

(** ** Rendering: what the walk does to the file system *)

(** Induction on a tree value, with the property at hand for every value
    below it. *)
Lemma treeValue_nested_ind (P : treeValue -> Prop) :
  P NotATree ->
  (forall entries, Forall (fun kv => P kv.2) entries -> P (SubTree entries)) ->
  forall v, P v.
Proof.
  intros HN HS.
  refine (fix IH (v : treeValue) : P v :=
            match v with
            | NotATree => HN
            | SubTree entries =>
                HS entries
                  ((fix go (l : list (name.ComponentName * treeValue))
                      : Forall (fun kv => P kv.2) l :=
                      match l with
                      | [] => @List.Forall_nil _ (fun kv => P kv.2)
                      | kv :: l' =>
                          @List.Forall_cons _ (fun kv => P kv.2) kv l'
                            (match kv return P kv.2 with (k, v') => IH v' end) (go l')
                      end) entries)
            end).
Qed.

Lemma rendered_refl manifests fs : rendered manifests fs fs.
Proof. split; [done|]. intros p. by left. Qed.

Lemma rendered_trans manifests fs fs1 fs2 :
  rendered manifests fs fs1 -> rendered manifests fs1 fs2 -> rendered manifests fs fs2.
Proof.
  intros [Hd1 Hf1] [Hd2 Hf2]. split; [set_solver|]. intros p.
  destruct (Hf2 p) as [Heq|Hw]; [|by right].
  destruct (Hf1 p) as [Heq1|(dir & c & Hp & Hc & Hw)].
  - left. congruence.
  - right. exists dir, c. by rewrite Heq.
Qed.

Lemma MkdirAll_rendered manifests p fs r fs' :
  MkdirAll p fs = (r, fs') -> rendered manifests fs fs'.
Proof.
  unfold MkdirAll. case_bool_decide; intros [= <- <-].
  - apply rendered_refl.
  - split; [set_solver|]. intros q. by left.
Qed.

Lemma WriteFile_rendered manifests dir c fs r fs' :
  manifestOf manifests c <> "" ->
  WriteFile (Join (Join dir c) (c +:+ ".yaml")) (manifestOf manifests c) fs = (r, fs') ->
  rendered manifests fs fs'.
Proof.
  intros Hc. unfold WriteFile. repeat case_bool_decide; intros [= <- <-];
    try apply rendered_refl.
  split; [done|]. intros q. cbn [files].
  destruct (decide (q = Join (Join dir c) (c +:+ ".yaml"))) as [->|Hq].
  - right. exists dir, c. rewrite lookup_insert_eq. unfold Join.
    by rewrite <- app_assoc.
  - left. by rewrite lookup_insert_ne.
Qed.

(** X22: whatever the tree, the manifests and the options, and whether it
    succeeds or fails, the rendering walk only adds to the file system: no
    directory disappears, and a file that is not as it was before is the
    file <c>/<c>.yaml of a component that has a manifest, and holds that
    manifest. *)
Theorem renderRecursive_only_adds
    (manifests : gmap name.ComponentName string) (tree : componentTree)
    (outputDir : path) (dryRun verbose : bool) (fs fs' : FS) (r : option error) :
  renderRecursive manifests tree outputDir dryRun verbose fs = (r, fs') ->
  rendered manifests fs fs'.
Proof.
  change (renderRecursive manifests tree outputDir dryRun verbose fs)
    with (renderEntries manifests dryRun verbose (SubTree tree) outputDir fs).
  revert outputDir fs fs' r.
  induction (SubTree tree) as [|entries IH] using treeValue_nested_ind;
    intros outputDir fs fs' r.
  { intros [= <- <-]. apply rendered_refl. }
  change (renderEntries manifests dryRun verbose (SubTree entries) outputDir fs)
    with (renderRecursive manifests entries outputDir dryRun verbose fs).
  revert fs. induction IH as [|[k v] entries Hv _ IHe]; intros fs.
  { rewrite renderRecursive_nil. intros [= <- <-]. apply rendered_refl. }
  rewrite renderRecursive_cons.
  destruct (String.eqb_spec (manifestOf manifests k) "") as [Hempty|Hfull]; [apply IHe|].
  destruct (if negb dryRun then MkdirAll (Join outputDir k) fs else (None, fs))
    as [e1 fs1] eqn:Hmk.
  assert (H1 : rendered manifests fs fs1).
  { destruct dryRun; simpl in Hmk.
    - injection Hmk as <- <-. apply rendered_refl.
    - by eapply MkdirAll_rendered. }
  destruct e1 as [e1|].
  { intros [= <- <-]. exact H1. }
  destruct (if negb dryRun
            then WriteFile (Join (Join outputDir k) (k +:+ ".yaml"))
                   (manifestOf manifests k) fs1
            else (None, fs1)) as [e2 fs2] eqn:Hwr.
  assert (H2 : rendered manifests fs1 fs2).
  { destruct dryRun; simpl in Hwr.
    - injection Hwr as <- <-. apply rendered_refl.
    - by eapply WriteFile_rendered. }
  destruct e2 as [e2|].
  { intros [= <- <-]. by eapply rendered_trans. }
  destruct v as [kt|].
  - change (renderRecursive manifests kt (Join outputDir k) dryRun verbose fs2)
      with (renderEntries manifests dryRun verbose (SubTree kt) (Join outputDir k) fs2).
    destruct (renderEntries manifests dryRun verbose (SubTree kt) (Join outputDir k) fs2)
      as [e3 fs3] eqn:Hsub.
    apply Hv in Hsub.
    assert (H3 : rendered manifests fs fs3)
      by (eapply rendered_trans; [eapply rendered_trans|]; eassumption).
    destruct e3 as [e3|].
    + intros [= <- <-]. exact H3.
    + intros Hrest. apply IHe in Hrest. by eapply rendered_trans.
  - intros [= <- <-]. by eapply rendered_trans.
Qed.

(** X23: without a manifest for the base component nothing is rendered,
    whatever manifests the other components have: the walk skips the base
    component and, with it, everything below it, and reports success. *)
Theorem RenderToDir_without_base
    (manifests : gmap name.ComponentName string) (outputDir : path)
    (dryRun verbose : bool) (fs : FS) :
  manifestOf manifests name.IstioBaseComponentName = "" ->
  RenderToDir manifests outputDir dryRun verbose fs = (None, fs).
Proof.
  intros Hbase. unfold RenderToDir. rewrite installTree_shape, renderRecursive_cons.
  by rewrite Hbase.
Qed.

(** X24: when a regular file is in the way of the directory of the base
    component, a real run fails before it has created or written anything;
    the error names the output directory. *)
Theorem RenderToDir_blocked
    (manifests : gmap name.ComponentName string) (outputDir : path)
    (verbose : bool) (fs : FS) :
  manifestOf manifests name.IstioBaseComponentName <> "" ->
  Exists (fun q => is_Some (files fs !! q))
         (prefixes (Join outputDir name.IstioBaseComponentName)) ->
  RenderToDir manifests outputDir false verbose fs
  = (Some ("could not create directory " +:+ pathString outputDir +:+ "; mkdir "
             +:+ pathString (Join outputDir name.IstioBaseComponentName)
             +:+ ": not a directory"), fs).
Proof.
  intros Hbase Hfile. unfold RenderToDir. rewrite installTree_shape, renderRecursive_cons.
  destruct (String.eqb_spec (manifestOf manifests name.IstioBaseComponentName) "");
    [done|].
  cbn [negb]. unfold MkdirAll. by rewrite bool_decide_eq_true_2.
Qed.

(** ** The printed install tree *)

Lemma buildInstallTreeString_leaf (fuel : nat) (tree : componentTree)
    (c : name.ComponentName) (prefix sb : string) :
  treeLookup c tree = None ->
  buildInstallTreeString (S fuel) tree c prefix sb = Some (sb +:+ (prefix +:+ c +:+ nl)).
Proof. intros Hc. simpl. by rewrite Hc. Qed.

Lemma buildInstallTreeString_node (fuel : nat) (tree entries : componentTree)
    (c : name.ComponentName) (prefix sb : string) :
  treeLookup c tree = Some (SubTree entries) ->
  buildInstallTreeString (S fuel) tree c prefix sb
  = foldl (fun acc kv =>
             match acc with
             | None => None
             | Some sb => buildInstallTreeString fuel tree kv.1 (prefix +:+ "  ") sb
             end)
          (Some (sb +:+ (prefix +:+ c +:+ nl))) entries.
Proof. intros Hc. simpl. by rewrite Hc. Qed.

Lemma string_app_assoc (a b c : string) : (a +:+ b) +:+ c = a +:+ (b +:+ c).
Proof.
  induction a as [|x a IH]; [done|].
  change (String x ((a +:+ b) +:+ c) = String x (a +:+ (b +:+ c))). by rewrite IH.
Qed.

Lemma string_app_nil_r (a : string) : a +:+ "" = a.
Proof.
  induction a as [|x a IH]; [done|].
  change (String x (a +:+ "") = String x a). by rewrite IH.
Qed.

Lemma concat_empty_cons (x : string) (l : list string) :
  String.concat "" (x :: l) = x +:+ String.concat "" l.
Proof. destruct l; [|done]. cbn [String.concat]. by rewrite string_app_nil_r. Qed.

Lemma buildInstallTreeString_leaves (fuel : nat) (tree entries : componentTree)
    (prefix sb : string) :
  Forall (fun kv => treeLookup kv.1 tree = None) entries ->
  foldl (fun acc kv =>
           match acc with
           | None => None
           | Some sb => buildInstallTreeString (S fuel) tree kv.1 prefix sb
           end)
        (Some sb) entries
  = Some (sb +:+ String.concat "" (map (fun kv => prefix +:+ kv.1 +:+ nl) entries)).
Proof.
  intros Hleaves. revert sb.
  induction Hleaves as [|[k v] entries Hk _ IH]; intros sb.
  - cbn [foldl map String.concat]. by rewrite string_app_nil_r.
  - cbn [foldl fst map]. rewrite concat_empty_cons, buildInstallTreeString_leaf by done.
    by rewrite IH, string_app_assoc.
Qed.

(** X25: the printed install tree has the line of the base component and,
    below it, one line for each key of the tree of the base component,
    indented by two blanks, in the order in which the keys are visited.
    What the tree holds below these keys is not printed: the printer looks
    every component up at the top of the install tree. *)
Theorem installTreeString_two_levels (fuel : nat) (entries : componentTree) :
  name.IstioBaseComponentName ∉ entries.*1 ->
  installTreeString (S (S fuel)) [(name.IstioBaseComponentName, SubTree entries)]
  = Some (name.IstioBaseComponentName +:+ nl
          +:+ String.concat "" (map (fun kv => "  " +:+ kv.1 +:+ nl) entries)).
Proof.
  intros Hbase. unfold installTreeString.
  rewrite (buildInstallTreeString_node _ _ entries) by reflexivity.
  change ("" +:+ ("" +:+ name.IstioBaseComponentName +:+ nl))
    with (name.IstioBaseComponentName +:+ nl).
  change ("" +:+ "  ") with "  ".
  rewrite buildInstallTreeString_leaves; [by rewrite string_app_assoc|].
  apply Forall_forall. intros [k v] Hin. cbn [fst treeLookup].
  destruct (String.eqb_spec name.IstioBaseComponentName k) as [<-|_]; [|done].
  exfalso. apply Hbase. apply list_elem_of_fmap. by exists (name.IstioBaseComponentName, v).
Qed.

(** ** Building the install tree *)

Lemma treeLookup_treeInsert (k k' : name.ComponentName) (v : treeValue) (tree : componentTree) :
  treeLookup k' (treeInsert k v tree) = if String.eqb k k' then Some v else treeLookup k' tree.
Proof.
  induction tree as [|[k0 v0] tree IH]; simpl.
  - done.
  - destruct (String.eqb_spec k0 k) as [->|Hne]; simpl.
    + by destruct (String.eqb k k').
    + rewrite IH. destruct (String.eqb_spec k0 k') as [->|Hne'].
      * by rewrite (proj2 (String.eqb_neq k k')).
      * done.
Qed.

Lemma insertChildren_keys (fuel : nat)
    (children : list (name.ComponentName * list name.ComponentName))
    (cs : list name.ComponentName) (acc : componentTree) (k : name.ComponentName) :
  (exists below,
     treeLookup k (foldl (fun sub child =>
                            insertChildrenRecursive (S fuel) child sub children) acc cs)
     = Some (SubTree below))
  <-> k ∈ cs \/ exists below, treeLookup k acc = Some (SubTree below).
Proof.
  revert acc. induction cs as [|c cs IH]; intros acc.
  - simpl. split; [by right|]. intros [Hin|H]; [by apply elem_of_nil in Hin|done].
  - cbn [foldl]. rewrite IH. cbn [insertChildrenRecursive].
    rewrite treeLookup_treeInsert, elem_of_cons.
    destruct (String.eqb_spec c k) as [->|Hne].
    + split; [intros _; by left; left|]. intros _. right. by eexists.
    + split; [intros [?|?]; [by left; right|by right]|].
      intros [[->|?]|?]; [done|by left|by right].
Qed.

(** X26: [insertChildrenRecursive] puts the component at the top of the
    tree, with a tree below it whose keys are the children declared for the
    component, each with a tree of its own, and leaves the other entries of
    the tree as they were. *)
Theorem insertChildrenRecursive_lookup (fuel : nat) (componentName : name.ComponentName)
    (tree : componentTree)
    (children : list (name.ComponentName * list name.ComponentName)) :
  let tree' := insertChildrenRecursive (S (S fuel)) componentName tree children in
  (exists sub,
     treeLookup componentName tree' = Some (SubTree sub)
     /\ forall k, k ∈ childrenOf children componentName
                  <-> exists below, treeLookup k sub = Some (SubTree below))
  /\ (forall k, k <> componentName -> treeLookup k tree' = treeLookup k tree).
Proof.
  intros tree'. subst tree'.
  change (insertChildrenRecursive (S (S fuel)) componentName tree children)
    with (treeInsert componentName
            (SubTree (foldl (fun sub child =>
                               insertChildrenRecursive (S fuel) child sub children)
                            [] (childrenOf children componentName))) tree).
  split.
  - eexists. split; [by rewrite treeLookup_treeInsert, String.eqb_refl|].
    intros k. rewrite insertChildren_keys. split; [by left|].
    intros [?|[below Hb]]; [done|discriminate Hb].
  - intros k Hk. rewrite treeLookup_treeInsert.
    by rewrite (proj2 (String.eqb_neq componentName k)).
Qed.

(** ** The object orderer: which objects come first and last *)

Lemma noSlash_append_slash (a b : string) : noSlash (a +:+ "/" +:+ b) = false.
Proof.
  induction a as [|x a IH]; [done|].
  change (negb (Ascii.eqb x "/") && noSlash (a +:+ "/" +:+ b) = false).
  rewrite IH. apply andb_false_r.
Qed.

(** A group and a kind without slashes can be read off the key that joins
    them with a slash. *)
Lemma group_kind_inj (g k g' k' : string) :
  noSlash g' = true -> noSlash k' = true ->
  g +:+ "/" +:+ k = g' +:+ "/" +:+ k' -> g = g' /\ k = k'.
Proof.
  revert g. induction g' as [|x' g' IH]; intros g Hg Hk Heq.
  - destruct g as [|x g].
    + split; [done|]. by injection Heq.
    + exfalso. change (String x (g +:+ "/" +:+ k) = String "/" k') in Heq.
      injection Heq as -> <-. by rewrite noSlash_append_slash in Hk.
  - change (negb (Ascii.eqb x' "/") && noSlash g' = true) in Hg.
    apply andb_true_iff in Hg as [Hx Hg].
    destruct g as [|x g].
    + exfalso. change (String "/" k = String x' (g' +:+ "/" +:+ k')) in Heq.
      injection Heq as <- _. done.
    + change (String x (g +:+ "/" +:+ k) = String x' (g' +:+ "/" +:+ k')) in Heq.
      injection Heq as -> Heq. destruct (IH g Hg Hk Heq) as [-> ->]. done.
Qed.

(** X27: the orderer scores an object with one of seven numbers.  The
    lowest, -1000, goes to the CustomResourceDefinitions of the API group
    apiextensions.k8s.io and to nothing else; the highest, 10000, to the
    Services of the core group and to nothing else: in the order of
    application these come first and last. *)
Theorem defaultObjectOrder_extremes (o : K8sObject) :
  defaultObjectOrder o ∈ [-1000; 1; 2; 100; 1000; 1001; 10000]
  /\ (defaultObjectOrder o = -1000
      <-> Group o = "apiextensions.k8s.io" /\ Kind o = "CustomResourceDefinition")
  /\ (defaultObjectOrder o = 10000 <-> Group o = "" /\ Kind o = "Service").
Proof.
  assert (Hcrd : Group o +:+ "/" +:+ Kind o = "apiextensions.k8s.io/CustomResourceDefinition"
                 <-> Group o = "apiextensions.k8s.io" /\ Kind o = "CustomResourceDefinition").
  { split; [|by intros [-> ->]].
    apply (group_kind_inj _ _ "apiextensions.k8s.io" "CustomResourceDefinition"); done. }
  assert (Hsvc : Group o +:+ "/" +:+ Kind o = "/Service"
                 <-> Group o = "" /\ Kind o = "Service").
  { split; [|by intros [-> ->]].
    apply (group_kind_inj _ _ "" "Service"); done. }
  rewrite <- Hcrd, <- Hsvc. unfold defaultObjectOrder.
  generalize (Group o +:+ "/" +:+ Kind o) as gk. intros gk.
  repeat match goal with
         | |- context [String.eqb gk ?lit] =>
             destruct (String.eqb_spec gk lit) as [->|?];
             [ cbn [orb];
               rewrite ?orb_true_r;
               (split; [repeat first [apply list_elem_of_here | apply list_elem_of_further]|]);
               split; split; intros H; done || discriminate H | ]
         end.
  cbn [orb]. split; [repeat first [apply list_elem_of_here | apply list_elem_of_further]|].
  split; split; intros H; done || discriminate H.
Qed.

(** ** The properties on sample inputs *)

Lemma applyManifest_namespace_then_configmap :
  @applyManifest nat (scripted healthy) name.PilotComponentName "ns+cm" "1.4.0"
    defaultOptions connectedState
  = Ret (mkComponentApplyOutput (nl +:+ "applied" +:+ nl +:+ "applied") (nl +:+ nl) None
           "istio-system,mesh",
         [stamp name.PilotComponentName "1.4.0" aNamespace;
          stamp name.PilotComponentName "1.4.0" aConfigMap])
      (mkState 1%nat (k8sRESTConfig connectedState)
         [CallApply false false "" "" "istio-system" "mesh"
            ["--force"; "--prune"; "--selector"; "operator.istio.io/component=Pilot"];
          CallApply false false "" "" "istio-system" "istio-system"
            ["--force"; "--prune"; "--selector"; "operator.istio.io/component=Pilot"]]
         [LogInfo "%s Finished applying manifest for component %s." ["✔"; "Pilot"];
          LogInfo "- Applying manifest for component %s..." ["Pilot"]])
  /\ [stamp name.PilotComponentName "1.4.0" aNamespace;
      stamp name.PilotComponentName "1.4.0" aConfigMap]
     ≡ₚ map (stamp name.PilotComponentName "1.4.0") [aNamespace; aConfigMap].
Proof.
  assert (Hrun : @applyManifest nat (scripted healthy) name.PilotComponentName "ns+cm"
                   "1.4.0" defaultOptions connectedState
                 = Ret (mkComponentApplyOutput (nl +:+ "applied" +:+ nl +:+ "applied")
                          (nl +:+ nl) None "istio-system,mesh",
                        [stamp name.PilotComponentName "1.4.0" aNamespace;
                         stamp name.PilotComponentName "1.4.0" aConfigMap])
                     (mkState 1%nat (k8sRESTConfig connectedState)
                        [CallApply false false "" "" "istio-system" "mesh"
                           ["--force"; "--prune"; "--selector";
                            "operator.istio.io/component=Pilot"];
                         CallApply false false "" "" "istio-system" "istio-system"
                           ["--force"; "--prune"; "--selector";
                            "operator.istio.io/component=Pilot"]]
                        [LogInfo "%s Finished applying manifest for component %s."
                           ["✔"; "Pilot"];
                         LogInfo "- Applying manifest for component %s..." ["Pilot"]]))
    by (vm_compute; reflexivity).
  split; [exact Hrun|].
  destruct (@applyManifest_applies_by_steps nat (scripted healthy)
              name.PilotComponentName "ns+cm" "1.4.0" defaultOptions _ _
              [aNamespace; aConfigMap] _ _ eq_refl ltac:(discriminate) Hrun)
    as (_ & Hall & _).
  exact (proj2 (Hall eq_refl)).
Defined.

Lemma applyManifest_pilot_issues :
  issues (enabledCall name.PilotComponentName defaultOptions "istio-system")
    (@applyManifest nat (scripted healthy) name.PilotComponentName "ns+cm" "1.4.0"
       defaultOptions).
Proof.
  apply (@applyManifest_enabled_issues nat (scripted healthy) name.PilotComponentName
           "ns+cm" "1.4.0" defaultOptions [aNamespace; aConfigMap]);
    [reflexivity | discriminate].
Defined.

Lemma applyManifest_namespace_before_configmap :
  (exists applyOut appliedObjects s1,
     @applyManifest nat (scripted healthy) name.PilotComponentName "ns+cm" "1.4.0"
       defaultOptions connectedState = Ret (applyOut, appliedObjects) s1
     /\ Err applyOut = None
     /\ appliesOf (calls s1) = ["istio-system"; "mesh"])
  /\ (exists applyOut appliedObjects s1,
        @applyManifest nat (scripted refusedApply) name.PilotComponentName "ns+cm" "1.4.0"
          defaultOptions connectedState = Ret (applyOut, appliedObjects) s1
        /\ Err applyOut = Some "exit status 1"
        /\ appliesOf (calls s1) = ["istio-system"]).
Proof.
  split.
  - destruct (@applyManifest_order_of_applies nat (scripted healthy)
                name.PilotComponentName "ns+cm" "1.4.0" defaultOptions
                [aNamespace; aConfigMap] connectedState eq_refl ltac:(discriminate))
      as [_ Hsteps].
    destruct (@applyManifest nat (scripted healthy) name.PilotComponentName "ns+cm"
                "1.4.0" defaultOptions connectedState)
      as [[applyOut appliedObjects] s1|s1];
      vm_compute in Hsteps; [|destruct Hsteps].
    exists applyOut, appliedObjects, s1. split; [reflexivity|].
    split; [exact (proj1 Hsteps) | exact (proj1 (proj2 Hsteps))].
  - destruct (@applyManifest_order_of_applies nat (scripted refusedApply)
                name.PilotComponentName "ns+cm" "1.4.0" defaultOptions
                [aNamespace; aConfigMap] connectedState eq_refl ltac:(discriminate))
      as [_ Hsteps].
    destruct (@applyManifest nat (scripted refusedApply) name.PilotComponentName "ns+cm"
                "1.4.0" defaultOptions connectedState)
      as [[applyOut appliedObjects] s1|s1];
      vm_compute in Hsteps; [|destruct Hsteps].
    exists applyOut, appliedObjects, s1. split; [reflexivity|].
    split; [exact (proj1 Hsteps) | exact (proj1 (proj2 Hsteps))].
Defined.

Lemma initK8SRestClient_healthy :
  @initK8SRestClient nat (scripted healthy) "" "" freshState = Ret None connectedState
  /\ (forall kubeconfig' context',
        @initK8SRestClient nat (scripted healthy) kubeconfig' context' connectedState
        = Ret None connectedState).
Proof.
  assert (Hrun : @initK8SRestClient nat (scripted healthy) "" "" freshState
                 = Ret None connectedState) by reflexivity.
  split; [exact Hrun|].
  exact (proj2 (@initK8SRestClient_resolves_once nat (scripted healthy) "" "" freshState
                  connectedState Hrun)).
Defined.

Lemma initK8SRestClient_unconfigured :
  @initK8SRestClient nat (scripted unconfigured) "" "" freshState
  = Ret (Some "invalid configuration: no configuration has been provided") freshState
  /\ k8sRESTConfig freshState = None.
Proof.
  assert (Hrun : @initK8SRestClient nat (scripted unconfigured) "" "" freshState
                 = Ret (Some "invalid configuration: no configuration has been provided")
                     freshState) by reflexivity.
  split; [exact Hrun|].
  exact (proj1 (proj2 (@initK8SRestClient_failure nat (scripted unconfigured) "" ""
                         freshState freshState _ Hrun))).
Defined.

Lemma BuildClientConfig_missing_file :
  @BuildClientConfig nat (scriptedWith healthy cniNodes) "/root/.kube/missing" "" freshState
  = @BuildClientConfig nat (scriptedWith healthy cniNodes) "" ""
      (mkState 0%nat (k8sRESTConfig freshState) (calls freshState) (logs freshState)).
Proof.
  apply (@BuildClientConfig_fallback nat (scriptedWith healthy cniNodes)
           "/root/.kube/missing" "" freshState (inr "no such file or directory") 0%nat).
  - discriminate.
  - reflexivity.
  - exact I.
Defined.

Lemma waitForResources_configmap_only :
  @waitForResources nat (scripted healthy) [aConfigMap] defaultOptions connectedState
  = Ret None (mkState (@sleep nat (scripted healthy) (2 * Second) (world connectedState))
                (k8sRESTConfig connectedState) (calls connectedState)
                (logs connectedState)).
Proof.
  apply (@waitForResources_nothing_watched nat (scripted healthy) [aConfigMap]
           defaultOptions connectedState
           (mkRestConfig "cluster" "/api" "v1" "WithoutConversionCodecFactory") 2%nat).
  - apply Forall_singleton. apply (bool_decide_unpack _). vm_compute. exact I.
  - reflexivity.
  - reflexivity.
  - reflexivity.
  - reflexivity.
Defined.

Lemma waitForResources_terminating_namespace :
  exists s',
    @waitForResources nat (scripted terminating) [aNamespace] defaultOptions connectedState
    = Ret (Some ("resources not ready after 1m0s: timed out waiting for the condition"
                   +:+ nl +:+ "Namespace/istio-system")) s'.
Proof.
  apply (@waitForResources_timeout nat (scripted terminating) [aNamespace] defaultOptions
           connectedState
           (mkRestConfig "cluster" "/api" "v1" "WithoutConversionCodecFactory") 2%nat
           ["Namespace/istio-system"]).
  - reflexivity.
  - reflexivity.
  - reflexivity.
  - reflexivity.
  - intros notReady s0.
    exists (mkState (world s0) (k8sRESTConfig s0) (calls s0)
              (LogInfo "  Waiting for resources to become ready..." [] :: logs s0)).
    reflexivity.
Defined.

Lemma daemon_set_with_a_pending_pod :
  exists s',
    @resourcesCondition nat (scriptedWith healthy cniNodes) [aDaemonSet] [] connectedState
    = Ret (false, None, ["Pod/kube-system/istio-cni-node-9fq4z"]) s'
    /\ world s' = 0%nat.
Proof.
  apply (@workload_ready_iff_pods_ready nat (scriptedWith healthy cniNodes) aDaemonSet
           (mkWorkload "kube-system" (Some {[ "k8s-app" := "istio-cni-node" ]}))
           {[ "k8s-app" := "istio-cni-node" ]} [aReadyPod; aPendingPod] [] connectedState
           0%nat 0%nat).
  - left. split; reflexivity.
  - reflexivity.
  - reflexivity.
Defined.

Lemma daemon_set_without_selector :
  @resourcesCondition nat (scriptedWith healthy withoutSelector) [aDaemonSet; aConfigMap] []
    connectedState
  = Panic (mkState 0%nat (k8sRESTConfig connectedState) (calls connectedState)
             (logs connectedState)).
Proof.
  apply (@workload_without_selector_panics nat (scriptedWith healthy withoutSelector)
           aDaemonSet (mkWorkload "kube-system" None) [aConfigMap] [] connectedState 0%nat).
  - left. split; reflexivity.
  - reflexivity.
Defined.

Lemma waitForCRDs_healthy :
  exists s',
    @waitForCRDs nat (scripted healthy) [aCRD; aConfigMap] false connectedState = Ret None s'
    /\ calls s' = [CallGetCRD "gateways.networking.istio.io"]
    /\ head (logs s') = Some (LogInfo "Finished applying CRDs." []).
Proof.
  apply (@waitForCRDs_established nat (scripted healthy) [aCRD; aConfigMap] connectedState
           (mkRestConfig "cluster" "/api" "v1" "WithoutConversionCodecFactory") 2%nat);
    reflexivity.
Defined.

Lemma waitForCRDs_never_established :
  exists s',
    @waitForCRDs nat (scripted neverEstablished) [aCRD] false connectedState
    = Ret (Some "failed to verify CRD creation: timed out waiting for the condition") s'.
Proof.
  apply (@waitForCRDs_timeout nat (scripted neverEstablished) [aCRD] connectedState
           (mkRestConfig "cluster" "/api" "v1" "WithoutConversionCodecFactory")).
  - reflexivity.
  - reflexivity.
  - intros w. reflexivity.
Defined.

Lemma deployment_before_its_replica_set :
  @resourcesCondition nat (scripted noReplicaSetYet) [aDeployment; aNamespace]
    ["Namespace/istio-system"] connectedState
  = Ret (false, None, ["Namespace/istio-system"])
      (mkState 0%nat (k8sRESTConfig connectedState) (calls connectedState)
         (logs connectedState)).
Proof.
  apply (@deployment_without_new_replica_set nat (scripted noReplicaSetYet) aDeployment
           (mkDeployment "istio-system" "istio-pilot" (Some 1)) [aNamespace]
           ["Namespace/istio-system"] connectedState 0%nat 0%nat); reflexivity.
Defined.

Lemma RenderToDir_only_adds :
  rendered twoManifests emptyFS (snd (RenderToDir twoManifests ["out"] false false emptyFS)).
Proof.
  apply (renderRecursive_only_adds twoManifests installTree ["out"] false false emptyFS
           (snd (RenderToDir twoManifests ["out"] false false emptyFS))
           (fst (RenderToDir twoManifests ["out"] false false emptyFS))).
  unfold RenderToDir. by destruct (renderRecursive _ _ _ _ _ _).
Defined.

Lemma RenderToDir_pilot_alone :
  RenderToDir pilotAlone ["out"] false false emptyFS = (None, emptyFS).
Proof. apply RenderToDir_without_base. reflexivity. Defined.

Lemma RenderToDir_file_in_the_way :
  RenderToDir twoManifests ["out"] false false fileInTheWay
  = (Some "could not create directory out; mkdir out/Base: not a directory", fileInTheWay).
Proof.
  apply (RenderToDir_blocked twoManifests ["out"] false fileInTheWay).
  - discriminate.
  - apply (bool_decide_unpack _). vm_compute. exact I.
Defined.

Lemma installTreeString_declared :
  installTreeString 2 installTree
  = Some (name.IstioBaseComponentName +:+ nl
          +:+ String.concat "" (map (fun c => "  " +:+ c +:+ nl) baseChildren)).
Proof.
  apply (installTreeString_two_levels 0 declaredLeaves).
  apply (bool_decide_unpack _). vm_compute. exact I.
Defined.

Lemma gates_after_base_alone :
  @runSchedule nat (scripted healthy) baseAlone "1.4.0" defaultOptions baseToTheEnd
    (launch baseAlone connectedState) = Some afterBaseAlone
  /\ allFinished afterBaseAlone
  /\ gates afterBaseAlone !! name.PilotComponentName = Some 1%nat
  /\ gates afterBaseAlone !! name.IstioBaseComponentName = None.
Proof.
  assert (Hrun : @runSchedule nat (scripted healthy) baseAlone "1.4.0" defaultOptions
                   baseToTheEnd (launch baseAlone connectedState) = Some afterBaseAlone)
    by (vm_compute; reflexivity).
  assert (Hfin : allFinished afterBaseAlone)
    by (apply (bool_decide_unpack _); vm_compute; exact I).
  split; [exact Hrun|]. split; [exact Hfin|].
  pose proof (@gates_after_run nat (scripted healthy) "1.4.0" defaultOptions baseAlone
                connectedState baseToTheEnd afterBaseAlone Hrun Hfin) as Hgates.
  split.
  - exact (Hgates name.PilotComponentName).
  - exact (Hgates name.IstioBaseComponentName).
Defined.

Lemma second_run_of_base_alone_blocks :
  @runSchedule nat (scripted healthy) baseAlone "1.4.0" defaultOptions baseToTheEnd
    (launch baseAlone connectedState) = Some afterBaseAlone
  /\ allFinished afterBaseAlone
  /\ @runSchedule nat (scripted healthy) baseAlone "1.4.0" defaultOptions
       [name.IstioBaseComponentName; name.IstioBaseComponentName]
       (launchFrom (gates afterBaseAlone) baseAlone connectedState) = Some intoTheNextRun
  /\ ~ allFinished intoTheNextRun.
Proof.
  assert (Hrun : @runSchedule nat (scripted healthy) baseAlone "1.4.0" defaultOptions
                   baseToTheEnd (launch baseAlone connectedState) = Some afterBaseAlone)
    by (vm_compute; reflexivity).
  assert (Hfin : allFinished afterBaseAlone)
    by (apply (bool_decide_unpack _); vm_compute; exact I).
  assert (Hnext : @runSchedule nat (scripted healthy) baseAlone "1.4.0" defaultOptions
                    [name.IstioBaseComponentName; name.IstioBaseComponentName]
                    (launchFrom (gates afterBaseAlone) baseAlone connectedState)
                  = Some intoTheNextRun)
    by (vm_compute; reflexivity).
  split; [exact Hrun|]. split; [exact Hfin|]. split; [exact Hnext|].
  apply (@next_run_blocks_on_full_gate nat (scripted healthy) "1.4.0" defaultOptions
           baseAlone baseAlone connectedState connectedState baseToTheEnd
           [name.IstioBaseComponentName; name.IstioBaseComponentName]
           afterBaseAlone intoTheNextRun name.PilotComponentName Hrun Hfin).
  - apply list_elem_of_here.
  - by eexists.
  - reflexivity.
  - by eexists.
  - reflexivity.
  - exact Hnext.
Defined.

(** ** The readiness waiter: one object, and a read that fails *)

Section OneObject.
Context {W : Type} `{!Collaborators W}.

(** X28: an error of the first read that a poll makes ends the wait on the
    spot, whatever attempts are left and whatever objects follow: the
    waiter returns an error that carries the timeout of the options and
    the error of the read, and no resource that is not ready. *)
Theorem waitForResources_read_error
    (o : K8sObject) (rest : list K8sObject) (opts : InstallOptions) (s : State W)
    (config : RestConfig) (n : nat) (e : error) (w1 : W) :
  DryRun opts = false ->
  k8sRESTConfig s = Some config ->
  kubernetes_NewForConfig config = None ->
  pollAttempts (2 * Second) (WaitTimeout opts) = S n ->
  firstReadFails o (sleep (2 * Second) (world s)) e w1 ->
  waitForResources (o :: rest) opts s
  = Ret (Some ("resources not ready after " +:+ Duration_String (WaitTimeout opts)
                 +:+ ": " +:+ e +:+ nl))
      (mkState w1 (k8sRESTConfig s) (calls s) (logs s)).
Proof.
  intros Hdry Hcfg Hcs Hn Hread.
  unfold waitForResources. rewrite Hdry. munfold. rewrite Hcfg, Hcs.
  unfold Poll. rewrite Hn. cbn [pollLoop]. munfold. cbn [world k8sRESTConfig calls logs].
  unfold resourcesCondition. munfold. cbn [gatherAll]. munfold. unfold gatherOne.
  destruct Hread as [[Hk Hr]|[[Hk Hr]|[[Hk Hr]|[[Hk Hr]|[[Hk Hr]|[[Hk Hr]|[[Hk Hr]|[Hk Hr]]]]]]]];
    rewrite Hk; cbn [String.eqb Ascii.eqb Bool.eqb]; munfold; cbn [world];
    rewrite Hr; rewrite ?Hcfg; reflexivity.
Qed.

(** X29: for a Namespace, a Pod or a Service among the objects, a poll
    reads the live object and judges it by the check of its kind: the
    phase of the namespace, the Ready condition of the pod, the cluster IP
    and the ingress of the service. *)
Theorem resourcesCondition_one_object
    (o : K8sObject) (notReady : list string) (s : State W) (w1 : W) :
  (forall namespace,
     Kind o = "Namespace" ->
     GetNamespace (Name o) (world s) = (inl namespace, w1) ->
     exists s',
       resourcesCondition [o] notReady s
       = Ret (fst (namespacesReady [namespace]), None, snd (namespacesReady [namespace])) s'
       /\ world s' = w1)
  /\ (forall pod,
        Kind o = "Pod" ->
        GetPod (Namespace o) (Name o) (world s) = (inl pod, w1) ->
        exists s',
          resourcesCondition [o] notReady s
          = Ret (fst (podsReady [pod]), None, snd (podsReady [pod])) s'
          /\ world s' = w1)
  /\ (forall svc,
        Kind o = "Service" ->
        GetService (Namespace o) (Name o) (world s) = (inl svc, w1) ->
        exists s',
          resourcesCondition [o] notReady s
          = Ret (fst (servicesReady [svc]), None, snd (servicesReady [svc])) s'
          /\ world s' = w1).
Proof.
  split; [|split].
  - intros namespace Hk Hr. unfold resourcesCondition, gatherAll, gatherOne.
    rewrite Hk. cbn [String.eqb Ascii.eqb Bool.eqb]. munfold. rewrite Hr.
    cbn [deployments namespaces pods services app].
    change (deploymentsReady []) with (Some (true, @nil string)).
    change (podsReady []) with (true, @nil string).
    change (servicesReady []) with (true, @nil string).
    cbv iota beta. destruct (namespacesReady [namespace]) as [nsr nnr].
    unfold joinStringSlices. cbn [concat app fst snd andb]. rewrite app_nil_r, andb_true_r.
    destruct nsr; eexists; split; reflexivity.
  - intros pod Hk Hr.
    apply (resourcesCondition_pods_only [o] notReady [pod] s
             (mkState w1 (k8sRESTConfig s) (calls s) (logs s))).
    unfold gatherAll, gatherOne. rewrite Hk. cbn [String.eqb Ascii.eqb Bool.eqb].
    munfold. by rewrite Hr.
  - intros svc Hk Hr. unfold resourcesCondition, gatherAll, gatherOne.
    rewrite Hk. cbn [String.eqb Ascii.eqb Bool.eqb]. munfold. rewrite Hr.
    cbn [deployments namespaces pods services app].
    change (deploymentsReady []) with (Some (true, @nil string)).
    change (podsReady []) with (true, @nil string).
    change (namespacesReady []) with (true, @nil string).
    cbv iota beta. destruct (servicesReady [svc]) as [sr snr].
    unfold joinStringSlices. cbn [concat app fst snd andb]. rewrite app_nil_r.
    destruct sr; eexists; split; reflexivity.
Qed.

End OneObject.

(** ** A dry run *)

Section DryRun.
Context {W : Type} `{!Collaborators W}.

Lemma returns_ret {A} (a : A) : returns (mret a : M W A).
Proof. intros s. by exists a, s. Qed.

Lemma returns_bind {A B} (m : M W A) (k : A -> M W B) :
  returns m -> (forall a, returns (k a)) -> returns (m ≫= k).
Proof.
  intros Hm Hk s. destruct (Hm s) as (a & s1 & Hrun).
  destruct (Hk a s1) as (b & s2 & Hrun2).
  exists b, s2. by rewrite (bind_Ret m k s s1 a Hrun).
Qed.

Lemma returns_ask {A} (f : W -> A * W) : returns (ask f).
Proof. intros s. unfold ask. destruct (f (world s)) as [a w]. by eexists _, _. Qed.

Lemma returns_log (l : LogEntry) : returns (log (W:=W) l).
Proof. intros s. by eexists _, _. Qed.

Lemma returns_record (c : Call) : returns (record (W:=W) c).
Proof. intros s. by eexists _, _. Qed.

(** X30: in a dry run the apply of a component returns an outcome whatever
    the collaborators answer, and whether or not the process is connected
    to a cluster: neither of the two waits is entered. *)
Theorem applyManifest_dry_run_returns
    (componentName : name.ComponentName) (manifestStr version : string)
    (opts : InstallOptions) :
  DryRun opts = true ->
  returns (applyManifest componentName manifestStr version opts).
Proof.
  intros Hdry.
  assert (Hres : forall objects, returns (waitForResources objects opts)).
  { intros objects. unfold waitForResources, logAndPrint. rewrite Hdry.
    eapply returns_bind; [apply returns_log | intros _; apply returns_ret]. }
  assert (Hcrd : forall objects, returns (waitForCRDs objects (DryRun opts))).
  { intros objects. unfold waitForCRDs. rewrite Hdry.
    eapply returns_bind; [apply returns_log | intros _; apply returns_ret]. }
  unfold applyManifest, GetAll, Delete, Apply, logAndPrint.
  repeat first
    [ apply returns_ret
    | apply returns_log
    | apply returns_record
    | apply returns_ask
    | apply Hres
    | apply Hcrd
    | eapply returns_bind; [|intros ?]
    | match goal with
      | |- returns (match ?x with _ => _ end) => destruct x
      end ].
Qed.

End DryRun.

(** ** A failed read, a live namespace and a dry run, on sample inputs *)

Lemma waitForResources_pod_not_found :
  @waitForResources nat (scripted healthy) [aPod; aNamespace] defaultOptions connectedState
  = Ret (Some ("resources not ready after 1m0s: not found" +:+ nl))
      (mkState 1%nat (k8sRESTConfig connectedState) (calls connectedState)
         (logs connectedState)).
Proof.
  apply (@waitForResources_read_error nat (scripted healthy) aPod [aNamespace]
           defaultOptions connectedState
           (mkRestConfig "cluster" "/api" "v1" "WithoutConversionCodecFactory") 2%nat
           "not found" 1%nat).
  - reflexivity.
  - reflexivity.
  - reflexivity.
  - reflexivity.
  - right. left. split; reflexivity.
Defined.

Lemma resourcesCondition_active_namespace :
  exists s',
    @resourcesCondition nat (scripted healthy) [aNamespace] [] connectedState
    = Ret (true, None, []) s'
    /\ world s' = 0%nat.
Proof.
  apply (proj1 (@resourcesCondition_one_object nat (scripted healthy) aNamespace []
                  connectedState 0%nat)
           (mkNamespaceObj "istio-system" NamespaceActive)); reflexivity.
Defined.

Lemma applyManifest_dry_run_unconnected :
  returns (@applyManifest nat (scripted healthy) name.PilotComponentName "ns+cm" "1.4.0"
             dryRunOptions).
Proof.
  apply (@applyManifest_dry_run_returns nat (scripted healthy) name.PilotComponentName
           "ns+cm" "1.4.0" dryRunOptions).
  reflexivity.
Defined.
